(** * Plant identification backend: BryoFormer and its inference pipeline

    A shallow embedding of [backend/models/bryoFormer.py] and
    [backend/models/plant_model.py], and of the identification endpoint of
    [backend/main.py], [backend/main_fixed.py] and [backend/main_fixed_v2.py].

    - A tensor is its shape (a list of naturals, as [x.shape]) together with
      an uninterpreted payload.  Every torch operator is its shape rule, which
      raises exactly where torch raises, and an uninterpreted deterministic
      kernel on payloads: floating-point arithmetic itself is not modelled.
    - A Python exception is a value [Raise e]; code runs in a state-and-error
      monad over the model state (parameters and buffers, the train/eval flag
      and the random generator that Dropout and DropPath draw from).
    - Each [nn.Module] of the source is a record of its hyper-parameters, a
      constructor that raises as the Python constructor does, the list of the
      parameters it registers, and its [forward]. *)

From Stdlib Require Import ZArith QArith Reals Lra Lia Sorted.
From stdpp Require Import gmap strings list pretty.

Local Open Scope nat_scope.

(** ** Python exceptions and results *)

Module Py.

(** The subclasses of [Exception] the modelled code can raise. *)
Inductive exn : Type :=
  | AssertionError | AttributeError | IndexError | OSError | RuntimeError
  | TypeError | UnboundLocalError | UnpicklingError | ValueError
  | ZeroDivisionError.

Inductive res (A : Type) : Type :=
  | Ret (a : A)
  | Raise (e : exn).

Arguments Ret {A} a.
Arguments Raise {A} e.

Definition rbind {A B : Type} (r : res A) (f : A -> res B) : res B :=
  match r with
  | Ret a => f a
  | Raise e => Raise e
  end.

Definition is_ret {A : Type} (r : res A) : bool :=
  match r with Ret _ => true | Raise _ => false end.

(** [assert c] *)
Definition py_assert (c : bool) : res unit :=
  if c then Ret tt else Raise AssertionError.

(** [a // b] on non-negative integers. *)
Definition floordiv (a b : nat) : res nat :=
  if b =? 0 then Raise ZeroDivisionError else Ret (a / b).

(** [l[i]] on a list. *)
Definition index {A : Type} (l : list A) (i : nat) : res A :=
  match l !! i with
  | Some a => Ret a
  | None => Raise IndexError
  end.

End Py.
Export Py.

Notation "x <- m ;;; k" := (rbind m (fun x => k))
  (at level 100, m at next level, right associativity, only parsing).

(** ** Uninterpreted numerics *)

(** What the embedding assumes of the numeric substrate: payloads [D] of
    tensors, scalars [F] read out of them, and kernels that are functions of
    their arguments.  [F_real] is the real number a scalar stands for. *)
Class Numerics : Type := {
  D : Type;
  F : Type;
  Rng : Type;
  (** the kernel of operator [name] with integer attributes, on arguments of
      the given shapes *)
  prim : string -> list Z -> list (list nat) -> list D -> D;
  (** a kernel that draws from the generator (Dropout, DropPath) *)
  prim_rand : string -> Q -> Rng -> list nat -> D -> D;
  rng_next : Rng -> Rng;
  (** the value a constructor gives the parameter or buffer of that name *)
  init_data : string -> D;
  (** element [i] of a payload in row-major order, as [t.flatten()[i].item()] *)
  elem : D -> nat -> F;
  F_leb : F -> F -> bool;
  F_real : F -> R;
  (** multiplication of every element by a real scalar *)
  scale : R -> D -> D;
  D_eq_dec :: EqDecision D;
  F_eq_dec :: EqDecision F;
}.

Section Torch.
Context `{Numerics}.

Record Tensor : Type := mkTensor { tshape : list nat; tdata : D }.

Definition numel (sh : list nat) : nat := foldr Nat.mul 1 sh.

Definition kernel (name : string) (attrs : list Z) (args : list Tensor) : D :=
  prim name attrs (tshape <$> args) (tdata <$> args).

Definition shape_eqb (a b : list nat) : bool := bool_decide (a = b).

(** *** Views and layout *)

(** [x.view(sh)] with every size given: the payload is shared. *)
Definition view (x : Tensor) (sh : list nat) : res Tensor :=
  if numel sh =? numel (tshape x)
  then Ret (mkTensor sh (tdata x))
  else Raise RuntimeError.

(** [x.reshape(sh)] with every size given. *)
Definition reshape (x : Tensor) (sh : list nat) : res Tensor :=
  if numel sh =? numel (tshape x)
  then Ret (mkTensor sh (kernel "reshape" [] [x]))
  else Raise RuntimeError.

(** [x.reshape(sh, -1)]: the last size is inferred; torch refuses when the
    given sizes multiply to zero or do not divide the number of elements. *)
Definition reshape_infer (x : Tensor) (sh : list nat) : res Tensor :=
  let known := numel sh in
  let n := numel (tshape x) in
  if (known =? 0) || negb (n mod known =? 0)
  then Raise RuntimeError
  else Ret (mkTensor (sh ++ [n / known]) (kernel "reshape" [] [x])).

Definition swap_dims (sh : list nat) (i j : nat) : option (list nat) :=
  match sh !! i, sh !! j with
  | Some a, Some b => Some (<[j:=a]> (<[i:=b]> sh))
  | _, _ => None
  end.

(** [x.transpose(i, j)] *)
Definition transpose (x : Tensor) (i j : nat) : res Tensor :=
  match swap_dims (tshape x) i j with
  | Some sh => Ret (mkTensor sh (kernel "transpose" [Z.of_nat i; Z.of_nat j] [x]))
  | None => Raise IndexError
  end.

(** [x.flatten(k)] *)
Definition flatten (x : Tensor) (k : nat) : res Tensor :=
  if k <? length (tshape x)
  then Ret (mkTensor (take k (tshape x) ++ [numel (drop k (tshape x))]) (tdata x))
  else Raise IndexError.

(** [x.unsqueeze(0)] *)
Definition unsqueeze0 (x : Tensor) : Tensor :=
  mkTensor (1 :: tshape x) (tdata x).

(** [x.to(torch.float32)] *)
Definition to_float32 (x : Tensor) : Tensor :=
  mkTensor (tshape x) (kernel "to_float32" [] [x]).

(** *** Elementwise arithmetic with broadcasting *)

Fixpoint broadcast_rev (a b : list nat) : option (list nat) :=
  match a, b with
  | [], _ => Some b
  | _, [] => Some a
  | x :: a', y :: b' =>
      if x =? y then cons x <$> broadcast_rev a' b'
      else if x =? 1 then cons y <$> broadcast_rev a' b'
      else if y =? 1 then cons x <$> broadcast_rev a' b'
      else None
  end.

(** The shape of [x op y]: sizes are aligned on the right, and two sizes are
    compatible when they are equal or one of them is 1. *)
Definition broadcast (a b : list nat) : option (list nat) :=
  reverse <$> broadcast_rev (reverse a) (reverse b).

Definition binop (name : string) (x y : Tensor) : res Tensor :=
  match broadcast (tshape x) (tshape y) with
  | Some sh => Ret (mkTensor sh (kernel name [] [x; y]))
  | None => Raise RuntimeError
  end.

Definition add : Tensor -> Tensor -> res Tensor := binop "add".
Definition mul : Tensor -> Tensor -> res Tensor := binop "mul".

(** [x * s] for a Python or zero-dimensional scalar [s]. *)
Definition mul_scalar (x : Tensor) (s : R) : Tensor :=
  mkTensor (tshape x) (scale s (tdata x)).

Definition unary (name : string) (x : Tensor) : Tensor :=
  mkTensor (tshape x) (kernel name [] [x]).

(** [x.softmax(dim)] *)
Definition softmax (x : Tensor) (dim : nat) : res Tensor :=
  if dim <? length (tshape x)
  then Ret (mkTensor (tshape x) (kernel "softmax" [Z.of_nat dim] [x]))
  else Raise IndexError.

(** *** Fourier transforms over dimensions (1, 2) *)

(** [torch.fft.rfft2(x, dim=(1, 2), norm='ortho')] *)
Definition rfft2 (x : Tensor) : res Tensor :=
  match tshape x with
  | [B; a; b; C] =>
      if (a =? 0) || (b =? 0) then Raise RuntimeError
      else Ret (mkTensor [B; a; b / 2 + 1; C] (kernel "rfft2" [] [x]))
  | _ => Raise RuntimeError
  end.

(** [torch.fft.irfft2(x, s=(a, b), dim=(1, 2), norm='ortho')]: the input is
    trimmed or zero-padded to the requested signal size first. *)
Definition irfft2 (x : Tensor) (a b : nat) : res Tensor :=
  match tshape x with
  | [B; a'; b'; C] =>
      if (a =? 0) || (b =? 0) || (a' =? 0) || (b' =? 0) then Raise RuntimeError
      else Ret (mkTensor [B; a; b; C]
                  (kernel "irfft2" [Z.of_nat a; Z.of_nat b] [x]))
  | _ => Raise RuntimeError
  end.

(** *** Reductions, concatenation, products *)

(** [torch.mean(x, dim=1, keepdim=True)] *)
Definition mean_keep1 (x : Tensor) : res Tensor :=
  match tshape x with
  | B :: C :: rest => Ret (mkTensor (B :: 1 :: rest) (kernel "mean_keep1" [] [x]))
  | _ => Raise IndexError
  end.

(** [torch.max(x, dim=1, keepdim=True)[0]]: an empty dimension has no maximum. *)
Definition max_keep1 (x : Tensor) : res Tensor :=
  match tshape x with
  | B :: C :: rest =>
      if (C =? 0) && negb (numel (B :: rest) =? 0) then Raise IndexError
      else Ret (mkTensor (B :: 1 :: rest) (kernel "max_keep1" [] [x]))
  | _ => Raise IndexError
  end.

(** [x.mean(1)] *)
Definition mean1 (x : Tensor) : res Tensor :=
  match tshape x with
  | B :: N :: rest => Ret (mkTensor (B :: rest) (kernel "mean1" [] [x]))
  | _ => Raise IndexError
  end.

(** [torch.cat([x, y], dim=1)] *)
Definition cat1 (x y : Tensor) : res Tensor :=
  match tshape x, tshape y with
  | B :: C1 :: r1, B' :: C2 :: r2 =>
      if shape_eqb (B :: r1) (B' :: r2)
      then Ret (mkTensor (B :: (C1 + C2) :: r1) (kernel "cat1" [] [x; y]))
      else Raise RuntimeError
  | _, _ => Raise RuntimeError
  end.

(** [a, b = torch.chunk(x, chunks=2, dim=1)]: the first chunk takes
    [ceil(C / 2)] channels; with a single channel there is one chunk only and
    the unpacking fails. *)
Definition chunk2 (x : Tensor) : res (Tensor * Tensor) :=
  match tshape x with
  | B :: C :: rest =>
      if C <? 2 then Raise ValueError
      else
        let c1 := (C + 1) / 2 in
        Ret (mkTensor (B :: c1 :: rest) (kernel "chunk" [0%Z] [x]),
             mkTensor (B :: (C - c1) :: rest) (kernel "chunk" [1%Z] [x]))
  | _ => Raise IndexError
  end.

(** [x @ y] on two rank-4 operands with equal leading sizes. *)
Definition matmul (x y : Tensor) : res Tensor :=
  match tshape x, tshape y with
  | [B; h; n; d], [B'; h'; d'; m] =>
      if (B =? B') && (h =? h') && (d =? d')
      then Ret (mkTensor [B; h; n; m] (kernel "matmul" [] [x; y]))
      else Raise RuntimeError
  | _, _ => Raise RuntimeError
  end.

End Torch.

(** ** The model state and its monad *)

Section State.
Context `{Numerics}.

(** What a call can read and write: the payload of every parameter and buffer
    under its [state_dict] name, the [training] flag that [train()] and
    [eval()] set on every module, and torch's random generator. *)
Record St : Type := mkSt {
  store : gmap string D;
  training : bool;
  rng : Rng;
}.

(** A computation returns or raises, and leaves a state either way. *)
Definition M (A : Type) : Type := St -> res A * St.

Definition ret {A : Type} (a : A) : M A := fun s => (Ret a, s).

Definition raise {A : Type} (e : exn) : M A := fun s => (Raise e, s).

Definition bind {A B : Type} (m : M A) (f : A -> M B) : M B :=
  fun s =>
    match m s with
    | (Ret a, s') => f a s'
    | (Raise e, s') => (Raise e, s')
    end.

Definition lift {A : Type} (r : res A) : M A := fun s => (r, s).

Definition get_training : M bool := fun s => (Ret (training s), s).

(** A parameter or buffer as a tensor of the shape its module gave it.  A name
    that nothing has written yet still holds the constructor's value. *)
Definition param (name : string) (sh : list nat) : M Tensor :=
  fun s => (Ret (mkTensor sh (default (init_data name) (store s !! name))), s).

Definition set_buffer (name : string) (d : D) : M unit :=
  fun s => (Ret tt, mkSt (<[name := d]> (store s)) (training s) (rng s)).

(** A kernel that consumes randomness advances the generator. *)
Definition draw (name : string) (p : Q) (x : Tensor) : M Tensor :=
  fun s => (Ret (mkTensor (tshape x) (prim_rand name p (rng s) (tshape x) (tdata x))),
            mkSt (store s) (training s) (rng_next (rng s))).

End State.

Notation "x <- m ;; k" := (bind m (fun x => k))
  (at level 100, m at next level, right associativity, only parsing).
Notation "x <~ r ;; k" := (bind (lift r) (fun x => k))
  (at level 100, r at next level, right associativity, only parsing).

(** ** The torch.nn layers the source instantiates *)

Section Layers.
Context `{Numerics}.

Definition Qpos (q : Q) : bool := (0 <? Qnum q)%Z.

Definition Qin01 (q : Q) : bool :=
  (0 <=? Qnum q)%Z && (Qnum q <=? Z.pos (Qden q))%Z.

(** *** nn.Conv2d (square kernel, stride and padding) *)

Record Conv2d : Type := mkConv2d {
  c_in : nat; c_out : nat; c_kernel : nat; c_stride : nat; c_padding : nat;
  c_groups : nat; c_bias : bool;
}.

Definition Conv2d_init (cin cout k stride padding groups : nat) (bias : bool)
  : res Conv2d :=
  if groups =? 0 then Raise ValueError
  else if negb (cin mod groups =? 0) then Raise ValueError
  else if negb (cout mod groups =? 0) then Raise ValueError
  else Ret (mkConv2d cin cout k stride padding groups bias).

Definition Conv2d_params (pre : string) (c : Conv2d) : list (string * list nat) :=
  (pre +:+ "weight", [c_out c; c_in c / c_groups c; c_kernel c; c_kernel c])
  :: (if c_bias c then [(pre +:+ "bias", [c_out c])] else []).

(** The output length along one spatial axis; the padded input must hold the
    kernel. *)
Definition conv_out (c : Conv2d) (n : nat) : res nat :=
  if n + 2 * c_padding c <? c_kernel c then Raise RuntimeError
  else Ret ((n + 2 * c_padding c - c_kernel c) / c_stride c + 1).

Definition Conv2d_forward (pre : string) (c : Conv2d) (x : Tensor) : M Tensor :=
  match tshape x with
  | [B; C; Hh; W] =>
      if negb (C =? c_in c) then raise RuntimeError
      else
        Ho <~ conv_out c Hh ;;
        Wo <~ conv_out c W ;;
        let attrs := [Z.of_nat (c_stride c); Z.of_nat (c_padding c);
                      Z.of_nat (c_groups c)] in
        w <- param (pre +:+ "weight")
               [c_out c; c_in c / c_groups c; c_kernel c; c_kernel c] ;;
        if c_bias c then
          b <- param (pre +:+ "bias") [c_out c] ;;
          ret (mkTensor [B; c_out c; Ho; Wo] (kernel "conv2d" attrs [x; w; b]))
        else
          ret (mkTensor [B; c_out c; Ho; Wo] (kernel "conv2d" attrs [x; w]))
  | _ => raise RuntimeError
  end.

(** *** nn.Linear and nn.LayerNorm *)

Record Linear : Type := mkLinear { l_in : nat; l_out : nat }.

Definition Linear_params (pre : string) (l : Linear) : list (string * list nat) :=
  [(pre +:+ "weight", [l_out l; l_in l]); (pre +:+ "bias", [l_out l])].

Definition Linear_forward (pre : string) (l : Linear) (x : Tensor) : M Tensor :=
  match reverse (tshape x) with
  | last :: lead =>
      if negb (last =? l_in l) then raise RuntimeError
      else
        w <- param (pre +:+ "weight") [l_out l; l_in l] ;;
        b <- param (pre +:+ "bias") [l_out l] ;;
        ret (mkTensor (reverse (l_out l :: lead)) (kernel "linear" [] [x; w; b]))
  | [] => raise RuntimeError
  end.

Record LayerNorm : Type := mkLayerNorm { ln_dim : nat }.

Definition LayerNorm_params (pre : string) (l : LayerNorm)
  : list (string * list nat) :=
  [(pre +:+ "weight", [ln_dim l]); (pre +:+ "bias", [ln_dim l])].

Definition LayerNorm_forward (pre : string) (l : LayerNorm) (x : Tensor)
  : M Tensor :=
  match reverse (tshape x) with
  | last :: _ =>
      if negb (last =? ln_dim l) then raise RuntimeError
      else
        w <- param (pre +:+ "weight") [ln_dim l] ;;
        b <- param (pre +:+ "bias") [ln_dim l] ;;
        ret (mkTensor (tshape x) (kernel "layer_norm" [] [x; w; b]))
  | [] => raise RuntimeError
  end.

(** *** nn.BatchNorm2d *)

Record BatchNorm2d : Type := mkBatchNorm2d { bn_features : nat }.

Definition BatchNorm2d_params (pre : string) (b : BatchNorm2d)
  : list (string * list nat) :=
  [(pre +:+ "weight", [bn_features b]); (pre +:+ "bias", [bn_features b]);
   (pre +:+ "running_mean", [bn_features b]);
   (pre +:+ "running_var", [bn_features b]);
   (pre +:+ "num_batches_tracked", [])].

(** In training mode the layer counts the batch, refuses a batch with a single
    value per channel, normalises with the statistics of the batch and
    overwrites its running statistics; in evaluation mode it reads the stored
    statistics and writes nothing. *)
Definition BatchNorm2d_forward (pre : string) (b : BatchNorm2d) (x : Tensor)
  : M Tensor :=
  match tshape x with
  | [B; C; Hh; W] =>
      tr <- get_training ;;
      _ <- (if tr then
              nb <- param (pre +:+ "num_batches_tracked") [] ;;
              set_buffer (pre +:+ "num_batches_tracked")
                (kernel "add_one" [] [nb])
            else ret tt) ;;
      if tr && (B * Hh * W =? 1) then raise ValueError
      else if negb (C =? bn_features b) then raise RuntimeError
      else
        w <- param (pre +:+ "weight") [C] ;;
        bias <- param (pre +:+ "bias") [C] ;;
        rm <- param (pre +:+ "running_mean") [C] ;;
        rv <- param (pre +:+ "running_var") [C] ;;
        if tr then
          _ <- set_buffer (pre +:+ "running_mean")
                 (kernel "update_running_mean" [] [rm; x]) ;;
          _ <- set_buffer (pre +:+ "running_var")
                 (kernel "update_running_var" [] [rv; x]) ;;
          ret (mkTensor (tshape x) (kernel "batch_norm_train" [] [x; w; bias]))
        else
          ret (mkTensor (tshape x)
                 (kernel "batch_norm_eval" [] [x; w; bias; rm; rv]))
  | _ => raise ValueError
  end.

(** *** Pooling *)

(** [nn.AvgPool2d(kernel_size=k, stride=k, padding=0)] *)
Definition AvgPool2d_forward (k : nat) (x : Tensor) : res Tensor :=
  match tshape x with
  | [B; C; Hh; W] =>
      if (k =? 0) || (Hh <? k) || (W <? k) then Raise RuntimeError
      else Ret (mkTensor [B; C; (Hh - k) / k + 1; (W - k) / k + 1]
                  (kernel "avg_pool2d" [Z.of_nat k] [x]))
  | _ => Raise RuntimeError
  end.

(** [nn.AdaptiveAvgPool2d(1)] *)
Definition AdaptiveAvgPool2d1_forward (x : Tensor) : res Tensor :=
  match tshape x with
  | [B; C; Hh; W] =>
      if (C =? 0) || (Hh =? 0) || (W =? 0) then Raise RuntimeError
      else Ret (mkTensor [B; C; 1; 1] (kernel "adaptive_avg_pool2d" [1%Z] [x]))
  | _ => Raise RuntimeError
  end.

(** *** nn.Dropout and timm's DropPath *)

Record Dropout : Type := mkDropout { d_p : Q }.

Definition Dropout_init (p : Q) : res Dropout :=
  if Qin01 p then Ret (mkDropout p) else Raise ValueError.

(** Dropout is the identity unless the module is in training mode with a
    positive rate. *)
Definition Dropout_forward (d : Dropout) (x : Tensor) : M Tensor :=
  tr <- get_training ;;
  if tr && Qpos (d_p d) then draw "dropout" (d_p d) x else ret x.

(** [DropPath(p) if p > 0. else nn.Identity()], the idiom of both block
    classes; DropPath itself returns its input when not training. *)
Definition drop_path_forward (p : Q) (x : Tensor) : M Tensor :=
  if Qpos p then
    tr <- get_training ;;
    if tr then draw "drop_path" p x else ret x
  else ret x.

End Layers.

(** ** bryoFormer.py *)

Section BryoFormerModules.
Context `{Numerics}.

(** [int(math.sqrt(N))] *)
Definition isqrt (N : nat) : nat := Nat.sqrt N.

(** [torch.view_as_complex]: the trailing size-2 axis becomes the real and
    imaginary part. *)
Definition view_as_complex (x : Tensor) : res Tensor :=
  match reverse (tshape x) with
  | 2 :: lead => Ret (mkTensor (reverse lead) (tdata x))
  | _ => Raise RuntimeError
  end.

(** *** SpectralGatingNetwork *)

Record SpectralGatingNetwork : Type := mkSpectralGatingNetwork {
  sgn_dim : nat; sgn_h : nat; sgn_w : nat;
}.

Definition SpectralGatingNetwork_params (pre : string) (m : SpectralGatingNetwork)
  : list (string * list nat) :=
  [(pre +:+ "complex_weight", [sgn_h m; sgn_w m; sgn_dim m; 2])].

Definition SpectralGatingNetwork_forward (pre : string)
    (m : SpectralGatingNetwork) (x : Tensor) (spatial_size : option (nat * nat))
  : M Tensor :=
  match tshape x with
  | [B; N; C] =>
      let '(a, b) :=
        match spatial_size with
        | None => (isqrt N, isqrt N)
        | Some ab => ab
        end in
      x <~ view x [B; a; b; C] ;;
      let x := to_float32 x in
      x <~ rfft2 x ;;
      cw <- param (pre +:+ "complex_weight") [sgn_h m; sgn_w m; sgn_dim m; 2] ;;
      weight <~ view_as_complex cw ;;
      x <~ mul x weight ;;
      x <~ irfft2 x a b ;;
      lift (reshape x [B; N; C])
  | _ => raise ValueError
  end.

(** *** ChannelAttention, SpatialAttention, FeatureFusion, AttentionModule *)

Record ChannelAttention : Type := mkChannelAttention {
  ca_conv_reduce : Conv2d; ca_conv_expand : Conv2d;
}.

Definition ChannelAttention_init (in_channels reduction : nat)
  : res ChannelAttention :=
  r <- floordiv in_channels reduction ;;;
  conv_reduce <- Conv2d_init in_channels r 1 1 0 r true ;;;
  conv_expand <- Conv2d_init r in_channels 1 1 0 1 true ;;;
  Ret (mkChannelAttention conv_reduce conv_expand).

Definition ChannelAttention_params (pre : string) (m : ChannelAttention)
  : list (string * list nat) :=
  Conv2d_params (pre +:+ "conv_reduce.") (ca_conv_reduce m)
  ++ Conv2d_params (pre +:+ "conv_expand.") (ca_conv_expand m).

Definition ChannelAttention_forward (pre : string) (m : ChannelAttention)
    (x : Tensor) : M Tensor :=
  y <~ AdaptiveAvgPool2d1_forward x ;;
  y <- Conv2d_forward (pre +:+ "conv_reduce.") (ca_conv_reduce m) y ;;
  let y := unary "relu" y in
  y <- Conv2d_forward (pre +:+ "conv_expand.") (ca_conv_expand m) y ;;
  lift (mul x (unary "sigmoid" y)).

Record SpatialAttention : Type := mkSpatialAttention {
  sa_dw_conv : Conv2d; sa_bn : BatchNorm2d; sa_conv_att : Conv2d;
}.

Definition SpatialAttention_init (in_channels kernel_size : nat)
  : res SpatialAttention :=
  dw_conv <- Conv2d_init in_channels in_channels kernel_size 1
               (kernel_size / 2) in_channels true ;;;
  conv_att <- Conv2d_init 2 1 3 1 1 1 false ;;;
  Ret (mkSpatialAttention dw_conv (mkBatchNorm2d in_channels) conv_att).

Definition SpatialAttention_params (pre : string) (m : SpatialAttention)
  : list (string * list nat) :=
  Conv2d_params (pre +:+ "dw_conv.") (sa_dw_conv m)
  ++ BatchNorm2d_params (pre +:+ "bn.") (sa_bn m)
  ++ Conv2d_params (pre +:+ "conv_att.") (sa_conv_att m).

Definition SpatialAttention_forward (pre : string) (m : SpatialAttention)
    (x : Tensor) : M Tensor :=
  x <- Conv2d_forward (pre +:+ "dw_conv.") (sa_dw_conv m) x ;;
  x <- BatchNorm2d_forward (pre +:+ "bn.") (sa_bn m) x ;;
  avg_out <~ mean_keep1 x ;;
  max_out <~ max_keep1 x ;;
  c <~ cat1 avg_out max_out ;;
  att <- Conv2d_forward (pre +:+ "conv_att.") (sa_conv_att m) c ;;
  lift (mul x (unary "sigmoid" att)).

Record FeatureFusion : Type := mkFeatureFusion {
  ff_conv : Conv2d; ff_bn : BatchNorm2d;
}.

Definition FeatureFusion_init (in_channels : nat) : res FeatureFusion :=
  conv <- Conv2d_init (2 * in_channels) in_channels 1 1 0 1 true ;;;
  Ret (mkFeatureFusion conv (mkBatchNorm2d in_channels)).

Definition FeatureFusion_params (pre : string) (m : FeatureFusion)
  : list (string * list nat) :=
  Conv2d_params (pre +:+ "conv_fusion.0.") (ff_conv m)
  ++ BatchNorm2d_params (pre +:+ "conv_fusion.1.") (ff_bn m).

Definition FeatureFusion_forward (pre : string) (m : FeatureFusion)
    (x channel_feat spatial_feat : Tensor) : M Tensor :=
  fused <~ cat1 channel_feat spatial_feat ;;
  y <- Conv2d_forward (pre +:+ "conv_fusion.0.") (ff_conv m) fused ;;
  y <- BatchNorm2d_forward (pre +:+ "conv_fusion.1.") (ff_bn m) y ;;
  ret (unary "relu" y).

Record AttentionModule : Type := mkAttentionModule {
  am_channel_att : ChannelAttention;
  am_spatial_att : SpatialAttention;
  am_fusion : FeatureFusion;
}.

Definition AttentionModule_init (in_channels channel_reduction spatial_ksize : nat)
  : res AttentionModule :=
  channel_att <- ChannelAttention_init in_channels channel_reduction ;;;
  spatial_att <- SpatialAttention_init in_channels spatial_ksize ;;;
  fusion <- FeatureFusion_init in_channels ;;;
  Ret (mkAttentionModule channel_att spatial_att fusion).

Definition AttentionModule_params (pre : string) (m : AttentionModule)
  : list (string * list nat) :=
  ChannelAttention_params (pre +:+ "channel_att.") (am_channel_att m)
  ++ SpatialAttention_params (pre +:+ "spatial_att.") (am_spatial_att m)
  ++ FeatureFusion_params (pre +:+ "fusion.") (am_fusion m).

Definition AttentionModule_forward (pre : string) (m : AttentionModule)
    (x : Tensor) : M Tensor :=
  channel_out <- ChannelAttention_forward (pre +:+ "channel_att.")
                   (am_channel_att m) x ;;
  spatial_out <- SpatialAttention_forward (pre +:+ "spatial_att.")
                   (am_spatial_att m) x ;;
  FeatureFusion_forward (pre +:+ "fusion.") (am_fusion m) x channel_out spatial_out.

End BryoFormerModules.

Section BryoFormerBlocks.
Context `{Numerics}.

(** The logistic function on the reals. *)
Definition sigmoid (x : R) : R := (/ (1 + exp (- x)))%R.

(** [a or b] where [a] is [None] or an integer. *)
Definition py_or (a : option nat) (b : nat) : nat :=
  match a with
  | Some (S n) => S n
  | _ => b
  end.

(** *** FreqTimeBridge *)

Record FreqTimeBridge : Type := mkFreqTimeBridge {
  ftb_spectral : SpectralGatingNetwork;
  ftb_norm : LayerNorm;
  ftb_attn_module : AttentionModule;
  ftb_proj : Linear;
}.

Definition FreqTimeBridge_init (dim h w : nat) : res FreqTimeBridge :=
  attn_module <- AttentionModule_init dim 4 3 ;;;
  Ret (mkFreqTimeBridge (mkSpectralGatingNetwork dim h w) (mkLayerNorm dim)
         attn_module (mkLinear dim dim)).

Definition FreqTimeBridge_params (pre : string) (m : FreqTimeBridge)
  : list (string * list nat) :=
  (pre +:+ "alpha", [])
  :: SpectralGatingNetwork_params (pre +:+ "spectral.") (ftb_spectral m)
  ++ LayerNorm_params (pre +:+ "norm.") (ftb_norm m)
  ++ AttentionModule_params (pre +:+ "attn_module.") (ftb_attn_module m)
  ++ Linear_params (pre +:+ "proj.") (ftb_proj m).

(** [self.alpha.sigmoid()] as a real number. *)
Definition alpha_sigmoid (alpha : Tensor) : R :=
  sigmoid (F_real (elem (tdata alpha) 0)).

Definition FreqTimeBridge_forward (pre : string) (m : FreqTimeBridge)
    (x : Tensor) : M Tensor :=
  match tshape x with
  | [B; N; C] =>
      let Hh := isqrt N in
      let W := Hh in
      x_norm <- LayerNorm_forward (pre +:+ "norm.") (ftb_norm m) x ;;
      x_freq <- SpectralGatingNetwork_forward (pre +:+ "spectral.")
                  (ftb_spectral m) x_norm None ;;
      t <~ transpose x_freq 1 2 ;;
      x_2d <~ view t [B; C; Hh; W] ;;
      x_attn <- AttentionModule_forward (pre +:+ "attn_module.")
                  (ftb_attn_module m) x_2d ;;
      f <~ flatten x_attn 2 ;;
      x_fused <~ transpose f 1 2 ;;
      p <- Linear_forward (pre +:+ "proj.") (ftb_proj m) x_fused ;;
      alpha <- param (pre +:+ "alpha") [] ;;
      lift (add x (mul_scalar p (alpha_sigmoid alpha)))
  | _ => raise ValueError
  end.

(** *** Mlp *)

Record Mlp : Type := mkMlp { mlp_fc1 : Linear; mlp_fc2 : Linear; mlp_drop : Dropout }.

(** [hidden_features] arrives as a Python integer; a negative width makes
    [nn.Linear] fail. *)
Definition Mlp_init (in_features : nat) (hidden_features : option Z)
    (out_features : option nat) (drop : Q) : res Mlp :=
  let out_features := py_or out_features in_features in
  match hidden_features with
  | Some (Z.neg _) => Raise RuntimeError
  | _ =>
      let hidden := py_or (Z.to_nat <$> hidden_features) in_features in
      d <- Dropout_init drop ;;;
      Ret (mkMlp (mkLinear in_features hidden) (mkLinear hidden out_features) d)
  end.

Definition Mlp_params (pre : string) (m : Mlp) : list (string * list nat) :=
  Linear_params (pre +:+ "fc1.") (mlp_fc1 m)
  ++ Linear_params (pre +:+ "fc2.") (mlp_fc2 m).

Definition Mlp_forward (pre : string) (m : Mlp) (x : Tensor) : M Tensor :=
  x <- Linear_forward (pre +:+ "fc1.") (mlp_fc1 m) x ;;
  let x := unary "gelu" x in
  x <- Dropout_forward (mlp_drop m) x ;;
  x <- Linear_forward (pre +:+ "fc2.") (mlp_fc2 m) x ;;
  Dropout_forward (mlp_drop m) x.

(** [int(dim * mlp_ratio)]: truncation toward zero. *)
Definition mlp_hidden_dim (dim : nat) (mlp_ratio : Q) : Z :=
  (Z.of_nat dim * Qnum mlp_ratio ÷ Z.pos (Qden mlp_ratio))%Z.

(** *** Block: spectral gating followed by the feed-forward *)

Record Block : Type := mkBlock {
  b_norm1 : LayerNorm;
  b_filter : SpectralGatingNetwork;
  b_drop_path : Q;
  b_norm2 : LayerNorm;
  b_mlp : Mlp;
}.

Definition Block_init (dim : nat) (mlp_ratio drop drop_path : Q) (h w : nat)
  : res Block :=
  mlp <- Mlp_init dim (Some (mlp_hidden_dim dim mlp_ratio)) None drop ;;;
  Ret (mkBlock (mkLayerNorm dim) (mkSpectralGatingNetwork dim h w) drop_path
         (mkLayerNorm dim) mlp).

Definition Block_params (pre : string) (m : Block) : list (string * list nat) :=
  LayerNorm_params (pre +:+ "norm1.") (b_norm1 m)
  ++ SpectralGatingNetwork_params (pre +:+ "filter.") (b_filter m)
  ++ LayerNorm_params (pre +:+ "norm2.") (b_norm2 m)
  ++ Mlp_params (pre +:+ "mlp.") (b_mlp m).

Definition Block_forward (pre : string) (m : Block) (x : Tensor) : M Tensor :=
  y <- LayerNorm_forward (pre +:+ "norm1.") (b_norm1 m) x ;;
  y <- SpectralGatingNetwork_forward (pre +:+ "filter.") (b_filter m) y None ;;
  y <- LayerNorm_forward (pre +:+ "norm2.") (b_norm2 m) y ;;
  y <- Mlp_forward (pre +:+ "mlp.") (b_mlp m) y ;;
  y <- drop_path_forward (b_drop_path m) y ;;
  lift (add x y).

(** *** OSRAttention *)

Record SrSequential : Type := mkSrSequential {
  sr_pool : nat; sr_conv1 : Conv2d; sr_bn1 : BatchNorm2d;
  sr_conv2 : Conv2d; sr_bn2 : BatchNorm2d;
}.

Record OSRAttention : Type := mkOSRAttention {
  osr_dim : nat;
  osr_num_heads : nat;
  (** [self.scale]: the given [qk_scale], else [head_dim ** -0.5] *)
  osr_scale : Q + nat;
  osr_q : Conv2d;
  osr_kv : Conv2d;
  osr_attn_drop : Dropout;
  (** [None] stands for [nn.Identity()] *)
  osr_sr : option SrSequential;
  osr_local_conv : Conv2d;
}.

Definition OSRAttention_init (dim num_heads : nat) (qk_scale : option Q)
    (attn_drop : Q) (sr_ratio : nat) : res OSRAttention :=
  _ <- (if num_heads =? 0 then Raise ZeroDivisionError else Ret tt) ;;;
  _ <- py_assert (dim mod num_heads =? 0) ;;;
  let head_dim := dim / num_heads in
  scale <- match qk_scale with
           | Some q => if Qeq_bool q 0
                       then (if head_dim =? 0 then Raise ZeroDivisionError
                             else Ret (inr head_dim))
                       else Ret (inl q)
           | None => if head_dim =? 0 then Raise ZeroDivisionError
                     else Ret (inr head_dim)
           end ;;;
  q <- Conv2d_init dim dim 1 1 0 1 true ;;;
  kv <- Conv2d_init dim (dim * 2) 1 1 0 1 true ;;;
  drop <- Dropout_init attn_drop ;;;
  sr <- (if 1 <? sr_ratio then
           conv1 <- Conv2d_init dim dim 3 1 1 dim false ;;;
           conv2 <- Conv2d_init dim dim 1 1 0 dim false ;;;
           Ret (Some (mkSrSequential sr_ratio conv1 (mkBatchNorm2d dim)
                        conv2 (mkBatchNorm2d dim)))
         else Ret None) ;;;
  local_conv <- Conv2d_init dim dim 3 1 1 dim true ;;;
  Ret (mkOSRAttention dim num_heads scale q kv drop sr local_conv).

Definition OSRAttention_params (pre : string) (m : OSRAttention)
  : list (string * list nat) :=
  Conv2d_params (pre +:+ "q.") (osr_q m)
  ++ Conv2d_params (pre +:+ "kv.") (osr_kv m)
  ++ match osr_sr m with
     | Some s =>
         Conv2d_params (pre +:+ "sr.1.") (sr_conv1 s)
         ++ BatchNorm2d_params (pre +:+ "sr.2.") (sr_bn1 s)
         ++ Conv2d_params (pre +:+ "sr.4.") (sr_conv2 s)
         ++ BatchNorm2d_params (pre +:+ "sr.5.") (sr_bn2 s)
     | None => []
     end
  ++ Conv2d_params (pre +:+ "local_conv.") (osr_local_conv m).

Definition sr_forward (pre : string) (sr : option SrSequential) (x : Tensor)
  : M Tensor :=
  match sr with
  | Some s =>
      y <~ AvgPool2d_forward (sr_pool s) x ;;
      y <- Conv2d_forward (pre +:+ "1.") (sr_conv1 s) y ;;
      y <- BatchNorm2d_forward (pre +:+ "2.") (sr_bn1 s) y ;;
      let y := unary "relu" y in
      y <- Conv2d_forward (pre +:+ "4.") (sr_conv2 s) y ;;
      BatchNorm2d_forward (pre +:+ "5.") (sr_bn2 s) y
  | None => ret x
  end.

(** [attn * self.scale] *)
Definition mul_scale (scale : Q + nat) (x : Tensor) : Tensor :=
  match scale with
  | inl q => mkTensor (tshape x)
               (kernel "mul_const" [Qnum q; Z.pos (Qden q)] [x])
  | inr head_dim => mkTensor (tshape x)
                      (kernel "mul_rsqrt" [Z.of_nat head_dim] [x])
  end.

(** [F.interpolate(x, size=size, mode='bicubic', align_corners=False)] *)
Definition interpolate_bicubic (x : Tensor) (size : list nat) : res Tensor :=
  match tshape x, size with
  | [B; C; Hh; W], [Ho; Wo] =>
      if (Hh =? 0) || (W =? 0) || (Ho =? 0) || (Wo =? 0) then Raise RuntimeError
      else Ret (mkTensor [B; C; Ho; Wo]
                  (kernel "interpolate_bicubic" [Z.of_nat Ho; Z.of_nat Wo] [x]))
  | _, _ => Raise ValueError
  end.

Definition OSRAttention_forward (pre : string) (m : OSRAttention) (x : Tensor)
    (relative_pos_enc : option Tensor) : M Tensor :=
  match tshape x with
  | [B; C; Hh; W] =>
      let heads := osr_num_heads m in
      q <- Conv2d_forward (pre +:+ "q.") (osr_q m) x ;;
      q <~ reshape_infer q [B; heads; C / heads] ;;
      q <~ transpose q 3 2 ;;
      kv <- sr_forward (pre +:+ "sr.") (osr_sr m) x ;;
      lc <- Conv2d_forward (pre +:+ "local_conv.") (osr_local_conv m) kv ;;
      kv <~ add lc kv ;;
      kvp <- Conv2d_forward (pre +:+ "kv.") (osr_kv m) kv ;;
      kc <~ chunk2 kvp ;;
      k <~ reshape_infer (fst kc) [B; heads; C / heads] ;;
      v <~ reshape_infer (snd kc) [B; heads; C / heads] ;;
      v <~ transpose v 3 2 ;;
      attn <~ matmul q k ;;
      let attn := mul_scale (osr_scale m) attn in
      attn <~ match relative_pos_enc with
              | Some rpe =>
                  rpe <- (if shape_eqb (drop 2 (tshape attn)) (drop 2 (tshape rpe))
                          then Ret rpe
                          else interpolate_bicubic rpe (drop 2 (tshape attn))) ;;;
                  add attn rpe
              | None => Ret attn
              end ;;
      attn <~ softmax attn 3 ;;
      attn <- Dropout_forward (osr_attn_drop m) attn ;;
      o <~ matmul attn v ;;
      o <~ transpose o 3 2 ;;
      lift (reshape o [B; C; Hh; W])
  | _ => raise ValueError
  end.

(** *** Block_attention: the reduced-attention block *)

Record Block_attention : Type := mkBlock_attention {
  ba_norm1 : LayerNorm;
  ba_drop_path : Q;
  ba_norm2 : LayerNorm;
  ba_mlp : Mlp;
  ba_attn : OSRAttention;
}.

Definition Block_attention_init (dim : nat) (mlp_ratio drop drop_path : Q)
    (h w : nat) : res Block_attention :=
  mlp <- Mlp_init dim (Some (mlp_hidden_dim dim mlp_ratio)) None drop ;;;
  attn <- OSRAttention_init dim 6 None drop 2 ;;;
  Ret (mkBlock_attention (mkLayerNorm dim) drop_path (mkLayerNorm dim) mlp attn).

Definition Block_attention_params (pre : string) (m : Block_attention)
  : list (string * list nat) :=
  LayerNorm_params (pre +:+ "norm1.") (ba_norm1 m)
  ++ LayerNorm_params (pre +:+ "norm2.") (ba_norm2 m)
  ++ Mlp_params (pre +:+ "mlp.") (ba_mlp m)
  ++ OSRAttention_params (pre +:+ "attn.") (ba_attn m).

Definition Block_attention_forward (pre : string) (m : Block_attention)
    (x : Tensor) : M Tensor :=
  match tshape x with
  | [B; N; C] =>
      let Hh := isqrt N in
      let W := Hh in
      t <~ transpose x 1 2 ;;
      x_2d <~ view t [B; C; Hh; W] ;;
      a <- OSRAttention_forward (pre +:+ "attn.") (ba_attn m) x_2d None ;;
      a <~ view a [B; C; N] ;;
      attn_out <~ transpose a 1 2 ;;
      d <- drop_path_forward (ba_drop_path m) attn_out ;;
      x <~ add x d ;;
      y <- LayerNorm_forward (pre +:+ "norm2.") (ba_norm2 m) x ;;
      y <- Mlp_forward (pre +:+ "mlp.") (ba_mlp m) y ;;
      y <- drop_path_forward (ba_drop_path m) y ;;
      lift (add x y)
  | _ => raise ValueError
  end.

End BryoFormerBlocks.

Section BryoFormerModel.
Context `{Numerics}.

(** *** PatchEmbed *)

(** An argument that is an [int] or already a pair. *)
Inductive int_or_pair : Type :=
  | Int (n : nat)
  | Pair (a b : nat).

Definition to_2tuple (x : int_or_pair) : nat * nat :=
  match x with
  | Int n => (n, n)
  | Pair a b => (a, b)
  end.

Record PatchEmbed : Type := mkPatchEmbed {
  pe_img_size : nat * nat;
  pe_patch_size : nat * nat;
  pe_num_patches : nat;
  pe_stage1 : Conv2d;
  pe_stage2_0 : Conv2d;
  pe_stage2_1 : Conv2d;
}.

Definition PatchEmbed_init (img_size patch_size : int_or_pair)
    (in_chans embed_dim : nat) : res PatchEmbed :=
  let img_size := to_2tuple img_size in
  let patch_size := to_2tuple patch_size in
  n1 <- floordiv (snd img_size) (snd patch_size) ;;;
  n0 <- floordiv (fst img_size) (fst patch_size) ;;;
  let num_patches := n1 * n0 in
  stage1 <- Conv2d_init in_chans (embed_dim / 8) 3 2 1 1 true ;;;
  stage2_0 <- Conv2d_init (embed_dim / 8) (embed_dim / 8) 8 8 0 (embed_dim / 8)
                true ;;;
  stage2_1 <- Conv2d_init (embed_dim / 8) embed_dim 1 1 0 1 true ;;;
  Ret (mkPatchEmbed img_size patch_size num_patches stage1 stage2_0 stage2_1).

Definition PatchEmbed_params (pre : string) (m : PatchEmbed)
  : list (string * list nat) :=
  Conv2d_params (pre +:+ "stage1.0.") (pe_stage1 m)
  ++ Conv2d_params (pre +:+ "stage2.0.") (pe_stage2_0 m)
  ++ Conv2d_params (pre +:+ "stage2.1.") (pe_stage2_1 m).

Definition PatchEmbed_forward (pre : string) (m : PatchEmbed) (x : Tensor)
  : M Tensor :=
  match tshape x with
  | [B; C; Hh; W] =>
      _ <~ py_assert ((Hh =? fst (pe_img_size m)) && (W =? snd (pe_img_size m))) ;;
      x <- Conv2d_forward (pre +:+ "stage1.0.") (pe_stage1 m) x ;;
      let x := unary "gelu" x in
      x <- Conv2d_forward (pre +:+ "stage2.0.") (pe_stage2_0 m) x ;;
      x <- Conv2d_forward (pre +:+ "stage2.1.") (pe_stage2_1 m) x ;;
      x <~ flatten x 2 ;;
      lift (transpose x 1 2)
  | _ => raise ValueError
  end.

(** *** BryoFormer *)

Inductive block : Type :=
  | SpectralBlock (b : Block)
  | BridgeBlock (b : FreqTimeBridge)
  | AttentionBlock (b : Block_attention).

Definition block_params (pre : string) (b : block) : list (string * list nat) :=
  match b with
  | SpectralBlock m => Block_params pre m
  | BridgeBlock m => FreqTimeBridge_params pre m
  | AttentionBlock m => Block_attention_params pre m
  end.

Definition block_forward (pre : string) (b : block) (x : Tensor) : M Tensor :=
  match b with
  | SpectralBlock m => Block_forward pre m x
  | BridgeBlock m => FreqTimeBridge_forward pre m x
  | AttentionBlock m => Block_attention_forward pre m x
  end.

Record BryoFormer : Type := mkBryoFormer {
  bf_num_classes : nat;
  bf_embed_dim : nat;
  bf_patch_embed : PatchEmbed;
  bf_pos_drop : Dropout;
  bf_blocks : list block;
  bf_norm : LayerNorm;
  (** [None] stands for [nn.Identity()] in the next three *)
  bf_pre_logits : option Linear;
  bf_head : option Linear;
  bf_final_dropout : option Dropout;
}.

(** [torch.linspace(0, stop, steps)], in exact arithmetic. *)
Definition linspace0 (stop : Q) (steps : nat) : list Q :=
  (fun i => if steps <=? 1 then 0%Q
            else (inject_Z (Z.of_nat i) * stop / inject_Z (Z.of_nat (steps - 1)))%Q)
  <$> seq 0 steps.

Definition drop_path_rates (uniform_drop : bool) (drop_path_rate : Q)
    (depth : nat) : list Q :=
  if uniform_drop then replicate depth drop_path_rate
  else linspace0 drop_path_rate depth.

(** A list comprehension whose element constructor can raise. *)
Fixpoint for_each {A B : Type} (f : A -> res B) (l : list A) : res (list B) :=
  match l with
  | [] => Ret []
  | a :: l' =>
      b <- f a ;;;
      bs <- for_each f l' ;;;
      Ret (b :: bs)
  end.

Definition BryoFormer_init (img_size patch_size in_chans num_classes embed_dim
    depth : nat) (mlp_ratio : Q) (representation_size : option nat)
    (uniform_drop : bool) (drop_rate drop_path_rate dropcls : Q)
  : res BryoFormer :=
  patch_embed <- PatchEmbed_init (Int img_size) (Int patch_size) in_chans
                   embed_dim ;;;
  pos_drop <- Dropout_init drop_rate ;;;
  h <- floordiv img_size patch_size ;;;
  let w := h / 2 + 1 in
  let dpr := drop_path_rates uniform_drop drop_path_rate depth in
  blocks1 <- for_each (fun i =>
               d <- index dpr i ;;;
               b <- Block_init embed_dim mlp_ratio drop_rate d h w ;;;
               Ret (SpectralBlock b)) (seq 0 4) ;;;
  bridge <- FreqTimeBridge_init embed_dim h w ;;;
  blocks3 <- for_each (fun i =>
               d <- index dpr i ;;;
               b <- Block_attention_init embed_dim mlp_ratio drop_rate d h w ;;;
               Ret (AttentionBlock b)) (seq 5 (depth - 5)) ;;;
  let pre_logits :=
    match representation_size with
    | Some (S n) => Some (mkLinear embed_dim (S n))
    | _ => None
    end in
  let head := if 0 <? num_classes then Some (mkLinear embed_dim num_classes)
              else None in
  final_dropout <- (if Qpos dropcls then d <- Dropout_init dropcls ;;; Ret (Some d)
                    else Ret None) ;;;
  Ret (mkBryoFormer num_classes embed_dim patch_embed pos_drop
         (blocks1 ++ [BridgeBlock bridge] ++ blocks3)
         (mkLayerNorm embed_dim) pre_logits head final_dropout).

(** The module path of block [i]: ["blocks.i."]. *)
Definition block_path (pre : string) (i : nat) : string :=
  pre +:+ "blocks." +:+ pretty i +:+ ".".

(** The entries of [state_dict()], in order, with their shapes. *)
Definition BryoFormer_params (pre : string) (m : BryoFormer)
  : list (string * list nat) :=
  (pre +:+ "pos_embed", [1; pe_num_patches (bf_patch_embed m); bf_embed_dim m])
  :: PatchEmbed_params (pre +:+ "patch_embed.") (bf_patch_embed m)
  ++ mjoin (imap (fun i b => block_params (block_path pre i) b) (bf_blocks m))
  ++ LayerNorm_params (pre +:+ "norm.") (bf_norm m)
  ++ match bf_pre_logits m with
     | Some l => Linear_params (pre +:+ "pre_logits.fc.") l
     | None => []
     end
  ++ match bf_head m with
     | Some l => Linear_params (pre +:+ "head.") l
     | None => []
     end.

(** [for blk in self.blocks: x = blk(x)], block [i] first. *)
Fixpoint blocks_forward (pre : string) (i : nat) (bs : list block) (x : Tensor)
  : M Tensor :=
  match bs with
  | [] => ret x
  | b :: bs' =>
      x <- block_forward (block_path pre i) b x ;;
      blocks_forward pre (S i) bs' x
  end.

Definition BryoFormer_forward_features (pre : string) (m : BryoFormer)
    (x : Tensor) : M Tensor :=
  match tshape x with
  | B :: _ =>
      x <- PatchEmbed_forward (pre +:+ "patch_embed.") (bf_patch_embed m) x ;;
      pos_embed <- param (pre +:+ "pos_embed")
                     [1; pe_num_patches (bf_patch_embed m); bf_embed_dim m] ;;
      x <~ add x pos_embed ;;
      x <- Dropout_forward (bf_pos_drop m) x ;;
      x <- blocks_forward pre 0 (bf_blocks m) x ;;
      x <- LayerNorm_forward (pre +:+ "norm.") (bf_norm m) x ;;
      lift (mean1 x)
  | [] => raise IndexError
  end.

Definition BryoFormer_forward (pre : string) (m : BryoFormer) (x : Tensor)
  : M Tensor :=
  x <- BryoFormer_forward_features pre m x ;;
  x <- match bf_final_dropout m with
       | Some d => Dropout_forward d x
       | None => ret x
       end ;;
  match bf_head m with
  | Some l => Linear_forward (pre +:+ "head.") l x
  | None => ret x
  end.

(** *** The variants BryoFormerV2, V3 and V4

    Each builds a base [BryoFormer] and then replaces its block list. *)

Definition with_blocks (m : BryoFormer) (bs : list block) : BryoFormer :=
  mkBryoFormer (bf_num_classes m) (bf_embed_dim m) (bf_patch_embed m)
    (bf_pos_drop m) bs (bf_norm m) (bf_pre_logits m) (bf_head m)
    (bf_final_dropout m).

Section Variants.
Variables (img_size patch_size in_chans num_classes embed_dim depth : nat).
Variables (mlp_ratio : Q) (representation_size : option nat).
Variables (uniform_drop : bool) (drop_rate drop_path_rate dropcls : Q).

Let base : res BryoFormer :=
  BryoFormer_init img_size patch_size in_chans num_classes embed_dim depth
    mlp_ratio representation_size uniform_drop drop_rate drop_path_rate dropcls.

Let dpr : list Q := drop_path_rates uniform_drop drop_path_rate depth.

(** [Block(..., drop_path=dpr[i + off]) for i in range(n)] *)
Definition spectral_run (h w off n : nat) : res (list block) :=
  for_each (fun i =>
    d <- index dpr (i + off) ;;;
    b <- Block_init embed_dim mlp_ratio drop_rate d h w ;;;
    Ret (SpectralBlock b)) (seq 0 n).

(** [FreqTimeBridge(...) for _ in range(n)] *)
Definition bridge_run (h w n : nat) : res (list block) :=
  for_each (fun _ =>
    b <- FreqTimeBridge_init embed_dim h w ;;;
    Ret (BridgeBlock b)) (seq 0 n).

(** [Block_attention(..., drop_path=dpr[i + off]) for i in range(n)] *)
Definition attention_run (h w off n : nat) : res (list block) :=
  for_each (fun i =>
    d <- index dpr (i + off) ;;;
    b <- Block_attention_init embed_dim mlp_ratio drop_rate d h w ;;;
    Ret (AttentionBlock b)) (seq 0 n).

Definition BryoFormerV2_init : res BryoFormer :=
  base_model <- base ;;;
  h <- floordiv img_size patch_size ;;;
  let w := h / 2 + 1 in
  p1 <- spectral_run h w 0 3 ;;;
  p2 <- bridge_run h w 1 ;;;
  p3 <- attention_run h w 4 4 ;;;
  Ret (with_blocks base_model (p1 ++ p2 ++ p3)).

Definition BryoFormerV3_init : res BryoFormer :=
  base_model <- base ;;;
  h <- floordiv img_size patch_size ;;;
  let w := h / 2 + 1 in
  p1 <- spectral_run h w 0 2 ;;;
  p2 <- bridge_run h w 2 ;;;
  p3 <- attention_run h w 4 8 ;;;
  Ret (with_blocks base_model (p1 ++ p2 ++ p3)).

Definition BryoFormerV4_init : res BryoFormer :=
  base_model <- base ;;;
  h <- floordiv img_size patch_size ;;;
  let w := h / 2 + 1 in
  p1 <- spectral_run h w 0 3 ;;;
  p3 <- attention_run h w 3 9 ;;;
  Ret (with_blocks base_model (p1 ++ p3)).

End Variants.

End BryoFormerModel.

(** ** plant_model.py *)

Section PlantModel.
Context `{Numerics}.

(** *** Python values that cross the boundary *)

(** A dictionary key: a string, or some other hashable value. *)
Inductive pykey : Type :=
  | KStr (s : string)
  | KInt (z : Z).

#[global] Instance pykey_eq_dec : EqDecision pykey.
Proof. solve_decision. Defined.

(** What [torch.load] can return: a tensor, a dict (its items in insertion
    order, keys unique), or an object with no mapping interface. *)
#[warnings="-register-all"]
Inductive pyobj : Type :=
  | PTensor (t : Tensor)
  | PDict (items : list (pykey * pyobj))
  | POther.

(** A value of a taxonomy record or of a prediction. *)
Inductive pyval : Type :=
  | VStr (s : string)
  | VFloat (f : F)
  | VInt (z : Z).

#[global] Instance pyval_eq_dec : EqDecision pyval.
Proof. solve_decision. Defined.

(** [d.get(k)]: [k in d] is [is_Some] of it, [d[k]] its value. *)
Fixpoint dict_get {K V : Type} `{EqDecision K} (d : list (K * V)) (k : K)
  : option V :=
  match d with
  | [] => None
  | (k', v) :: d' => if decide (k = k') then Some v else dict_get d' k
  end.

(** [d[k] = v]: an existing key keeps its position. *)
Fixpoint dict_set {K V : Type} `{EqDecision K} (d : list (K * V)) (k : K) (v : V)
  : list (K * V) :=
  match d with
  | [] => [(k, v)]
  | (k', v') :: d' =>
      if decide (k = k') then (k, v) :: d' else (k', v') :: dict_set d' k v
  end.

Inductive file : Type :=
  | FImage (width height : nat) (pixels : D)
  | FCheckpoint (content : pyobj)
  | FOther.

(** The files the service reads; it writes none of them. *)
Record World : Type := mkWorld {
  files : gmap string file;
}.

(** *** load_model: checkpoint keys *)

(** [s[n:]] *)
Fixpoint str_from (n : nat) (s : string) : string :=
  match n, s with
  | S n', String _ s' => str_from n' s'
  | _, _ => s
  end.

(** Lines 57-62: the name under which an entry is stored. *)
Definition new_key (k : string) : string :=
  if String.prefix "module." k then str_from 7 k
  else if String.prefix "model." k then str_from 6 k
  else k.

(** Lines 54-63: the loop fills [new_state_dict] entry by entry; a key that is
    not a string has no [startswith] and stops it, leaving what was built. *)
Fixpoint strip_loop (items : list (pykey * pyobj)) (acc : list (string * pyobj))
  : list (string * pyobj) * option exn :=
  match items with
  | [] => (acc, None)
  | (KStr k, v) :: rest => strip_loop rest (dict_set acc (new_key k) v)
  | (KInt _, _) :: _ => (acc, Some AttributeError)
  end.

(** The loop on a dict whose keys are all strings. *)
Definition normalize_state_dict (sd : list (string * pyobj))
  : list (string * pyobj) :=
  fst (strip_loop ((fun kv => (KStr (fst kv), snd kv)) <$> sd) []).


(** *** Module.load_state_dict(state_dict, strict=False) *)

(** One parameter or buffer of the model against the checkpoint: absent names
    are skipped, a matching tensor is copied, anything else is recorded as an
    error.  A one-element vector is accepted for a zero-dimensional entry. *)
Definition load_entry (sd : list (string * pyobj)) (entry : string * list nat)
  : M bool :=
  let '(name, sh) := entry in
  match dict_get sd name with
  | None => ret true
  | Some (PTensor t) =>
      t <~ (match sh, tshape t with
            | [], [n] => if n =? 0 then Raise IndexError
                         else Ret (mkTensor [] (kernel "select0" [] [t]))
            | _, _ => Ret t
            end) ;;
      if shape_eqb (tshape t) sh
      then _ <- set_buffer name (tdata t) ;; ret true
      else ret false
  | Some _ => ret false
  end.

Fixpoint load_entries (sd : list (string * pyobj))
    (layout : list (string * list nat)) : M bool :=
  match layout with
  | [] => ret true
  | e :: rest =>
      ok <- load_entry sd e ;;
      ok' <- load_entries sd rest ;;
      ret (ok && ok')
  end.

Definition load_state_dict (layout : list (string * list nat))
    (sd : list (string * pyobj)) : M unit :=
  ok <- load_entries sd layout ;;
  if ok then ret tt else raise RuntimeError.

(** [try: body except Exception: handler] *)
Definition try_except {A : Type} (body : M A) (handler : exn -> M A) : M A :=
  fun s =>
    match body s with
    | (Ret a, s') => (Ret a, s')
    | (Raise e, s') => handler e s'
    end.

(** [torch.load(path)] on a path that exists. *)
Definition torch_load (w : World) (path : string) : res pyobj :=
  match files w !! path with
  | Some (FCheckpoint o) => Ret o
  | Some _ => Raise UnpicklingError
  | None => Raise OSError
  end.

(** [os.path.exists(path)] *)
Definition path_exists (w : World) (path : string) : bool :=
  bool_decide (is_Some (files w !! path)).

(** [obj.items()], also behind [obj.keys()] and [key in obj]. *)
Definition py_items (o : pyobj) : res (list (pykey * pyobj)) :=
  match o with
  | PDict items => Ret items
  | _ => Raise AttributeError
  end.

(** Lines 44-51: the state dict is the checkpoint itself or sits one level
    down under a known key. *)
Definition unwrap_checkpoint (checkpoint : pyobj) (top : list (pykey * pyobj))
  : pyobj :=
  match dict_get top (KStr "model_state_dict") with
  | Some sd => sd
  | None =>
      match dict_get top (KStr "state_dict") with
      | Some sd => sd
      | None =>
          match dict_get top (KStr "model") with
          | Some sd => sd
          | None => checkpoint
          end
      end
  end.

(** Lines 38-67, the body of the outer [try].  Its result comes with the local
    [new_state_dict] as the handler will find it: [None] while unbound. *)
Definition load_checkpoint (w : World) (layout : list (string * list nat))
    (model_path : string)
  : St -> (option (list (string * pyobj)) * res unit) * St :=
  fun s =>
    match (checkpoint <- torch_load w model_path ;;;
           top <- py_items checkpoint ;;;
           Ret (unwrap_checkpoint checkpoint top)) with
    | Raise e => ((None, Raise e), s)
    | Ret state_dict =>
        match py_items state_dict with
        | Raise e => ((Some [], Raise e), s)
        | Ret items =>
            match strip_loop items [] with
            | (new_state_dict, Some e) => ((Some new_state_dict, Raise e), s)
            | (new_state_dict, None) =>
                let '(r, s') := load_state_dict layout new_state_dict s in
                ((Some new_state_dict, r), s')
            end
        end
    end.

(** Lines 69-77, the handler: it loads whatever [new_state_dict] holds, and a
    second failure, an unbound local included, is caught as well. *)
Definition retry_load (layout : list (string * list nat))
    (new_state_dict : option (list (string * pyobj))) : M unit :=
  try_except
    (match new_state_dict with
     | Some sd => load_state_dict layout sd
     | None => raise UnboundLocalError
     end)
    (fun e2 => ret tt).

(** Lines 36-77: the outer [try] with its handler. *)
Definition load_weights (w : World) (layout : list (string * list nat))
    (model_path : string) : M unit :=
  fun s =>
    match load_checkpoint w layout model_path s with
    | ((_, Ret _), s') => (Ret tt, s')
    | ((new_state_dict, Raise e), s') => retry_load layout new_state_dict s'
    end.

(** [model.eval()] *)
Definition eval_mode : M unit :=
  fun s => (Ret tt, mkSt (store s) false (rng s)).

(** A freshly constructed module: every parameter as initialised, training
    mode on. *)
Definition fresh_state (g : Rng) : St := mkSt ∅ true g.

(** [model_path and os.path.exists(model_path)] *)
Definition checkpoint_found (w : World) (model_path : option string) : bool :=
  match model_path with
  | Some path => negb (bool_decide (path = "")) && path_exists w path
  | None => false
  end.

(** Lines 33-86, everything after the model is constructed. *)
Definition load_model_weights (w : World) (m : BryoFormer)
    (model_path : option string) : M unit :=
  _ <- match model_path with
       | Some path =>
           if negb (bool_decide (path = "")) && path_exists w path
           then load_weights w (BryoFormer_params "" m) path
           else ret tt
       | None => ret tt
       end ;;
  eval_mode.

Definition load_model (w : World) (num_classes : nat) (model_path : option string)
    (g : Rng) : res (BryoFormer * St) :=
  m <- BryoFormer_init 224 16 3 num_classes 384 8 2 None false 0 0 0 ;;;
  match load_model_weights w m model_path (fresh_state g) with
  | (Ret _, s) => Ret (m, s)
  | (Raise e, _) => Raise e
  end.

(** *** load_class_names *)

Definition Taxonomy : Type := gmap string (gmap string pyval).

Definition taxon (name sci_name family : string) : gmap string pyval :=
  {[ "name" := VStr name; "sci_name" := VStr sci_name; "family" := VStr family ]}.

Definition default_class_names : Taxonomy :=
  {[ "0" := taxon "龟背竹" "Monstera deliciosa" "天南星科";
     "1" := taxon "栀子花" "Gardenia jasminoides" "茜草科";
     "2" := taxon "多肉植物" "Succulent plants" "多个科属";
     "3" := taxon "玫瑰" "Rosa rugosa" "蔷薇科";
     "4" := taxon "向日葵" "Helianthus annuus" "菊科" ]}.

(** The class file is absent ([None]), unreadable ([Some None]) or holds a
    table. *)
Definition load_class_names (class_file : option (option Taxonomy)) : Taxonomy :=
  match class_file with
  | Some (Some class_data) => class_data
  | _ => default_class_names
  end.

(** *** The pipeline object *)

Record PlantRecognitionModel : Type := mkPlantRecognitionModel {
  num_classes : nat;
  model : BryoFormer;
  model_state : St;
  class_names : Taxonomy;
}.

Definition PlantRecognitionModel_init (w : World)
    (class_file : option (option Taxonomy)) (model_path : option string)
    (num_classes : nat) (g : Rng) : res PlantRecognitionModel :=
  ms <- load_model w num_classes model_path g ;;;
  Ret (mkPlantRecognitionModel num_classes (fst ms) (snd ms)
         (load_class_names class_file)).

(** *** predict *)

(** [Image.open(path).convert('RGB')] *)
Definition Image_open (w : World) (path : string) : res (nat * nat * D) :=
  match files w !! path with
  | Some (FImage width height pixels) => Ret (width, height, pixels)
  | _ => Raise OSError
  end.

(** [get_transform()]: resize to 224 x 224, convert to a tensor, normalise. *)
Definition transform (image : nat * nat * D) : Tensor :=
  let '(width, height, pixels) := image in
  mkTensor [3; 224; 224] (prim "transform" [] [[height; width; 3]] [pixels]).

(** [x[0]] *)
Definition select0 (x : Tensor) : res Tensor :=
  match tshape x with
  | S _ :: rest => Ret (mkTensor rest (kernel "select0" [] [x]))
  | _ => Raise IndexError
  end.

(** Insertion into a list of indices ordered by decreasing value; among equal
    values the index inserted first stays first. *)
Fixpoint rank_insert (p : D) (i : nat) (l : list nat) : list nat :=
  match l with
  | [] => [i]
  | j :: l' =>
      if F_leb (elem p i) (elem p j) then j :: rank_insert p i l'
      else i :: j :: l'
  end.

Definition ranking (p : D) (n : nat) : list nat :=
  foldl (fun l i => rank_insert p i l) [] (seq 0 n).

(** [torch.topk(x, k)] on a vector: the [k] largest values with their
    indices, largest first.  It raises when [k] is negative or exceeds the
    length.  [predict] only ever calls it on a vector. *)
Definition topk (x : Tensor) (k : Z) : res (list F * list nat) :=
  match tshape x with
  | [n] =>
      if ((k <? 0) || (Z.of_nat n <? k))%Z then Raise RuntimeError
      else
        let top_indices := take (Z.to_nat k) (ranking (tdata x) n) in
        Ret (elem (tdata x) <$> top_indices, top_indices)
  | _ => Raise RuntimeError
  end.

(** Lines 138-146, one iteration of the loop. *)
Definition predict_step (class_names : Taxonomy) (top_probs : list F)
    (top_indices : list nat) (results : list (gmap string pyval)) (i : nat)
  : res (list (gmap string pyval)) :=
  class_idx <- index top_indices i ;;;
  confidence <- index top_probs i ;;;
  let class_key := pretty class_idx in
  match class_names !! class_key with
  | Some entry =>
      let plant_info := entry in
      let plant_info := <["confidence" := VFloat confidence]> plant_info in
      let plant_info := <["class_id" := VInt (Z.of_nat class_idx)]> plant_info in
      Ret (results ++ [plant_info])
  | None => Ret results
  end.

(** [for i in range(top_k)] *)
Fixpoint predict_loop (class_names : Taxonomy) (top_probs : list F)
    (top_indices : list nat) (results : list (gmap string pyval))
    (range : list nat) : res (list (gmap string pyval)) :=
  match range with
  | [] => Ret results
  | i :: range' =>
      results <- predict_step class_names top_probs top_indices results i ;;;
      predict_loop class_names top_probs top_indices results range'
  end.

(** Lines 126-133: open and preprocess the image, run the model, select. *)
Definition predict_topk (w : World) (self : PlantRecognitionModel)
    (image_path : string) (top_k : Z) : M (list F * list nat) :=
  image <~ Image_open w image_path ;;
  let input_tensor := unsqueeze0 (transform image) in
  outputs <- BryoFormer_forward "" (model self) input_tensor ;;
  out0 <~ select0 outputs ;;
  probabilities <~ softmax out0 0 ;;
  lift (topk probabilities top_k).

(** Lines 126-146, the body of the [try]. *)
Definition predict_body (w : World) (self : PlantRecognitionModel)
    (image_path : string) (top_k : Z) : M (list (gmap string pyval)) :=
  top <- predict_topk w self image_path top_k ;;
  lift (predict_loop (class_names self) (fst top) (snd top) []
          (seq 0 (Z.to_nat top_k))).

(** The dictionary [predict] returns. *)
Inductive PredictResult : Type :=
  | Success (predictions : list (gmap string pyval))
            (top_prediction : option (gmap string pyval))
  | Failure (error : exn).

Definition success (r : PredictResult) : bool :=
  match r with Success _ _ => true | Failure _ => false end.

Definition predictions (r : PredictResult) : list (gmap string pyval) :=
  match r with Success ps _ => ps | Failure _ => [] end.

Definition top_prediction (r : PredictResult) : option (gmap string pyval) :=
  match r with Success _ t => t | Failure _ => None end.

Definition with_state (self : PlantRecognitionModel) (s : St)
  : PlantRecognitionModel :=
  mkPlantRecognitionModel (num_classes self) (model self) s (class_names self).

(** [predict] returns its dictionary and leaves the pipeline object in the
    state the forward pass left the model in. *)
Definition predict (w : World) (self : PlantRecognitionModel)
    (image_path : string) (top_k : Z) : PredictResult * PlantRecognitionModel :=
  match predict_body w self image_path top_k (model_state self) with
  | (Ret results, s) => (Success results (head results), with_state self s)
  | (Raise e, s) => (Failure e, with_state self s)
  end.

End PlantModel.

(** ** A numeric substrate to run the embedding on

    Payloads are integer vectors and every kernel passes its first argument
    through, so that concrete calls evaluate. *)

Definition run_numerics : Numerics := {|
  D := list Z;
  F := Z;
  Rng := nat;
  prim := fun _ _ _ args => match args with d :: _ => d | [] => [] end;
  prim_rand := fun _ _ g _ d => Z.of_nat g :: d;
  rng_next := S;
  init_data := fun name => [Z.of_nat (String.length name)];
  elem := fun d i => nth i d 0%Z;
  F_leb := Z.leb;
  F_real := IZR;
  scale := fun _ d => d;
|}.

(** ** Auxiliary definitions for the statements below *)

Section Auxiliary.
Context `{Numerics}.

(** The loop of lines 54-63 on string keys, as a fold. *)
Definition store_all (acc : list (string * pyobj)) (sd : list (string * pyobj))
  : list (string * pyobj) :=
  foldl (fun acc kv => dict_set acc (new_key (fst kv)) (snd kv)) acc sd.

End Auxiliary.

Section AuxiliaryPhases.
Context `{Numerics}.

(** The three kinds of block a stack is made of. *)
Inductive phase : Type := Spectral | Bridge | Attention.

#[global] Instance phase_eq_dec : EqDecision phase.
Proof. solve_decision. Defined.

Definition block_phase (b : block) : phase :=
  match b with
  | SpectralBlock _ => Spectral
  | BridgeBlock _ => Bridge
  | AttentionBlock _ => Attention
  end.

(** A stack of [n1] spectral-gating blocks, then [n2] bridges, then [n3]
    reduced-attention blocks. *)
Definition three_phase (n1 n2 n3 : nat) (bs : list block) : Prop :=
  block_phase <$> bs
  = replicate n1 Spectral ++ replicate n2 Bridge ++ replicate n3 Attention.

(** The four constructors of the source. *)
Inductive variant : Type := V1 | V2 | V3 | V4.

Definition variant_init (v : variant) :=
  match v with
  | V1 => BryoFormer_init
  | V2 => BryoFormerV2_init
  | V3 => BryoFormerV3_init
  | V4 => BryoFormerV4_init
  end.

(** The length of each phase, read off the constructors. *)
Definition phase_counts (v : variant) (depth : nat) : nat * nat * nat :=
  match v with
  | V1 => (4, 1, depth - 5)
  | V2 => (3, 1, 4)
  | V3 => (2, 2, 8)
  | V4 => (3, 0, 9)
  end.

End AuxiliaryPhases.

Section AuxiliaryEval.
Context `{Numerics}.

(** A computation that, on a model in evaluation mode, neither writes the
    state nor depends on the random generator. *)
Definition eval_pure {A : Type} (m : M A) : Prop :=
  forall st, exists r, forall g, m (mkSt st false g) = (r, mkSt st false g).

(** What one selected class contributes to the result: its taxonomy entry
    with the confidence and the class id added, or nothing when the table has
    no entry under the decimal string of the index. *)
Definition label (class_names : Taxonomy) (idx_conf : nat * F)
  : option (gmap string pyval) :=
  entry ← class_names !! pretty (fst idx_conf) ;
  Some (<["class_id" := VInt (Z.of_nat (fst idx_conf))]>
          (<["confidence" := VFloat (snd idx_conf)]> entry)).

Definition labelled (class_names : Taxonomy) (top_indices : list nat)
    (top_probs : list F) : list (gmap string pyval) :=
  omap (label class_names) (zip top_indices top_probs).

Definition in_table (class_names : Taxonomy) (idx : nat) : bool :=
  bool_decide (is_Some (class_names !! pretty idx)).

(** The second state differs from the first in the stored values of the
    given names at most. *)
Definition frame (names : list string) (s s' : St) : Prop :=
  training s' = training s /\ rng s' = rng s
  /\ forall name, name ∉ names -> store s' !! name = store s !! name.

Definition res_shape (r : res Tensor) : option (list nat) :=
  match r with
  | Ret t => Some (tshape t)
  | Raise _ => None
  end.

End AuxiliaryEval.

Section Demo.
#[local] Existing Instance run_numerics.

(** A world with one photograph and two checkpoints, on [run_numerics]. *)
Definition demo_world : World :=
  mkWorld
    {[ "uploads/leaf.jpg" := FImage 640 480 [7%Z];
       "weights/wrapped.pth" :=
         FCheckpoint (PDict [(KStr "model_state_dict",
           PDict [(KStr "module.head.bias", PTensor (mkTensor [44] [1%Z]));
                  (KStr "module.norm.weight", PTensor (mkTensor [5] [2%Z]));
                  (KStr "module.unknown", PTensor (mkTensor [1] [3%Z]))])]);
       "weights/broken.pth" := FOther ]}.

(** What a constructor returned, or the given value if it raised. *)
Definition from_ret {A : Type} (d : A) (r : res A) : A :=
  match r with
  | Ret a => a
  | Raise _ => d
  end.

Definition no_pipeline : PlantRecognitionModel :=
  mkPlantRecognitionModel 0
    (mkBryoFormer 0 0
       (mkPatchEmbed (0, 0) (0, 0) 0 (mkConv2d 0 0 0 0 0 0 false)
          (mkConv2d 0 0 0 0 0 0 false) (mkConv2d 0 0 0 0 0 0 false))
       (mkDropout 0) [] (mkLayerNorm 0) None None None)
    (fresh_state 0) ∅.

(** The pipeline the service starts with: 44 classes, no checkpoint, the
    built-in table. *)
Definition demo_pipeline : PlantRecognitionModel :=
  Eval vm_compute in
    from_ret no_pipeline (PlantRecognitionModel_init demo_world None None 44 0).


Definition unlabelled_pipeline : PlantRecognitionModel :=
  Eval vm_compute in
    from_ret no_pipeline
      (PlantRecognitionModel_init demo_world (Some (Some ∅)) None 44 0).

End Demo.

Section AuxiliaryShapes.
Context `{Numerics}.

(** A pure operator returned a tensor of the given shape. *)
Definition rshape (r : res Tensor) (sh : list nat) : Prop :=
  exists t, r = Ret t /\ tshape t = sh.

(** On a model whose training flag is [tr], the computation returns a tensor
    of the given shape and leaves the flag as it is. *)
Definition shaped (tr : bool) (m : M Tensor) (sh : list nat) : Prop :=
  forall s, training s = tr ->
    exists t s', m s = (Ret t, s') /\ tshape t = sh /\ training s' = tr.






End AuxiliaryShapes.

Section AuxiliaryStack.
Context `{Numerics}.

(** A block as one of the constructors makes it for width [dim] and an [h] by
    [h] grid of tokens. *)
Definition block_built (dim h : nat) (b : block) : Prop :=
  match b with
  | SpectralBlock m =>
      exists mlp_ratio drop drop_path,
        Block_init dim mlp_ratio drop drop_path h (h / 2 + 1) = Ret m
  | BridgeBlock m => FreqTimeBridge_init dim h (h / 2 + 1) = Ret m
  | AttentionBlock m =>
      exists mlp_ratio drop drop_path,
        Block_attention_init dim mlp_ratio drop drop_path h (h / 2 + 1) = Ret m
  end.

(** The shape [forward] returns: one logit per class, or the pooled features
    when the model has no classification head. *)
Definition logits_shape (B num_classes embed_dim : nat) : list nat :=
  if 0 <? num_classes then [B; num_classes] else [B; embed_dim].

End AuxiliaryStack.
Section AuxiliaryConstruction.
Context `{Numerics}.

(** The least [depth] each constructor can index its drop-path rates with,
    and the number of blocks it builds. *)
Definition min_depth (v : variant) : nat :=
  match v with
  | V1 => 4
  | V2 => 8
  | V3 | V4 => 12
  end.

Definition block_count (v : variant) (depth : nat) : nat :=
  match v with
  | V1 => Nat.max 5 depth
  | V2 => 8
  | V3 | V4 => 12
  end.

End AuxiliaryConstruction.

Section AuxiliaryWrites.
Context `{Numerics}.

(** [s.endswith(suf)] *)
Fixpoint ends_with (suf s : string) : bool :=
  if String.eqb s suf then true
  else match s with
       | EmptyString => false
       | String _ s' => ends_with suf s'
       end.

(** The names of the three buffers that [nn.BatchNorm2d] registers. *)
Definition bn_buffer (name : string) : bool :=
  ends_with "num_batches_tracked" name || ends_with "running_mean" name
  || ends_with "running_var" name.

(** A computation that leaves the training flag alone and writes the store
    under names in [P] only. *)
Definition writes_only (P : string -> bool) {A : Type} (m : M A) : Prop :=
  forall s,
    training (snd (m s)) = training s
    /\ forall name, P name = false -> store (snd (m s)) !! name = store s !! name.

End AuxiliaryWrites.

Section AuxiliaryKeys.
Context `{Numerics}.

(** A state dict as it is saved from under a wrapper: every key with the
    wrapper's prefix in front. *)
Definition add_prefix (p : string) (sd : list (string * pyobj))
  : list (string * pyobj) :=
  (fun kv => (p +:+ fst kv, snd kv)) <$> sd.

(** The entries of a checkpoint whose key is stored under the name [k]. *)
Definition entries_for (k : string) (sd : list (string * pyobj))
  : list (string * pyobj) :=
  filter (fun kv => new_key (fst kv) = k) sd.

End AuxiliaryKeys.
Section AuxiliaryLoading.
Context `{Numerics}.

(** The keys under which line 44-49 look for a nested state dict, in the
    order they are tried. *)
Definition wrapper_keys : list string := ["model_state_dict"; "state_dict"; "model"].

(** The local [new_state_dict] when the [try] block of [load_model] ends:
    unbound ([None]), or the dictionary built so far. *)
Definition bound_state_dict (w : World) (layout : list (string * list nat))
    (model_path : string) (s : St) : option (list (string * pyobj)) :=
  fst (fst (load_checkpoint w layout model_path s)).

End AuxiliaryLoading.

Section AuxiliaryRanking.
Context `{Numerics}.

(** The confidence a prediction record carries. *)
Definition confidence (p : gmap string pyval) : option F :=
  match p !! "confidence" with
  | Some (VFloat f) => Some f
  | _ => None
  end.

(** The first record is at least as confident as the second. *)
Definition ranked_before (p q : gmap string pyval) : Prop :=
  exists a b, confidence p = Some a /\ confidence q = Some b /\ F_leb b a = true.

(** The order on scalars is total and transitive, as [<=] is on floats that
    are not NaN. *)
Definition F_leb_total : Prop := forall a b, F_leb a b = true \/ F_leb b a = true.

Definition F_leb_trans : Prop :=
  forall a b c, F_leb a b = true -> F_leb b c = true -> F_leb a c = true.

End AuxiliaryRanking.

(** ** bryoFormer.py: helpers for foreign checkpoints *)

Section BryoFormerCheckpoints.
Context `{Numerics}.

(** [x.permute(dims)]: [dims] must name every dimension once. *)
Definition permute (x : Tensor) (dims : list nat) : res Tensor :=
  let n := length (tshape x) in
  if (length dims =? n) && forallb (fun i => bool_decide (i ∈ dims)) (seq 0 n)
  then Ret (mkTensor ((fun d => default 0 (tshape x !! d)) <$> dims)
              (kernel "permute" (Z.of_nat <$> dims) [x]))
  else Raise RuntimeError.

(** [x[:, :1]] *)
Definition slice_first_token (x : Tensor) : res Tensor :=
  match tshape x with
  | d0 :: d1 :: rest =>
      Ret (mkTensor (d0 :: Nat.min 1 d1 :: rest) (kernel "slice_first_token" [] [x]))
  | _ => Raise IndexError
  end.

(** [x[0, 1:]] *)
Definition slice_grid_tokens (x : Tensor) : res Tensor :=
  match tshape x with
  | S _ :: d1 :: rest =>
      Ret (mkTensor (d1 - 1 :: rest) (kernel "slice_grid_tokens" [] [x]))
  | _ => Raise IndexError
  end.

(** [len(x)] *)
Definition tensor_len (x : Tensor) : res nat :=
  match tshape x with
  | n :: _ => Ret n
  | [] => Raise TypeError
  end.

(** [F.interpolate(x, size=(Ho, Wo), mode='bilinear')]: torch wants a
    non-empty 4D tensor and positive sizes. *)
Definition interpolate_bilinear (x : Tensor) (Ho Wo : nat) : res Tensor :=
  match tshape x with
  | [B; C; Hh; W] =>
      if (C =? 0) || (Hh =? 0) || (W =? 0) || (Ho =? 0) || (Wo =? 0)
      then Raise RuntimeError
      else Ret (mkTensor [B; C; Ho; Wo]
                  (kernel "interpolate_bilinear" [Z.of_nat Ho; Z.of_nat Wo] [x]))
  | _ => Raise ValueError
  end.

(** Lines 526-536. *)
Definition resize_pos_embed (posemb posemb_new : Tensor) : res Tensor :=
  ntok_new <- index (tshape posemb_new) 1 ;;;
  posemb_tok <- slice_first_token posemb ;;;
  posemb_grid <- slice_grid_tokens posemb ;;;
  n <- tensor_len posemb_grid ;;;
  let gs_old := isqrt n in
  let gs_new := isqrt ntok_new in
  g <- reshape_infer posemb_grid [1; gs_old; gs_old] ;;;
  g <- permute g [0; 3; 1; 2] ;;;
  g <- interpolate_bilinear g gs_new gs_new ;;;
  g <- permute g [0; 2; 3; 1] ;;;
  g <- reshape_infer g [1; gs_new * gs_new] ;;;
  cat1 posemb_tok g.

(** [sub in s] on strings. *)
Fixpoint contains (sub s : string) : bool :=
  if String.prefix sub s then true
  else match s with
       | EmptyString => false
       | String _ s' => contains sub s'
       end.

(** [v.shape] *)
Definition py_shape (v : pyobj) : res (list nat) :=
  match v with
  | PTensor t => Ret (tshape t)
  | _ => Raise AttributeError
  end.

(** Lines 544-548: the value stored for one item.  [PatchEmbed] has no
    attribute [proj], so the first branch cannot get past its first line. *)
Definition filter_entry (pre : string) (m : BryoFormer) (k : pykey) (v : pyobj)
  : M pyobj :=
  match k with
  | KInt _ => raise TypeError
  | KStr k =>
      is_proj <~ (if contains "patch_embed.proj.weight" k
                  then sh <- py_shape v ;;; Ret (length sh <? 4)
                  else Ret false) ;;
      if is_proj then raise AttributeError
      else if bool_decide (k = "pos_embed") then
        sh <~ py_shape v ;;
        pos_embed <- param (pre +:+ "pos_embed")
                       [1; pe_num_patches (bf_patch_embed m); bf_embed_dim m] ;;
        if shape_eqb sh (tshape pos_embed) then ret v
        else
          match v with
          | PTensor t => t' <~ resize_pos_embed t pos_embed ;; ret (PTensor t')
          | _ => raise AttributeError
          end
      else ret v
  end.

(** Lines 543-549: the loop over [state_dict.items()]. *)
Fixpoint filter_loop (pre : string) (m : BryoFormer)
    (items out_dict : list (pykey * pyobj)) : M (list (pykey * pyobj)) :=
  match items with
  | [] => ret out_dict
  | (k, v) :: rest =>
      v' <- filter_entry pre m k v ;;
      filter_loop pre m rest (dict_set out_dict k v')
  end.

(** Lines 541-542: the dict whose items are filtered. *)
Definition state_dict_items (state_dict : list (pykey * pyobj))
  : res (list (pykey * pyobj)) :=
  match dict_get state_dict (KStr "model") with
  | Some inner => py_items inner
  | None => Ret state_dict
  end.

(** Lines 539-550. *)
Definition checkpoint_filter_fn (pre : string)
    (state_dict : list (pykey * pyobj)) (m : BryoFormer)
  : M (list (pykey * pyobj)) :=
  items <~ state_dict_items state_dict ;;
  filter_loop pre m items [].

End BryoFormerCheckpoints.

Section AuxiliaryCheckpoints.
Context `{Numerics}.

(** What [checkpoint_filter_fn] stores for an item that it gets past: the
    same key, and the value [filter_entry] returned. *)
Definition filtered (pre : string) (m : BryoFormer) (s : St)
    (item item' : pykey * pyobj) : Prop :=
  fst item' = fst item
  /\ filter_entry pre m (fst item) (snd item) s = (Ret (snd item'), s).

End AuxiliaryCheckpoints.

(** ** main.py, main_fixed.py, main_fixed_v2.py: the identification endpoint

    Each handler runs against the files of the server and the global
    [plant_model]; it answers with a JSON body or an HTTP error.  Paths are
    joined as on POSIX. *)

Section Service.
Context `{Numerics}.

(** [os.path.splitext(name)[1]] *)
Variable splitext_ext : string -> string.

(** What a handler reads of its [UploadFile]: the content is the uploaded
    bytes as [Image.open] will see them once written to a file. *)
Record Upload : Type := mkUpload {
  content_type : option string;
  filename : option string;
  content : file;
}.

(** A record of the hard-coded demonstration list. *)
Record demo_plant : Type := mkDemoPlant {
  dp_name : string; dp_sci_name : string; dp_family : string;
  dp_confidence : Q; dp_class_id : Z;
}.

(** What a call of the [async def predict] evaluates to: with [await], the
    dictionary; without, a coroutine object whose body has not run. *)
Inductive call_result : Type :=
  | Awaited (result : PredictResult)
  | Coroutine.

Inductive Response : Type :=
  (** ["success": True] with the model's ranking; [ai_mode] is the flag of
      that name, which only main_fixed_v2.py sends *)
  | Identified (top_prediction : gmap string pyval)
               (all_predictions : list (gmap string pyval)) (ai_mode : bool)
  (** ["success": False], with ["error"]: the text of the exception, or
      "未知错误" when the result has no such key *)
  | NotIdentified (error : option exn)
  (** ["success": True, "demo_mode": False] with what the call of [predict]
      evaluated to as ["identification"] (main_fixed.py, line 146) *)
  | Reported (identification : call_result)
  (** ["success": True, "demo_mode": True] with the demonstration list *)
  | DemoIdentified (top_prediction : demo_plant)
                   (all_predictions : list demo_plant)
  | HTTPException (status_code : nat)
  (** an exception that leaves the handler *)
  | Unhandled (e : exn).

(** [aiofiles.open(path, 'wb')] followed by [write]. *)
Definition write_file (w : World) (path : string) (f : file) : World :=
  mkWorld (<[path := f]> (files w)).

(** [os.remove(path)] *)
Definition os_remove (w : World) (path : string) : res World :=
  if path_exists w path then Ret (mkWorld (delete path (files w)))
  else Raise OSError.

(** The handler of the outer [try]:
    [if 'file_path' in locals() and os.path.exists(file_path): os.remove(file_path)] *)
Definition cleanup (w : World) (file_path : option string) : World :=
  match file_path with
  | Some path => if path_exists w path then mkWorld (delete path (files w)) else w
  | None => w
  end.

(** Lines 81-83 of main.py, the same in the other two. *)
Definition temp_path (timestamp name : string) : string :=
  "uploads/" +:+ ("temp_" +:+ timestamp +:+ splitext_ext name).

(** [file.content_type.startswith('image/')] *)
Definition is_image (file : Upload) : res bool :=
  match content_type file with
  | Some ct => Ret (String.prefix "image/" ct)
  | None => Raise AttributeError
  end.

(** *** main.py *)

(** Lines 97-115: the answer built from what [predict] returned, or [None]
    when building it raises (a record without "name", a confidence that
    does not format as a percentage). *)
Definition respond (ai_mode : bool) (result : PredictResult) : option Response :=
  match result with
  | Success (p :: ps) top =>
      top_plant ← top ;
      _ ← top_plant !! "name" ;
      match top_plant !! "confidence" with
      | Some (VFloat _) | Some (VInt _) =>
          Some (Identified top_plant (p :: ps) ai_mode)
      | _ => None
      end
  | Success [] _ => Some (NotIdentified None)
  | Failure e => Some (NotIdentified (Some e))
  end.

(** Lines 79-121: the [try] block and its handler, with a model at hand. *)
Definition identify_with_model (ai_mode : bool) (self : PlantRecognitionModel)
    (w : World) (timestamp : string) (file : Upload)
  : Response * World * PlantRecognitionModel :=
  match filename file with
  | None => (HTTPException 500, cleanup w None, self)
  | Some name =>
      let file_path := temp_path timestamp name in
      let w := write_file w file_path (content file) in
      let '(result, self) := predict w self file_path 3 in
      match os_remove w file_path with
      | Raise _ => (HTTPException 500, cleanup w (Some file_path), self)
      | Ret w =>
          match respond ai_mode result with
          | Some r => (r, w, self)
          | None => (HTTPException 500, cleanup w (Some file_path), self)
          end
      end
  end.

(** Lines 70-121. *)
Definition identify_plant (plant_model : option PlantRecognitionModel)
    (w : World) (timestamp : string) (file : Upload)
  : Response * World * option PlantRecognitionModel :=
  match plant_model with
  | None => (HTTPException 503, w, None)
  | Some self =>
      match is_image file with
      | Raise e => (Unhandled e, w, plant_model)
      | Ret false => (HTTPException 400, w, plant_model)
      | Ret true =>
          let '(r, w, self) := identify_with_model false self w timestamp file in
          (r, w, Some self)
      end
  end.

(** Lines 33-47: [startup_event]. *)
Definition startup_event (w : World) (class_file : option (option Taxonomy))
    (g : Rng) : option PlantRecognitionModel :=
  match PlantRecognitionModel_init w class_file
          (Some "models/weights/best_plant_model.pth") 44 g with
  | Ret self => Some self
  | Raise _ => None
  end.

(** *** main_fixed.py *)

Definition demo_plants : list demo_plant :=
  [ mkDemoPlant "龟背竹" "Monstera deliciosa" "天南星科" (85 # 100) 0;
    mkDemoPlant "栀子花" "Gardenia jasminoides" "茜草科" (12 # 100) 1;
    mkDemoPlant "多肉植物" "Succulent plants" "多个科属" (3 # 100) 2 ].

(** [result['top_prediction']['name']], or [None] when the expression
    raises: a coroutine is not subscriptable, the failure dictionary has no
    such key, [None] is not subscriptable, the record may lack the field. *)
Definition top_prediction_name (result : call_result) : option pyval :=
  match result with
  | Coroutine => None
  | Awaited (Failure _) => None
  | Awaited (Success _ top) => top_plant ← top ; top_plant !! "name"
  end.

(** Lines 157-197, the demonstration mode that ends the [try] block. *)
Definition demo_mode (w : World) (file_path : string) : Response * World :=
  match os_remove w file_path with
  | Ret w =>
      match head demo_plants with
      | Some top => (DemoIdentified top demo_plants, w)
      | None => (HTTPException 500, cleanup w (Some file_path))
      end
  | Raise _ => (HTTPException 500, cleanup w (Some file_path))
  end.

(** Lines 138-155: the branch for a loaded model.  Line 141 calls [predict]
    without [await].  It returns its answer, or [None] when the inner handler
    caught an exception and the demonstration mode takes over. *)
Definition try_model (plant_model : option PlantRecognitionModel) (w : World)
    (file_path : string) : option Response * World :=
  match plant_model with
  | Some self =>
      let result := Coroutine in
      match os_remove w file_path with
      | Ret w =>
          match top_prediction_name result with
          | Some _ => (Some (Reported result), w)
          | None => (None, w)
          end
      | Raise model_error => (None, w)
      end
  | None => (None, w)
  end.

(** Lines 119-203. *)
Definition identify_plant_fixed (plant_model : option PlantRecognitionModel)
    (w : World) (timestamp : string) (file : Upload)
  : Response * World * option PlantRecognitionModel :=
  match is_image file with
  | Raise e => (Unhandled e, w, plant_model)
  | Ret false => (HTTPException 400, w, plant_model)
  | Ret true =>
      match filename file with
      | None => (HTTPException 500, cleanup w None, plant_model)
      | Some name =>
          let file_path := temp_path timestamp name in
          let w := write_file w file_path (content file) in
          match try_model plant_model w file_path with
          | (Some r, w) => (r, w, plant_model)
          | (None, w) =>
              let '(r, w) := demo_mode w file_path in
              (r, w, plant_model)
          end
      end
  end.

(** *** main_fixed_v2.py *)

(** The attributes of a [PlantRecognitionModel]: those [__init__] sets and
    the methods of the class. *)
Definition PlantRecognitionModel_attrs : list string :=
  ["device"; "num_classes"; "model"; "class_names"; "transform";
   "load_model"; "load_class_names"; "get_transform"; "predict"].

(** [hasattr(plant_model, name)] *)
Definition hasattr (self : PlantRecognitionModel) (name : string) : bool :=
  bool_decide (name ∈ PlantRecognitionModel_attrs).

(** [plant_model.model_loaded] *)
Definition get_model_loaded (self : PlantRecognitionModel) : res bool :=
  Raise AttributeError.

(** Line 160:
    [plant_model is None or not hasattr(plant_model, 'model_loaded')
     or not plant_model.model_loaded] *)
Definition no_loaded_model (plant_model : option PlantRecognitionModel)
  : res bool :=
  match plant_model with
  | None => Ret true
  | Some self =>
      if negb (hasattr self "model_loaded") then Ret true
      else loaded <- get_model_loaded self ;;; Ret (negb loaded)
  end.

(** Lines 87-129: [demo_identify_plant]. *)
Definition demo_identify_plant (file : Upload) : Response :=
  match is_image file with
  | Raise e => Unhandled e
  | Ret false => HTTPException 400
  | Ret true =>
      match head demo_plants with
      | Some top => DemoIdentified top demo_plants
      | None => Unhandled IndexError
      end
  end.

(** Lines 156-209. *)
Definition identify_plant_v2 (plant_model : option PlantRecognitionModel)
    (w : World) (timestamp : string) (file : Upload)
  : Response * World * option PlantRecognitionModel :=
  match no_loaded_model plant_model, plant_model with
  | Raise e, _ => (Unhandled e, w, plant_model)
  | Ret false, Some self =>
      match is_image file with
      | Raise e => (Unhandled e, w, plant_model)
      | Ret false => (HTTPException 400, w, plant_model)
      | Ret true =>
          let '(r, w, self) := identify_with_model true self w timestamp file in
          (r, w, Some self)
      end
  | Ret _, _ => (demo_identify_plant file, w, plant_model)
  end.

End Service.

(** * Properties *)

(** ** Checkpoint key normalisation (C3) *)

Section KeyNormalization.
Context `{Numerics}.

Lemma strip_loop_strings sd acc :
  strip_loop ((fun kv => (KStr (fst kv), snd kv)) <$> sd) acc = (store_all acc sd, None).
Proof.
  revert acc. induction sd as [|[k v] sd IH]; intros acc; simpl; [done|].
  apply IH.
Qed.


Lemma dict_set_fresh (d : list (string * pyobj)) k v :
  k ∉ fst <$> d -> dict_set d k v = d ++ [(k, v)].
Proof.
  induction d as [|[k' v'] d IH]; simpl; [done|].
  intros Hn. destruct (decide (k = k')) as [->|Hne].
  - exfalso. apply Hn. left.
  - rewrite IH; [done|]. intros ?. apply Hn. by right.
Qed.






End KeyNormalization.



(** ** The block stack of every variant (C2) *)

(** Inversion of a sequence of binds that returned. *)
Ltac ret_inv H :=
  repeat match type of H with
  | rbind ?r _ = Ret _ =>
      let E := fresh "E" in destruct r eqn:E; cbn [rbind] in H; [|discriminate H]
  end.

Section BlockStack.
Context `{Numerics}.

Lemma for_each_phase {A : Type} (f : A -> res block) (p : phase) l bs :
  (forall a b, f a = Ret b -> block_phase b = p) ->
  for_each f l = Ret bs ->
  block_phase <$> bs = replicate (length l) p.
Proof.
  intros Hf. revert bs. induction l as [|a l IH]; intros bs; simpl.
  - by intros [= <-].
  - destruct (f a) as [b|] eqn:Hb; simpl; [|done].
    destruct (for_each f l) as [bs'|]; simpl; [|done].
    intros [= <-]. rewrite fmap_cons, (Hf _ _ Hb), (IH bs'); done.
Qed.

Lemma spectral_run_phase embed_dim mlp_ratio uniform_drop drop_rate drop_path_rate
    depth h w off n bs :
  spectral_run embed_dim depth mlp_ratio uniform_drop drop_rate drop_path_rate
    h w off n = Ret bs ->
  block_phase <$> bs = replicate n Spectral.
Proof.
  intros Hr. unfold spectral_run in Hr.
  eapply for_each_phase in Hr; [by rewrite length_seq in Hr|].
  intros a b Hb. ret_inv Hb. by injection Hb as <-.
Qed.

Lemma bridge_run_phase embed_dim h w n bs :
  bridge_run embed_dim h w n = Ret bs ->
  block_phase <$> bs = replicate n Bridge.
Proof.
  intros Hr. unfold bridge_run in Hr.
  eapply for_each_phase in Hr; [by rewrite length_seq in Hr|].
  intros a b Hb. ret_inv Hb. by injection Hb as <-.
Qed.

Lemma attention_run_phase embed_dim mlp_ratio uniform_drop drop_rate drop_path_rate
    depth h w off n bs :
  attention_run embed_dim depth mlp_ratio uniform_drop drop_rate drop_path_rate
    h w off n = Ret bs ->
  block_phase <$> bs = replicate n Attention.
Proof.
  intros Hr. unfold attention_run in Hr.
  eapply for_each_phase in Hr; [by rewrite length_seq in Hr|].
  intros a b Hb. ret_inv Hb. by injection Hb as <-.
Qed.

Section Stacks.
Variables (img_size patch_size in_chans num_classes embed_dim depth : nat).
Variables (mlp_ratio : Q) (representation_size : option nat).
Variables (uniform_drop : bool) (drop_rate drop_path_rate dropcls : Q).

Lemma BryoFormer_phases m :
  BryoFormer_init img_size patch_size in_chans num_classes embed_dim depth
    mlp_ratio representation_size uniform_drop drop_rate drop_path_rate dropcls
  = Ret m ->
  three_phase 4 1 (depth - 5) (bf_blocks m).
Proof.
  intros Hm. unfold BryoFormer_init in Hm. ret_inv Hm. injection Hm as <-.
  unfold three_phase. simpl bf_blocks. rewrite !fmap_app.
  match goal with
  | E1 : for_each _ (seq 0 4) = Ret _, E3 : for_each _ (seq 5 _) = Ret _ |- _ =>
      eapply (for_each_phase _ Spectral) in E1;
      [eapply (for_each_phase _ Attention) in E3|]
  end.
  - rewrite ?fmap_cons, E2, E4, !length_seq. done.
  - intros i b Hb. ret_inv Hb. by injection Hb as <-.
  - intros i b Hb. ret_inv Hb. by injection Hb as <-.
Qed.

Lemma BryoFormerV2_phases m :
  BryoFormerV2_init img_size patch_size in_chans num_classes embed_dim depth
    mlp_ratio representation_size uniform_drop drop_rate drop_path_rate dropcls
  = Ret m ->
  three_phase 3 1 4 (bf_blocks m).
Proof.
  intros Hm. unfold BryoFormerV2_init in Hm. ret_inv Hm. injection Hm as <-.
  unfold three_phase. simpl bf_blocks. rewrite !fmap_app.
  by erewrite spectral_run_phase, bridge_run_phase, attention_run_phase.
Qed.

Lemma BryoFormerV3_phases m :
  BryoFormerV3_init img_size patch_size in_chans num_classes embed_dim depth
    mlp_ratio representation_size uniform_drop drop_rate drop_path_rate dropcls
  = Ret m ->
  three_phase 2 2 8 (bf_blocks m).
Proof.
  intros Hm. unfold BryoFormerV3_init in Hm. ret_inv Hm. injection Hm as <-.
  unfold three_phase. simpl bf_blocks. rewrite !fmap_app.
  by erewrite spectral_run_phase, bridge_run_phase, attention_run_phase.
Qed.

Lemma BryoFormerV4_phases m :
  BryoFormerV4_init img_size patch_size in_chans num_classes embed_dim depth
    mlp_ratio representation_size uniform_drop drop_rate drop_path_rate dropcls
  = Ret m ->
  three_phase 3 0 9 (bf_blocks m).
Proof.
  intros Hm. unfold BryoFormerV4_init in Hm. ret_inv Hm. injection Hm as <-.
  unfold three_phase. simpl bf_blocks. rewrite !fmap_app.
  by erewrite spectral_run_phase, attention_run_phase.
Qed.

(** C2 (amended).  Whichever variant is built, its block stack is a run of
    spectral-gating blocks, then a run of FreqTimeBridge blocks, then a run of
    reduced-attention blocks, in this order; the variants differ in the three
    run lengths only, and the bridge run of BryoFormerV4 is empty. *)
Theorem variant_stack_three_phase (v : variant) m :
  variant_init v img_size patch_size in_chans num_classes embed_dim depth
    mlp_ratio representation_size uniform_drop drop_rate drop_path_rate dropcls
  = Ret m ->
  let '(n1, n2, n3) := phase_counts v depth in
  three_phase n1 n2 n3 (bf_blocks m).
Proof.
  destruct v; simpl; intros Hm.
  - by apply BryoFormer_phases.
  - by apply BryoFormerV2_phases.
  - by apply BryoFormerV3_phases.
  - by apply BryoFormerV4_phases.
Qed.

End Stacks.

End BlockStack.

(** The two-bridge variant at its default arguments. *)
Lemma variant_stack_three_phase_witness :
  exists m,
    variant_init V3 224 16 3 1000 768 12 4 None false 0 0 0 = Ret m
    /\ three_phase 2 2 8 (bf_blocks m).
Proof.
  assert (Hm : exists m,
    variant_init V3 224 16 3 1000 768 12 4 None false 0 0 0 = Ret m).
  { vm_compute. eexists. reflexivity. }
  destruct Hm as [m Hm]. exists m. split; [exact Hm|].
  exact (variant_stack_three_phase 224 16 3 1000 768 12 4 None false 0 0 0 V3 m Hm).
Defined.

(** C2 (as stated) fails: BryoFormerV4 at its default arguments is built, and
    its stack holds no FreqTimeBridge at all, although the claim asks for at
    least one in every variant. *)
Lemma BryoFormerV4_stack_has_no_bridge :
  exists m,
    variant_init V4 224 16 3 1000 768 12 4 None false 0 0 0 = Ret m
    /\ ~ exists n1 n2 n3, 1 <= n2 /\ three_phase n1 n2 n3 (bf_blocks m).
Proof.
  assert (Hm : exists m,
    variant_init V4 224 16 3 1000 768 12 4 None false 0 0 0 = Ret m).
  { vm_compute. eexists. reflexivity. }
  destruct Hm as [m Hm]. exists m. split; [exact Hm|].
  intros (n1 & n2 & n3 & Hn & Hp).
  apply BryoFormerV4_phases in Hm. unfold three_phase in Hp, Hm.
  rewrite Hm in Hp.
  assert (Hin : Bridge ∈ replicate n1 Spectral ++ replicate n2 Bridge
                          ++ replicate n3 Attention).
  { apply elem_of_app. right. apply elem_of_app. left.
    destruct n2; [lia|]. left. }
  rewrite <- Hp in Hin. simpl in Hin.
  repeat (apply elem_of_cons in Hin as [Hin|Hin]; [discriminate Hin|]).
  by apply elem_of_nil in Hin.
Qed.

(** ** Patch embedding (C4) *)

Section PatchEmbedding.
Context `{Numerics}.

Lemma conv_out_stage1 c n k :
  c_kernel c = 3 -> c_stride c = 2 -> c_padding c = 1 -> 1 <= k -> n = 16 * k ->
  conv_out c n = Ret (8 * k).
Proof.
  intros Hk Hs Hp Hk1 ->. unfold conv_out. rewrite Hk, Hs, Hp.
  destruct (Nat.ltb_spec (16 * k + 2 * 1) 3); [lia|].
  f_equal. replace (16 * k + 2 * 1 - 3) with (1 + (8 * k - 1) * 2) by lia.
  rewrite Nat.div_add by lia. simpl. lia.
Qed.

Lemma conv_out_stage2 c n k :
  c_kernel c = 8 -> c_stride c = 8 -> c_padding c = 0 -> 1 <= k -> n = 8 * k ->
  conv_out c n = Ret k.
Proof.
  intros Hk Hs Hp Hk1 ->. unfold conv_out. rewrite Hk, Hs, Hp.
  destruct (Nat.ltb_spec (8 * k + 2 * 0) 8); [lia|].
  f_equal. replace (8 * k + 2 * 0 - 8) with ((k - 1) * 8) by lia.
  rewrite Nat.div_mul by lia. lia.
Qed.

Lemma conv_out_pointwise c k :
  c_kernel c = 1 -> c_stride c = 1 -> c_padding c = 0 -> 1 <= k ->
  conv_out c k = Ret k.
Proof.
  intros Hk Hs Hp Hk1. unfold conv_out. rewrite Hk, Hs, Hp.
  destruct (Nat.ltb_spec (k + 2 * 0) 1); [lia|].
  f_equal. rewrite Nat.div_1_r. lia.
Qed.

(** With the patch size the service uses, 16, the embedding yields
    [(H / 16) * (H / 16)] tokens, the number it announces. *)
Lemma PatchEmbed_patch16 (k Hh B in_chans embed_dim : nat) (d : D) (s : St) :
  1 <= k -> Hh = 16 * k -> 8 <= embed_dim ->
  exists pe t,
    PatchEmbed_init (Int Hh) (Int 16) in_chans embed_dim = Ret pe
    /\ pe_num_patches pe = k * k
    /\ PatchEmbed_forward "patch_embed." pe
         (mkTensor [B; in_chans; Hh; Hh] d) s = (Ret t, s)
    /\ tshape t = [B; k * k; embed_dim].
Proof.
  intros Hk HHh Hd.
  assert (He : 1 <= embed_dim / 8).
  { apply Nat.div_le_lower_bound; lia. }
  assert (Hdiv : Hh / 16 = k).
  { rewrite HHh, Nat.mul_comm, Nat.div_mul; lia. }
  unfold PatchEmbed_init, floordiv, Conv2d_init, to_2tuple. cbn [fst snd].
  replace (16 =? 0) with false by done. cbn [rbind].
  replace (1 =? 0) with false by done.
  rewrite !Nat.mod_1_r. cbn [Nat.eqb negb].
  destruct (Nat.eqb_spec (embed_dim / 8) 0) as [?|_]; [lia|].
  rewrite Nat.Div0.mod_same. cbn [Nat.eqb negb rbind].
  eexists _, _. split; [reflexivity|]. split; [by rewrite Hdiv|].
  unfold PatchEmbed_forward.
  cbn [tshape pe_img_size pe_stage1 pe_stage2_0 pe_stage2_1 fst snd].
  rewrite !Nat.eqb_refl. cbn [andb]. unfold py_assert.
  unfold bind at 1. unfold lift at 1. cbn iota beta.
  unfold Conv2d_forward.
  cbn [tshape c_in c_out c_kernel c_stride c_padding c_groups c_bias unary].
  rewrite Nat.eqb_refl. cbn [negb].
  rewrite !(conv_out_stage1 _ Hh k) by done.
  unfold bind, lift, param, ret. cbn [tshape].
  rewrite Nat.eqb_refl. cbn [negb].
  rewrite !(conv_out_stage2 _ (8 * k) k) by done. cbn [tshape].
  rewrite Nat.eqb_refl. cbn [negb].
  rewrite !conv_out_pointwise by done. cbn [tshape].
  unfold flatten, transpose. cbn. split; [reflexivity|].
  by rewrite Nat.mul_1_r.
Qed.

(** C4, the defect.  The constructor takes [patch_size] and announces
    [(H // patch) * (W // patch)] patches, but the two convolutions stride by
    2 and 8 whatever the patch size is.  With an image of 224 pixels and
    patches of 8 the module announces 784 tokens and produces 196; the run-time
    assertion looks at the image size only and passes; the model built on this
    embedding then fails when it adds its 784 positional embeddings. *)
Theorem PatchEmbed_patch8_token_count (d : D) (s : St) :
  exists pe t m,
    PatchEmbed_init (Int 224) (Int 8) 3 384 = Ret pe
    /\ pe_num_patches pe = (224 / 8) * (224 / 8)
    /\ PatchEmbed_forward "patch_embed." pe (mkTensor [1; 3; 224; 224] d) s
       = (Ret t, s)
    /\ tshape t = [1; 196; 384]
    /\ BryoFormer_init 224 8 3 44 384 8 2 None false 0 0 0 = Ret m
    /\ fst (BryoFormer_forward "" m (mkTensor [1; 3; 224; 224] d) s)
       = Raise RuntimeError.
Proof.
  eexists _, _, _. split; [reflexivity|]. split; [reflexivity|].
  split; [vm_compute; reflexivity|]. split; [reflexivity|].
  split; [vm_compute; reflexivity|]. vm_compute. reflexivity.
Qed.

End PatchEmbedding.

(** ** Evaluation mode and determinism (C9) *)

Create HintDb eval_pure.

Section EvaluationMode.
Context `{Numerics}.

Lemma eval_pure_ret {A : Type} (a : A) : eval_pure (ret a).
Proof. intros st. by exists (Ret a). Qed.

Lemma eval_pure_raise {A : Type} (e : exn) : eval_pure (@raise _ A e).
Proof. intros st. by exists (Raise e). Qed.

Lemma eval_pure_lift {A : Type} (r : res A) : eval_pure (lift r).
Proof. intros st. by exists r. Qed.

Lemma eval_pure_param name sh : eval_pure (param name sh).
Proof.
  intros st. exists (Ret (mkTensor sh (default (init_data name) (st !! name)))).
  intros g. reflexivity.
Qed.

Lemma eval_pure_bind {A B : Type} (m : M A) (f : A -> M B) :
  eval_pure m -> (forall a, eval_pure (f a)) -> eval_pure (bind m f).
Proof.
  intros Hm Hf st. destruct (Hm st) as [[a|e] Hr].
  - destruct (Hf a st) as [r' Hr']. exists r'. intros g.
    unfold bind. by rewrite Hr, Hr'.
  - exists (Raise e). intros g. unfold bind. by rewrite Hr.
Qed.

Lemma eval_pure_training {B : Type} (f : bool -> M B) :
  eval_pure (f false) -> eval_pure (bind get_training f).
Proof.
  intros Hf st. destruct (Hf st) as [r Hr]. exists r. intros g.
  unfold bind, get_training. simpl. apply Hr.
Qed.

Ltac eval_pure_step :=
  first
    [ apply eval_pure_ret | apply eval_pure_raise | apply eval_pure_lift
    | apply eval_pure_param
    | apply eval_pure_training; cbn [andb]
    | apply eval_pure_bind; [|intros ?]
    | assumption
    | match goal with
      | |- eval_pure (match ?x with _ => _ end) => destruct x
      | |- eval_pure (if ?c then _ else _) => destruct c
      end ].

Ltac eval_pure_auto := repeat eval_pure_step.

Lemma eval_pure_Dropout d x : eval_pure (Dropout_forward d x).
Proof. unfold Dropout_forward. eval_pure_auto. Qed.

Lemma eval_pure_drop_path p x : eval_pure (drop_path_forward p x).
Proof. unfold drop_path_forward. eval_pure_auto. Qed.

Lemma eval_pure_BatchNorm2d pre b x : eval_pure (BatchNorm2d_forward pre b x).
Proof. unfold BatchNorm2d_forward. eval_pure_auto. Qed.

Lemma eval_pure_Conv2d pre c x : eval_pure (Conv2d_forward pre c x).
Proof. unfold Conv2d_forward. eval_pure_auto. Qed.

Lemma eval_pure_Linear pre l x : eval_pure (Linear_forward pre l x).
Proof. unfold Linear_forward. eval_pure_auto. Qed.

Lemma eval_pure_LayerNorm pre l x : eval_pure (LayerNorm_forward pre l x).
Proof. unfold LayerNorm_forward. eval_pure_auto. Qed.

#[local] Hint Resolve eval_pure_Dropout eval_pure_drop_path eval_pure_BatchNorm2d
  eval_pure_Conv2d eval_pure_Linear eval_pure_LayerNorm : eval_pure.

Ltac eval_pure_mod := repeat first [ solve [auto with eval_pure] | eval_pure_step ].

Lemma eval_pure_SpectralGatingNetwork pre m x sp :
  eval_pure (SpectralGatingNetwork_forward pre m x sp).
Proof. unfold SpectralGatingNetwork_forward. eval_pure_mod. Qed.

Lemma eval_pure_ChannelAttention pre m x :
  eval_pure (ChannelAttention_forward pre m x).
Proof. unfold ChannelAttention_forward. eval_pure_mod. Qed.

Lemma eval_pure_SpatialAttention pre m x :
  eval_pure (SpatialAttention_forward pre m x).
Proof. unfold SpatialAttention_forward. eval_pure_mod. Qed.

Lemma eval_pure_FeatureFusion pre m x c sp :
  eval_pure (FeatureFusion_forward pre m x c sp).
Proof. unfold FeatureFusion_forward. eval_pure_mod. Qed.

#[local] Hint Resolve eval_pure_SpectralGatingNetwork eval_pure_ChannelAttention
  eval_pure_SpatialAttention eval_pure_FeatureFusion : eval_pure.

Lemma eval_pure_AttentionModule pre m x :
  eval_pure (AttentionModule_forward pre m x).
Proof. unfold AttentionModule_forward. eval_pure_mod. Qed.

Lemma eval_pure_Mlp pre m x : eval_pure (Mlp_forward pre m x).
Proof. unfold Mlp_forward. eval_pure_mod. Qed.

#[local] Hint Resolve eval_pure_AttentionModule eval_pure_Mlp : eval_pure.

Lemma eval_pure_FreqTimeBridge pre m x :
  eval_pure (FreqTimeBridge_forward pre m x).
Proof. unfold FreqTimeBridge_forward. eval_pure_mod. Qed.

Lemma eval_pure_Block pre m x : eval_pure (Block_forward pre m x).
Proof. unfold Block_forward. eval_pure_mod. Qed.

Lemma eval_pure_sr pre sr x : eval_pure (sr_forward pre sr x).
Proof. unfold sr_forward. eval_pure_mod. Qed.

#[local] Hint Resolve eval_pure_sr : eval_pure.

Lemma eval_pure_OSRAttention pre m x rpe :
  eval_pure (OSRAttention_forward pre m x rpe).
Proof. unfold OSRAttention_forward. eval_pure_mod. Qed.

#[local] Hint Resolve eval_pure_OSRAttention : eval_pure.

Lemma eval_pure_Block_attention pre m x :
  eval_pure (Block_attention_forward pre m x).
Proof. unfold Block_attention_forward. eval_pure_mod. Qed.

Lemma eval_pure_PatchEmbed pre m x : eval_pure (PatchEmbed_forward pre m x).
Proof. unfold PatchEmbed_forward. eval_pure_mod. Qed.

#[local] Hint Resolve eval_pure_FreqTimeBridge eval_pure_Block eval_pure_Block_attention
  eval_pure_PatchEmbed : eval_pure.

Lemma eval_pure_blocks pre i bs x : eval_pure (blocks_forward pre i bs x).
Proof.
  revert i x. induction bs as [|b bs IH]; intros i x; simpl.
  - apply eval_pure_ret.
  - apply eval_pure_bind; [|intros ?; apply IH].
    destruct b; simpl; auto with eval_pure.
Qed.

#[local] Hint Resolve eval_pure_blocks : eval_pure.

Lemma eval_pure_BryoFormer pre m x : eval_pure (BryoFormer_forward pre m x).
Proof.
  unfold BryoFormer_forward, BryoFormer_forward_features. eval_pure_mod.
Qed.

#[local] Hint Resolve eval_pure_BryoFormer : eval_pure.

Lemma eval_pure_predict_body w self path k :
  eval_pure (predict_body w self path k).
Proof. unfold predict_body, predict_topk. eval_pure_mod. Qed.

(** C9.  In evaluation mode [predict] is a function of the weights, the
    image and [k] alone: it leaves the pipeline object as it found it, so a
    second call with the same input returns the same ranked predictions, and
    the result does not depend on the state of the random generator. *)
Theorem predict_deterministic w (self : PlantRecognitionModel) path k :
  training (model_state self) = false ->
  let '(r1, self1) := predict w self path k in
  self1 = self
  /\ predict w self1 path k = (r1, self1)
  /\ forall g,
       fst (predict w
              (with_state self (mkSt (store (model_state self)) false g)) path k)
       = r1.
Proof.
  intros Heval. destruct self as [nc m [st tr g0] cn]. simpl in Heval. subst tr.
  destruct (eval_pure_predict_body w (mkPlantRecognitionModel nc m (mkSt st false g0) cn)
              path k st) as [r Hr].
  assert (Hbody : forall g,
    predict_body w (mkPlantRecognitionModel nc m (mkSt st false g) cn) path k
    = predict_body w (mkPlantRecognitionModel nc m (mkSt st false g0) cn) path k)
    by reflexivity.
  assert (Hp : forall g,
    predict w (mkPlantRecognitionModel nc m (mkSt st false g) cn) path k
    = (match r with
       | Ret results => Success results (head results)
       | Raise e => Failure e
       end, mkPlantRecognitionModel nc m (mkSt st false g) cn)).
  { intros g. unfold predict. cbn [model_state]. rewrite Hbody, Hr.
    by destruct r. }
  rewrite (Hp g0). split; [done|]. split; [apply Hp|].
  intros g. unfold with_state. cbn [num_classes model class_names model_state store].
  by rewrite Hp.
Qed.

End EvaluationMode.


(** ** Ranking and labelling (C1, C8, C10) *)

Section Labelling.
Context `{Numerics}.

Lemma rank_insert_length p i l : length (rank_insert p i l) = S (length l).
Proof.
  induction l as [|j l IH]; simpl; [done|].
  destruct (F_leb (elem p i) (elem p j)); simpl; by rewrite ?IH.
Qed.

Lemma ranking_length p n : length (ranking p n) = n.
Proof.
  unfold ranking.
  assert (Hgen : forall l acc,
    length (foldl (fun l i => rank_insert p i l) acc l) = length acc + length l).
  { induction l as [|i l IH]; intros acc; simpl; [lia|].
    rewrite IH, rank_insert_length. lia. }
  rewrite Hgen, length_seq. done.
Qed.

Lemma topk_inv x k tp ti :
  topk x k = Ret (tp, ti) ->
  exists n, tshape x = [n] /\ (0 <= k <= Z.of_nat n)%Z
            /\ length ti = Z.to_nat k /\ tp = elem (tdata x) <$> ti.
Proof.
  unfold topk. destruct (tshape x) as [|n [|? ?]]; try done.
  destruct (Z.ltb_spec k 0); [done|].
  destruct (Z.ltb_spec (Z.of_nat n) k); [done|]. simpl.
  intros [= <- <-]. exists n. split_and!; try done; try lia.
  rewrite length_take, ranking_length. lia.
Qed.



(** The loop of lines 137-146 computes [labelled]. *)
Lemma predict_loop_labelled cn (tp : list F) (ti : list nat) :
  length tp = length ti ->
  forall n start acc,
    start + n = length ti ->
    predict_loop cn tp ti acc (seq start n)
    = Ret (acc ++ labelled cn (drop start ti) (drop start tp)).
Proof.
  intros Hlen. induction n as [|n IH]; intros start acc Hn.
  - simpl. unfold labelled. rewrite !drop_ge by lia. simpl. by rewrite app_nil_r.
  - cbn [seq predict_loop].
    destruct (lookup_lt_is_Some_2 ti start) as [i Hi]; [lia|].
    destruct (lookup_lt_is_Some_2 tp start) as [c Hc]; [lia|].
    unfold predict_step, index. rewrite Hi, Hc. cbn [rbind].
    rewrite (drop_S _ _ _ Hi), (drop_S _ _ _ Hc).
    unfold labelled. cbn [zip zip_with omap list_omap]. unfold label at 1. cbn [fst snd].
    destruct (cn !! pretty i) as [entry|]; cbn [rbind mbind option_bind].
    + rewrite IH by lia. unfold labelled. by rewrite <- app_assoc.
    + rewrite IH by lia. done.
Qed.


Lemma labelled_none cn ti (tp : list F) :
  (forall i, i ∈ ti -> cn !! pretty i = None) -> labelled cn ti tp = [].
Proof.
  revert tp. induction ti as [|i ti IH]; intros [|c tp] Hnone; try done.
  unfold labelled. cbn [zip zip_with omap list_omap]. unfold label at 1.
  cbn [fst snd]. rewrite (Hnone i) by left. cbn [mbind option_bind].
  apply IH. intros j Hj. apply Hnone. by right.
Qed.


Lemma labelled_elem cn ti (tp : list F) p :
  p ∈ labelled cn ti tp ->
  exists i c entry, i ∈ ti /\ cn !! pretty i = Some entry
    /\ p = <["class_id" := VInt (Z.of_nat i)]> (<["confidence" := VFloat c]> entry).
Proof.
  unfold labelled. intros ([i c] & Hin & Hl)%list_elem_of_omap.
  unfold label in Hl. cbn [fst snd] in Hl.
  destruct (cn !! pretty i) as [entry|] eqn:Hi; [|done].
  injection Hl as <-. exists i, c, entry. split_and!; [|done..].
  apply elem_of_zip_l in Hin. done.
Qed.

Lemma labelled_present cn ti (tp : list F) i :
  length tp = length ti ->
  i ∈ ti -> is_Some (cn !! pretty i) ->
  exists p, p ∈ labelled cn ti tp /\ p !! "class_id" = Some (VInt (Z.of_nat i)).
Proof.
  intros Hlen Hin [entry Hi].
  apply list_elem_of_lookup in Hin as [j Hj].
  destruct (lookup_lt_is_Some_2 tp j) as [c Hc].
  { rewrite Hlen. by eapply lookup_lt_Some. }
  exists (<["class_id" := VInt (Z.of_nat i)]> (<["confidence" := VFloat c]> entry)).
  split; [|by rewrite lookup_insert_eq].
  unfold labelled. apply list_elem_of_omap. exists (i, c). split.
  - apply list_elem_of_lookup. exists j. rewrite lookup_zip_with, Hj. simpl.
    by rewrite Hc.
  - unfold label. cbn [fst snd]. by rewrite Hi.
Qed.

Lemma predict_topk_selection w self path k tp ti s s0 :
  predict_topk w self path k s0 = (Ret (tp, ti), s) ->
  exists x, topk x k = Ret (tp, ti).
Proof.
  intros Htop. unfold predict_topk, bind, lift in Htop.
  repeat match type of Htop with
  | context [match ?r with _ => _ end] =>
      match r with
      | topk _ _ => fail 1
      | _ => destruct r eqn:?; try discriminate
      end
  end.
  all: try (match type of Htop with
            | (topk ?x _, _) = _ => exists x; by injection Htop
            end).
Qed.

(** [predict] in terms of the selection it made. *)
Lemma predict_of_topk w self path k tp ti s :
  predict_topk w self path k (model_state self) = (Ret (tp, ti), s) ->
  predict w self path k
  = (Success (labelled (class_names self) ti tp)
       (head (labelled (class_names self) ti tp)), with_state self s).
Proof.
  intros Htop. unfold predict, predict_body, bind. rewrite Htop. cbn [fst snd].
  destruct (predict_topk_selection _ _ _ _ _ _ _ _ Htop) as [x Hx].
  apply topk_inv in Hx as (n & _ & Hk & Hti & ->).
  unfold lift.
  rewrite (predict_loop_labelled _ _ _ (length_fmap _ _) (Z.to_nat k) 0 [])
    by (simpl; lia).
  by rewrite !drop_0.
Qed.

(** C8.  Whatever [topk] selected, a selected class index whose decimal
    string is not a key of the taxonomy table contributes no record to the
    predictions and does not make the call fail; every selected index that is
    in the table does contribute its record. *)
Theorem absent_classes_omitted w self path k tp ti s :
  predict_topk w self path k (model_state self) = (Ret (tp, ti), s) ->
  let r := fst (predict w self path k) in
  success r = true
  /\ (forall idx, idx ∈ ti -> class_names self !! pretty idx = None ->
        forall p, p ∈ predictions r ->
          p !! "class_id" <> Some (VInt (Z.of_nat idx)))
  /\ (forall idx, idx ∈ ti -> is_Some (class_names self !! pretty idx) ->
        exists p, p ∈ predictions r
                  /\ p !! "class_id" = Some (VInt (Z.of_nat idx))).
Proof.
  intros Htop. rewrite (predict_of_topk _ _ _ _ _ _ _ Htop). cbn.
  destruct (predict_topk_selection _ _ _ _ _ _ _ _ Htop) as [x Hx].
  apply topk_inv in Hx as (n & _ & Hk & Hti & Htp).
  split; [done|]. split.
  - intros idx Hin Habs p (i & c & entry & Hi & Hentry & ->)%labelled_elem.
    rewrite lookup_insert_eq. intros [= Heq%Nat2Z.inj]. subst i. congruence.
  - intros idx Hin Hsome. apply labelled_present; [|done..].
    subst tp. apply length_fmap.
Qed.

(** C10.  When [topk] selected and none of the selected indices is in the
    taxonomy table, the call succeeds with no prediction and no top
    prediction. *)
Theorem no_known_class_empty_result w self path k tp ti s :
  predict_topk w self path k (model_state self) = (Ret (tp, ti), s) ->
  (forall idx, idx ∈ ti -> class_names self !! pretty idx = None) ->
  fst (predict w self path k) = Success [] None.
Proof.
  intros Htop Hnone. rewrite (predict_of_topk _ _ _ _ _ _ _ Htop). cbn [fst].
  destruct (predict_topk_selection _ _ _ _ _ _ _ _ Htop) as [x Hx].
  apply topk_inv in Hx as (n & _ & Hk & Hti & Htp).
  by rewrite labelled_none.
Qed.

End Labelling.


(** ** Loading weights never aborts construction (C7) *)

Section Loading.
Context `{Numerics}.

Lemma frame_refl names s : frame names s s.
Proof. by split_and!. Qed.

Lemma frame_trans names s1 s2 s3 :
  frame names s1 s2 -> frame names s2 s3 -> frame names s1 s3.
Proof.
  intros (Ht1 & Hg1 & Hs1) (Ht2 & Hg2 & Hs2). split_and!; [congruence..|].
  intros name Hn. by rewrite Hs2, Hs1.
Qed.

Lemma frame_set_buffer names name d s :
  name ∈ names -> frame names s (snd (set_buffer name d s)).
Proof.
  intros Hin. split_and!; [done..|]. intros n Hn. simpl.
  apply lookup_insert_ne. by intros ->.
Qed.

Lemma load_entry_frame names sd e s :
  fst e ∈ names -> frame names s (snd (load_entry sd e s)).
Proof.
  intros Hin. destruct e as [name sh]. unfold load_entry.
  destruct (dict_get sd name) as [[t| |]|]; try apply frame_refl.
  unfold bind, lift.
  destruct (match sh with [] => _ | _ => _ end) as [t'|]; [|apply frame_refl].
  destruct (shape_eqb (tshape t') sh); [|apply frame_refl].
  cbn. by apply frame_set_buffer.
Qed.

Lemma load_entries_frame names sd layout s :
  (forall e, e ∈ layout -> fst e ∈ names) ->
  frame names s (snd (load_entries sd layout s)).
Proof.
  revert s. induction layout as [|e layout IH]; intros s Hin; [apply frame_refl|].
  cbn [load_entries]. unfold bind.
  pose proof (load_entry_frame names sd e s (Hin e ltac:(left))) as He.
  destruct (load_entry sd e s) as [[ok|err] s1]; [|exact He].
  pose proof (IH s1 (fun e' He' => Hin e' ltac:(by right))) as Hr.
  destruct (load_entries sd layout s1) as [[ok'|err'] s2];
    cbn in *; by eapply frame_trans.
Qed.

Lemma load_state_dict_frame layout sd s :
  frame (fst <$> layout) s (snd (load_state_dict layout sd s)).
Proof.
  unfold load_state_dict, bind.
  pose proof (load_entries_frame (fst <$> layout) sd layout s) as Hf.
  destruct (load_entries sd layout s) as [[[]|] s1]; cbn in *; apply Hf;
    intros entry Hentry; by apply list_elem_of_fmap_2.
Qed.

(** The handler returns, whatever it finds. *)
Lemma retry_load_returns layout locals s :
  exists s', retry_load layout locals s = (Ret tt, s')
             /\ frame (fst <$> layout) s s'.
Proof.
  unfold retry_load, try_except. destruct locals as [sd|].
  - pose proof (load_state_dict_frame layout sd s) as Hf.
    destruct (load_state_dict layout sd s) as [[[]|err] s1]; by eexists.
  - eexists. split; [reflexivity|apply frame_refl].
Qed.

(** So does the whole [try] statement. *)
Lemma load_weights_returns w layout path s :
  exists s', load_weights w layout path s = (Ret tt, s')
             /\ frame (fst <$> layout) s s'.
Proof.
  unfold load_weights, load_checkpoint.
  destruct (rbind (torch_load w path) _) as [state_dict|e].
  2: { apply retry_load_returns. }
  destruct (py_items state_dict) as [items|e].
  2: { apply retry_load_returns. }
  destruct (strip_loop items []) as [new_state_dict [e|]].
  { apply retry_load_returns. }
  pose proof (load_state_dict_frame layout new_state_dict s) as Hf.
  destruct (load_state_dict layout new_state_dict s) as [[[]|e] s1].
  - by eexists.
  - destruct (retry_load_returns layout (Some new_state_dict) s1) as (s2 & Hr & Hf2).
    exists s2. split; [done|]. by eapply frame_trans.
Qed.

Lemma load_model_weights_returns w m mp s :
  exists s', load_model_weights w m mp s = (Ret tt, s')
    /\ training s' = false /\ rng s' = rng s
    /\ (forall name, name ∉ fst <$> BryoFormer_params "" m ->
          store s' !! name = store s !! name)
    /\ (checkpoint_found w mp = false -> store s' = store s).
Proof.
  unfold load_model_weights, checkpoint_found, bind.
  destruct mp as [path|];
    [destruct (negb (bool_decide (path = "")) && path_exists w path)|].
  - destruct (load_weights_returns w (BryoFormer_params "" m) path s)
      as (s1 & -> & (Ht & Hg & Hs)).
    eexists. split; [reflexivity|]. cbn. split_and!; done.
  - eexists. split; [reflexivity|]. cbn. split_and!; done.
  - eexists. split; [reflexivity|]. cbn. split_and!; done.
Qed.

Lemma BryoFormer_init_service num_classes :
  exists m, BryoFormer_init 224 16 3 num_classes 384 8 2 None false 0 0 0 = Ret m
    /\ bf_head m = (if 0 <? num_classes then Some (mkLinear 384 num_classes)
                    else None).
Proof. destruct num_classes; vm_compute; eexists; split; reflexivity. Qed.

Lemma load_model_returns w num_classes model_path g :
  exists m s,
    load_model w num_classes model_path g = Ret (m, s)
    /\ BryoFormer_init 224 16 3 num_classes 384 8 2 None false 0 0 0 = Ret m
    /\ training s = false
    /\ (forall name, name ∉ fst <$> BryoFormer_params "" m ->
          store s !! name = None)
    /\ (checkpoint_found w model_path = false -> store s = ∅).
Proof.
  destruct (BryoFormer_init_service num_classes) as (m & Hm & _).
  destruct (load_model_weights_returns w m model_path (fresh_state g))
    as (s & Hs & Ht & Hg & Hst & Hnone).
  exists m, s. split_and!; [|done|done| |done].
  - unfold load_model. rewrite Hm. cbn [rbind]. by rewrite Hs.
  - intros name Hn. by rewrite Hst.
Qed.

(** C7.  Whatever the checkpoint path leads to, [load_model] returns a model
    in evaluation mode and so does the constructor of the pipeline object.  The
    loaded state holds values for parameters of the model only, every other
    parameter keeping its initial value, and holds none at all when no
    checkpoint file is found. *)
Theorem load_model_never_raises w num_classes model_path g :
  exists m s,
    load_model w num_classes model_path g = Ret (m, s)
    /\ BryoFormer_init 224 16 3 num_classes 384 8 2 None false 0 0 0 = Ret m
    /\ training s = false
    /\ (forall name, name ∉ fst <$> BryoFormer_params "" m ->
          store s !! name = None)
    /\ (checkpoint_found w model_path = false -> store s = ∅)
    /\ forall class_file,
         PlantRecognitionModel_init w class_file model_path num_classes g
         = Ret (mkPlantRecognitionModel num_classes m s
                  (load_class_names class_file)).
Proof.
  destruct (load_model_returns w num_classes model_path g)
    as (m & s & Hl & Hm & Ht & Hst & Hnone).
  exists m, s. split; [exact Hl|]. split; [exact Hm|]. split; [exact Ht|].
  split; [exact Hst|]. split; [exact Hnone|].
  intros class_file. unfold PlantRecognitionModel_init. rewrite Hl. reflexivity.
Qed.

End Loading.


(** ** The length of the ranked list (C1) *)

Section RankedList.
Context `{Numerics}.

(** The model the service builds maps one image to one row of
    [num_classes] logits. *)
Lemma service_logits_shape n m d st g :
  BryoFormer_init 224 16 3 (S n) 384 8 2 None false 0 0 0 = Ret m ->
  res_shape (fst (BryoFormer_forward "" m (mkTensor [1; 3; 224; 224] d)
                    (mkSt st false g)))
  = Some [1; S n].
Proof.
  intros Hm. vm_compute in Hm. injection Hm as <-. vm_compute. reflexivity.
Qed.


(** What [predict] hands to [topk] on the service's model in evaluation
    mode: a vector of [num_classes] probabilities, the state untouched. *)
Lemma predict_topk_service w self path k width height pixels n :
  BryoFormer_init 224 16 3 (S n) 384 8 2 None false 0 0 0 = Ret (model self) ->
  training (model_state self) = false ->
  files w !! path = Some (FImage width height pixels) ->
  exists probabilities,
    tshape probabilities = [S n]
    /\ predict_topk w self path k (model_state self)
       = (topk probabilities k, model_state self).
Proof.
  intros Hm Heval Hfile. destruct self as [nc m [st tr g] cn].
  cbn [model model_state training] in *. subst tr.
  unfold predict_topk, Image_open. rewrite Hfile.
  unfold bind at 1. unfold lift at 1. cbn iota beta.
  change (unsqueeze0 (transform (width, height, pixels)))
    with (mkTensor [1; 3; 224; 224]
            (prim "transform" [] [[height; width; 3]] [pixels])).
  pose proof (service_logits_shape n m
                (prim "transform" [] [[height; width; 3]] [pixels]) st g Hm) as Hsh.
  destruct (eval_pure_BryoFormer "" m
              (mkTensor [1; 3; 224; 224]
                 (prim "transform" [] [[height; width; 3]] [pixels])) st)
    as [r Hr].
  rewrite Hr in Hsh. cbn [fst] in Hsh.
  destruct r as [[sh dat]|e]; [|done]. injection Hsh as ->.
  unfold bind at 1. cbn [model]. rewrite Hr.
  eexists. split; [|reflexivity]. reflexivity.
Qed.


End RankedList.


(** ** The pipeline run on [demo_world] *)

Section DemoRuns.
#[local] Existing Instance run_numerics.


Lemma demo_selection k (top : list Z * list nat) :
  fst (predict_topk demo_world demo_pipeline "uploads/leaf.jpg" k
         (model_state demo_pipeline)) = Ret top ->
  predict_topk demo_world demo_pipeline "uploads/leaf.jpg" k
    (model_state demo_pipeline) = (Ret top, model_state demo_pipeline).
Proof.
  intros Htop.
  destruct (predict_topk_service demo_world demo_pipeline "uploads/leaf.jpg" k
              640 480 [7%Z] 43) as (probs & _ & Heq);
    [vm_compute; reflexivity..|].
  rewrite Heq in Htop |- *. cbn [fst] in Htop. rewrite Htop. reflexivity.
Qed.



(** Seven classes selected, two of them outside the built-in table. *)
Lemma absent_classes_omitted_witness :
  predict_topk demo_world demo_pipeline "uploads/leaf.jpg" 7
    (model_state demo_pipeline)
  = (Ret ([7; 0; 0; 0; 0; 0; 0]%Z, [0; 1; 2; 3; 4; 5; 6]),
     model_state demo_pipeline)
  /\ success (fst (predict demo_world demo_pipeline "uploads/leaf.jpg" 7)) = true
  /\ forall p,
       p ∈ predictions (fst (predict demo_world demo_pipeline "uploads/leaf.jpg" 7)) ->
       p !! "class_id" <> Some (VInt 6).
Proof.
  assert (Htop : predict_topk demo_world demo_pipeline "uploads/leaf.jpg" 7
                   (model_state demo_pipeline)
                 = (Ret ([7; 0; 0; 0; 0; 0; 0]%Z, [0; 1; 2; 3; 4; 5; 6]),
                    model_state demo_pipeline)).
  { apply demo_selection. vm_compute. reflexivity. }
  split; [exact Htop|].
  destruct (absent_classes_omitted _ _ _ _ _ _ _ Htop) as (Hs & Habs & _).
  split; [exact Hs|].
  apply (Habs 6).
  - repeat first [left | right].
  - vm_compute. reflexivity.
Defined.

(** An empty class file: nothing selected is in the table. *)
Lemma no_known_class_empty_result_witness :
  predict_topk demo_world unlabelled_pipeline "uploads/leaf.jpg" 3
    (model_state unlabelled_pipeline)
  = (Ret ([7; 0; 0]%Z, [0; 1; 2]), model_state unlabelled_pipeline)
  /\ fst (predict demo_world unlabelled_pipeline "uploads/leaf.jpg" 3)
     = Success [] None.
Proof.
  assert (Htop : predict_topk demo_world unlabelled_pipeline "uploads/leaf.jpg" 3
                   (model_state unlabelled_pipeline)
                 = (Ret ([7; 0; 0]%Z, [0; 1; 2]), model_state unlabelled_pipeline)).
  { destruct (predict_topk_service demo_world unlabelled_pipeline
                "uploads/leaf.jpg" 3 640 480 [7%Z] 43) as (probs & _ & Heq);
      [vm_compute; reflexivity..|].
    assert (Hsel : fst (predict_topk demo_world unlabelled_pipeline
                          "uploads/leaf.jpg" 3 (model_state unlabelled_pipeline))
                   = Ret ([7; 0; 0]%Z, [0; 1; 2])) by (vm_compute; reflexivity).
    rewrite Heq in Hsel |- *. cbn [fst] in Hsel. rewrite Hsel. reflexivity. }
  split; [exact Htop|].
  apply (no_known_class_empty_result _ _ _ _ _ _ _ Htop).
  intros idx Hidx. vm_compute. reflexivity.
Defined.

(** Two calls in a row on the service's pipeline. *)
Lemma predict_deterministic_witness :
  training (model_state demo_pipeline) = false
  /\ predict demo_world
       (snd (predict demo_world demo_pipeline "uploads/leaf.jpg" 3))
       "uploads/leaf.jpg" 3
     = predict demo_world demo_pipeline "uploads/leaf.jpg" 3.
Proof.
  assert (Heval : training (model_state demo_pipeline) = false)
    by (vm_compute; reflexivity).
  split; [exact Heval|].
  pose proof (predict_deterministic demo_world demo_pipeline "uploads/leaf.jpg" 3
                Heval) as Hd.
  destruct (predict demo_world demo_pipeline "uploads/leaf.jpg" 3) as [r1 self1].
  destruct Hd as (-> & Hagain & _). exact Hagain.
Defined.

(** A checkpoint saved from a wrapped model, with one entry of the right
    shape, one of a wrong shape and one unknown name: [load_state_dict] raises
    after copying what fits, the retry raises again and is caught, and the
    model keeps [head.bias] from the file and its initial [norm.weight]. *)
Example load_model_partial_checkpoint :
  exists m s,
    load_model demo_world 44 (Some "weights/wrapped.pth") 0 = Ret (m, s)
    /\ store s !! "head.bias" = Some [1%Z]
    /\ store s !! "norm.weight" = None
    /\ training s = false.
Proof.
  eexists _, _. split; [vm_compute; reflexivity|].
  split; [vm_compute; reflexivity|]. split; vm_compute; reflexivity.
Qed.

(** A file that is no checkpoint, and no file at all: initial weights. *)
Example load_model_without_weights :
  (exists m s, load_model demo_world 44 (Some "weights/broken.pth") 0 = Ret (m, s)
               /\ store s = ∅)
  /\ (exists m s, load_model demo_world 44 (Some "weights/missing.pth") 0
                  = Ret (m, s) /\ store s = ∅).
Proof.
  split; (eexists _, _; split; [vm_compute; reflexivity|]; vm_compute; reflexivity).
Qed.

(** Evaluation mode matters: the same pipeline put back in training mode
    counts the batch in its BatchNorm layers, so a call changes the state of
    the model. *)
Example training_mode_writes_state :
  let self := with_state demo_pipeline
                (mkSt (store (model_state demo_pipeline)) true 0) in
  store (model_state (snd (predict demo_world self "uploads/leaf.jpg" 3)))
    !! "blocks.4.attn_module.spatial_att.bn.num_batches_tracked"
  <> store (model_state self)
       !! "blocks.4.attn_module.spatial_att.bn.num_batches_tracked".
Proof. vm_compute. discriminate. Qed.

End DemoRuns.

(** ** Shapes through the blocks (C6) and the bridge (C5) *)

Section ShapeCalculus.
Context `{Numerics}.

Lemma shaped_ret tr t sh : tshape t = sh -> shaped tr (ret t) sh.
Proof. intros Ht s Hs. by exists t, s. Qed.

Lemma shaped_lift tr r sh : rshape r sh -> shaped tr (lift r) sh.
Proof. intros (t & -> & Ht) s Hs. by exists t, s. Qed.

Lemma shaped_bind tr m f sh sh' :
  shaped tr m sh ->
  (forall t, tshape t = sh -> shaped tr (f t) sh') ->
  shaped tr (bind m f) sh'.
Proof.
  intros Hm Hf s Hs. destruct (Hm s Hs) as (t & s1 & Hr & Ht & Hs1).
  destruct (Hf t Ht s1 Hs1) as (t' & s2 & Hr' & Ht' & Hs2).
  exists t', s2. unfold bind. by rewrite Hr, Hr'.
Qed.

Lemma shaped_bind_lift tr r f sh sh' :
  rshape r sh ->
  (forall t, tshape t = sh -> shaped tr (f t) sh') ->
  shaped tr (bind (lift r) f) sh'.
Proof. intros Hr. apply shaped_bind. by apply shaped_lift. Qed.

Lemma shaped_bind_param tr name psh f sh' :
  (forall t, tshape t = psh -> shaped tr (f t) sh') ->
  shaped tr (bind (param name psh) f) sh'.
Proof.
  intros Hf. eapply shaped_bind; [|exact Hf].
  intros s Hs. eexists _, s. by split_and!.
Qed.

Lemma shaped_bind_training tr (f : bool -> M Tensor) sh :
  shaped tr (f tr) sh -> shaped tr (bind get_training f) sh.
Proof.
  intros Hf s Hs. destruct (Hf s Hs) as (t & s' & Hr & Ht & Hs').
  exists t, s'. unfold bind, get_training. by rewrite Hs.
Qed.

(** *** Pure operators *)

Lemma view_rshape x sh :
  numel sh = numel (tshape x) -> rshape (view x sh) sh.
Proof.
  intros Hn. unfold view. rewrite Hn, Nat.eqb_refl. by eexists.
Qed.

Lemma reshape_rshape x sh :
  numel sh = numel (tshape x) -> rshape (reshape x sh) sh.
Proof.
  intros Hn. unfold reshape. rewrite Hn, Nat.eqb_refl. by eexists.
Qed.

Lemma reshape_infer_rshape x sh m :
  numel (tshape x) = numel sh * m -> numel sh <> 0 ->
  rshape (reshape_infer x sh) (sh ++ [m]).
Proof.
  intros Hn Hk. unfold reshape_infer.
  destruct (Nat.eqb_spec (numel sh) 0) as [?|_]; [done|].
  rewrite Hn, Nat.mul_comm, Nat.Div0.mod_mul, Nat.div_mul by done.
  simpl. by eexists.
Qed.

Lemma transpose_rshape x i j a b :
  tshape x !! i = Some a -> tshape x !! j = Some b ->
  rshape (transpose x i j) (<[j:=a]> (<[i:=b]> (tshape x))).
Proof.
  intros Hi Hj. unfold transpose, swap_dims. rewrite Hi, Hj. by eexists.
Qed.

Lemma flatten2_rshape x B C Hh W :
  tshape x = [B; C; Hh; W] -> rshape (flatten x 2) [B; C; Hh * W].
Proof.
  intros Hx. unfold flatten. rewrite Hx. simpl. eexists. split; [done|].
  simpl. by rewrite Nat.mul_1_r.
Qed.

Lemma broadcast_rev_same l : broadcast_rev l l = Some l.
Proof.
  induction l as [|a l IH]; [done|]. simpl. by rewrite Nat.eqb_refl, IH.
Qed.

Lemma broadcast_rev_prefix l l' : broadcast_rev (l ++ l') l = Some (l ++ l').
Proof.
  induction l as [|a l IH]; simpl; [by destruct l'|].
  by rewrite Nat.eqb_refl, IH.
Qed.

Lemma broadcast_same sh : broadcast sh sh = Some sh.
Proof.
  unfold broadcast. rewrite broadcast_rev_same. simpl. by rewrite reverse_involutive.
Qed.

Lemma broadcast_suffix l l' : broadcast (l ++ l') l' = Some (l ++ l').
Proof.
  unfold broadcast. rewrite reverse_app, broadcast_rev_prefix. simpl.
  by rewrite <- reverse_app, reverse_involutive.
Qed.

Lemma broadcast_one a : (if a =? 1 then Some 1 else if a =? 1 then Some 1 else Some a) = Some a.
Proof. by destruct (Nat.eqb_spec a 1) as [->|]. Qed.

Lemma broadcast_spatial B C Hh W :
  broadcast [B; C; Hh; W] [B; C; 1; 1] = Some [B; C; Hh; W].
Proof.
  unfold broadcast. cbn.
  destruct (Nat.eqb_spec W 1) as [->|]; destruct (Nat.eqb_spec Hh 1) as [->|];
    cbn; rewrite ?Nat.eqb_refl; cbn; rewrite ?Nat.eqb_refl; reflexivity.
Qed.

Lemma broadcast_channel B C Hh W :
  broadcast [B; C; Hh; W] [B; 1; Hh; W] = Some [B; C; Hh; W].
Proof.
  unfold broadcast. cbn. rewrite !Nat.eqb_refl. cbn.
  destruct (Nat.eqb_spec C 1) as [->|]; cbn; rewrite ?Nat.eqb_refl; reflexivity.
Qed.

Lemma binop_rshape name x y sh :
  broadcast (tshape x) (tshape y) = Some sh -> rshape (binop name x y) sh.
Proof. intros Hb. unfold binop. rewrite Hb. by eexists. Qed.

Lemma add_same x y sh :
  tshape x = sh -> tshape y = sh -> rshape (add x y) sh.
Proof.
  intros Hx Hy. apply binop_rshape. rewrite Hx, Hy. apply broadcast_same.
Qed.

Lemma softmax_rshape x dim :
  dim < length (tshape x) -> rshape (softmax x dim) (tshape x).
Proof.
  intros Hd. unfold softmax. destruct (Nat.ltb_spec dim (length (tshape x))); [|lia].
  by eexists.
Qed.

Lemma rfft2_rshape x B a b C :
  tshape x = [B; a; b; C] -> a <> 0 -> b <> 0 ->
  rshape (rfft2 x) [B; a; b / 2 + 1; C].
Proof.
  intros Hx Ha Hb. unfold rfft2. rewrite Hx.
  destruct (Nat.eqb_spec a 0); [done|]. destruct (Nat.eqb_spec b 0); [done|].
  by eexists.
Qed.

Lemma irfft2_rshape x B a' b' C a b :
  tshape x = [B; a'; b'; C] -> a <> 0 -> b <> 0 -> a' <> 0 -> b' <> 0 ->
  rshape (irfft2 x a b) [B; a; b; C].
Proof.
  intros Hx Ha Hb Ha' Hb'. unfold irfft2. rewrite Hx.
  destruct (Nat.eqb_spec a 0); [done|]. destruct (Nat.eqb_spec b 0); [done|].
  destruct (Nat.eqb_spec a' 0); [done|]. destruct (Nat.eqb_spec b' 0); [done|].
  by eexists.
Qed.

Lemma matmul_rshape x y B h n d m :
  tshape x = [B; h; n; d] -> tshape y = [B; h; d; m] ->
  rshape (matmul x y) [B; h; n; m].
Proof.
  intros Hx Hy. unfold matmul. rewrite Hx, Hy, !Nat.eqb_refl. by eexists.
Qed.

Lemma cat1_rshape x y B C1 C2 Hh W :
  tshape x = [B; C1; Hh; W] -> tshape y = [B; C2; Hh; W] ->
  rshape (cat1 x y) [B; C1 + C2; Hh; W].
Proof.
  intros Hx Hy. unfold cat1, shape_eqb. rewrite Hx, Hy.
  rewrite bool_decide_eq_true_2 by done. by eexists.
Qed.

Lemma mean_keep1_rshape x B C Hh W :
  tshape x = [B; C; Hh; W] -> rshape (mean_keep1 x) [B; 1; Hh; W].
Proof. intros Hx. unfold mean_keep1. rewrite Hx. by eexists. Qed.

Lemma max_keep1_rshape x B C Hh W :
  tshape x = [B; C; Hh; W] -> C <> 0 -> rshape (max_keep1 x) [B; 1; Hh; W].
Proof.
  intros Hx HC. unfold max_keep1. rewrite Hx.
  destruct (Nat.eqb_spec C 0); [done|]. by eexists.
Qed.

Lemma AdaptiveAvgPool2d1_rshape x B C Hh W :
  tshape x = [B; C; Hh; W] -> C <> 0 -> Hh <> 0 -> W <> 0 ->
  rshape (AdaptiveAvgPool2d1_forward x) [B; C; 1; 1].
Proof.
  intros Hx HC HH HW. unfold AdaptiveAvgPool2d1_forward. rewrite Hx.
  destruct (Nat.eqb_spec C 0); [done|]. destruct (Nat.eqb_spec Hh 0); [done|].
  destruct (Nat.eqb_spec W 0); [done|]. by eexists.
Qed.

Lemma AvgPool2d_rshape x B C Hh :
  tshape x = [B; C; Hh; Hh] -> 2 <= Hh ->
  rshape (AvgPool2d_forward 2 x) [B; C; Hh / 2; Hh / 2].
Proof.
  intros Hx HH.
  assert (Hd : (Hh - 2) / 2 + 1 = Hh / 2).
  { replace Hh with ((Hh - 2) + 1 * 2) at 2 by lia. rewrite Nat.div_add by lia. done. }
  unfold AvgPool2d_forward. rewrite Hx. cbn [Nat.eqb orb].
  destruct (Nat.ltb_spec Hh 2); [lia|]. cbn [orb].
  rewrite Hd. by eexists.
Qed.

(** *** Layers *)

Lemma bind_lift_ret {A B : Type} (a : A) (f : A -> M B) :
  bind (lift (Ret a)) f = f a.
Proof. reflexivity. Qed.

Lemma conv_out_same c n :
  c_stride c = 1 -> c_kernel c = 2 * c_padding c + 1 -> 1 <= n ->
  conv_out c n = Ret n.
Proof.
  intros Hs Hk Hn. unfold conv_out. rewrite Hs, Hk, Nat.div_1_r.
  destruct (Nat.ltb_spec (n + 2 * c_padding c) (2 * c_padding c + 1)); [lia|].
  f_equal. lia.
Qed.

Lemma Conv2d_shaped tr pre c x B Hh W Ho Wo :
  tshape x = [B; c_in c; Hh; W] ->
  conv_out c Hh = Ret Ho -> conv_out c W = Ret Wo ->
  shaped tr (Conv2d_forward pre c x) [B; c_out c; Ho; Wo].
Proof.
  intros Hx HHo HWo. unfold Conv2d_forward.
  rewrite Hx, Nat.eqb_refl. cbn [negb]. rewrite HHo, HWo, !bind_lift_ret.
  cbn zeta. apply shaped_bind_param. intros w _.
  destruct (c_bias c); [apply shaped_bind_param; intros b _|];
    by apply shaped_ret.
Qed.

(** A convolution with stride 1 and padding [(k - 1) / 2] keeps the grid. *)
Lemma Conv2d_shaped_same tr pre c x B Hh W :
  tshape x = [B; c_in c; Hh; W] ->
  c_stride c = 1 -> c_kernel c = 2 * c_padding c + 1 -> 1 <= Hh -> 1 <= W ->
  shaped tr (Conv2d_forward pre c x) [B; c_out c; Hh; W].
Proof.
  intros Hx Hs Hk HH HW. eapply Conv2d_shaped; [done|by apply conv_out_same..].
Qed.

Lemma Linear_shaped tr pre l x B N :
  tshape x = [B; N; l_in l] ->
  shaped tr (Linear_forward pre l x) [B; N; l_out l].
Proof.
  intros Hx. unfold Linear_forward. rewrite Hx. cbn [reverse rev_append].
  rewrite Nat.eqb_refl. cbn [negb].
  apply shaped_bind_param. intros w _. apply shaped_bind_param. intros b _.
  by apply shaped_ret.
Qed.

Lemma LayerNorm_shaped tr pre l x B N :
  tshape x = [B; N; ln_dim l] ->
  shaped tr (LayerNorm_forward pre l x) [B; N; ln_dim l].
Proof.
  intros Hx. unfold LayerNorm_forward. rewrite Hx. cbn [reverse rev_append].
  rewrite Nat.eqb_refl. cbn [negb].
  apply shaped_bind_param. intros w _. apply shaped_bind_param. intros b _.
  by apply shaped_ret.
Qed.

Lemma BatchNorm2d_shaped tr pre b x B Hh W :
  tshape x = [B; bn_features b; Hh; W] ->
  tr = false \/ B * Hh * W <> 1 ->
  shaped tr (BatchNorm2d_forward pre b x) [B; bn_features b; Hh; W].
Proof.
  intros Hx Hok s Hs. unfold BatchNorm2d_forward. rewrite Hx.
  unfold bind, get_training, param, set_buffer, ret, raise. rewrite Hs.
  destruct tr.
  - destruct Hok as [?|Hok]; [done|].
    destruct (Nat.eqb_spec (B * Hh * W) 1); [done|].
    cbn. rewrite Nat.eqb_refl. cbn. eexists _, _. split; [reflexivity|].
    split; [reflexivity|done].
  - cbn. rewrite Nat.eqb_refl. cbn. eexists _, _. split; [reflexivity|].
    split; [reflexivity|done].
Qed.

Lemma Dropout_shaped tr d x : shaped tr (Dropout_forward d x) (tshape x).
Proof.
  intros s Hs. unfold Dropout_forward, bind, get_training, draw, ret.
  destruct (training s && Qpos (d_p d));
    (eexists _, _; split; [reflexivity|]; split; [reflexivity|exact Hs]).
Qed.

Lemma drop_path_shaped tr p x : shaped tr (drop_path_forward p x) (tshape x).
Proof.
  intros s Hs. unfold drop_path_forward, bind, get_training, draw, ret.
  destruct (Qpos p); [destruct (training s) eqn:Htr|];
    (eexists _, _; split; [reflexivity|]; split; [reflexivity|]);
    cbn; congruence.
Qed.

(** *** The modules of bryoFormer.py *)

Lemma numel_grid B a C : numel [B; a; a; C] = numel [B; a * a; C].
Proof. unfold numel. simpl. lia. Qed.

(** A spectral gate built for an [h] by [h] grid keeps the shape of a
    sequence of [h * h] tokens of its width. *)
Lemma SpectralGatingNetwork_shaped tr pre m x B h :
  sgn_w m = sgn_h m / 2 + 1 -> sgn_h m = h -> 1 <= h ->
  tshape x = [B; h * h; sgn_dim m] ->
  shaped tr (SpectralGatingNetwork_forward pre m x None) [B; h * h; sgn_dim m].
Proof.
  intros Hw Hh Hh1 Hx. unfold SpectralGatingNetwork_forward. rewrite Hx.
  unfold isqrt. rewrite Nat.sqrt_square.
  eapply shaped_bind_lift.
  { apply view_rshape. rewrite Hx. apply numel_grid. }
  intros x1 Hx1. eapply shaped_bind_lift.
  { apply (rfft2_rshape _ B h h (sgn_dim m)); [exact Hx1|lia..]. }
  intros x2 Hx2. apply shaped_bind_param. intros cw Hcw.
  unfold view_as_complex. rewrite Hcw. cbn [reverse rev_append].
  rewrite bind_lift_ret.
  eapply shaped_bind_lift.
  { apply binop_rshape. rewrite Hx2. cbn [tshape]. rewrite Hw, Hh.
    apply (broadcast_suffix [B] [h; h / 2 + 1; sgn_dim m]). }
  intros x3 Hx3. eapply shaped_bind_lift.
  { apply (irfft2_rshape _ B h (h / 2 + 1) (sgn_dim m) h h); [exact Hx3|lia..]. }
  intros x4 Hx4. apply shaped_lift, reshape_rshape.
  rewrite Hx4. symmetry. apply numel_grid.
Qed.

Lemma Conv2d_init_inv cin cout k stride padding groups bias c :
  Conv2d_init cin cout k stride padding groups bias = Ret c ->
  c = mkConv2d cin cout k stride padding groups bias /\ groups <> 0.
Proof.
  unfold Conv2d_init. destruct (Nat.eqb_spec groups 0); [done|].
  destruct (negb (cin mod groups =? 0)); [done|].
  destruct (negb (cout mod groups =? 0)); [done|].
  by intros [= <-].
Qed.

Lemma ChannelAttention_shaped tr pre m x dim B Hh W :
  ChannelAttention_init dim 4 = Ret m ->
  tshape x = [B; dim; Hh; W] -> 1 <= Hh -> 1 <= W ->
  shaped tr (ChannelAttention_forward pre m x) [B; dim; Hh; W].
Proof.
  intros Hm Hx HH HW. unfold ChannelAttention_init, floordiv in Hm.
  cbn [Nat.eqb rbind] in Hm. ret_inv Hm. injection Hm as <-.
  apply Conv2d_init_inv in E as [-> Hr]. apply Conv2d_init_inv in E0 as [-> _].
  assert (Hdim : dim <> 0) by (intros ->; by apply Hr).
  unfold ChannelAttention_forward. cbn [ca_conv_reduce ca_conv_expand].
  eapply shaped_bind_lift.
  { apply (AdaptiveAvgPool2d1_rshape _ B dim Hh W); [exact Hx|lia..]. }
  intros y Hy. eapply shaped_bind.
  { apply (Conv2d_shaped_same _ _ _ _ B 1 1); [exact Hy|done|done|lia|lia]. }
  cbn [c_out]. intros y1 Hy1. eapply shaped_bind.
  { apply (Conv2d_shaped_same _ _ _ (unary "relu" y1) B 1 1);
      [exact Hy1|done|done|lia|lia]. }
  cbn [c_out]. intros y2 Hy2. apply shaped_lift, binop_rshape.
  rewrite Hx. cbn [unary tshape]. rewrite Hy2. apply broadcast_spatial.
Qed.

Lemma SpatialAttention_shaped tr pre m x dim B Hh W :
  SpatialAttention_init dim 3 = Ret m ->
  tshape x = [B; dim; Hh; W] -> 1 <= Hh -> 1 <= W ->
  tr = false \/ B * Hh * W <> 1 ->
  shaped tr (SpatialAttention_forward pre m x) [B; dim; Hh; W].
Proof.
  intros Hm Hx HH HW Hbn. unfold SpatialAttention_init in Hm.
  ret_inv Hm. injection Hm as <-.
  apply Conv2d_init_inv in E as [-> Hdim]. apply Conv2d_init_inv in E0 as [-> _].
  unfold SpatialAttention_forward. cbn [sa_dw_conv sa_bn sa_conv_att].
  eapply shaped_bind.
  { apply (Conv2d_shaped_same _ _ _ _ B Hh W); [exact Hx|done|done|lia|lia]. }
  cbn [c_out]. intros x1 Hx1. eapply shaped_bind.
  { apply (BatchNorm2d_shaped _ _ (mkBatchNorm2d dim) _ B Hh W); [exact Hx1|exact Hbn]. }
  cbn [bn_features]. intros x2 Hx2. eapply shaped_bind_lift.
  { apply (mean_keep1_rshape _ B dim Hh W). exact Hx2. }
  intros avg_out Havg. eapply shaped_bind_lift.
  { apply (max_keep1_rshape _ B dim Hh W); [exact Hx2|exact Hdim]. }
  intros max_out Hmax. eapply shaped_bind_lift.
  { apply (cat1_rshape _ _ B 1 1 Hh W); [exact Havg|exact Hmax]. }
  intros c Hc. eapply shaped_bind.
  { apply (Conv2d_shaped_same _ _ _ _ B Hh W); [exact Hc|done|done|lia|lia]. }
  cbn [c_out]. intros att Hatt. apply shaped_lift, binop_rshape.
  rewrite Hx2. cbn [unary tshape]. rewrite Hatt. apply broadcast_channel.
Qed.

Lemma FeatureFusion_shaped tr pre m x c sp dim B Hh W :
  FeatureFusion_init dim = Ret m ->
  tshape c = [B; dim; Hh; W] -> tshape sp = [B; dim; Hh; W] ->
  1 <= Hh -> 1 <= W -> tr = false \/ B * Hh * W <> 1 ->
  shaped tr (FeatureFusion_forward pre m x c sp) [B; dim; Hh; W].
Proof.
  intros Hm Hc Hsp HH HW Hbn. unfold FeatureFusion_init in Hm.
  ret_inv Hm. injection Hm as <-. apply Conv2d_init_inv in E as [-> _].
  unfold FeatureFusion_forward. cbn [ff_conv ff_bn].
  eapply shaped_bind_lift.
  { apply (cat1_rshape _ _ B dim dim Hh W); [exact Hc|exact Hsp]. }
  intros fused Hf. eapply shaped_bind.
  { apply (Conv2d_shaped_same _ _ _ _ B Hh W); [|done|done|lia|lia].
    rewrite Hf. cbn [c_in]. do 2 f_equal. lia. }
  cbn [c_out]. intros y Hy. eapply shaped_bind.
  { apply (BatchNorm2d_shaped _ _ (mkBatchNorm2d dim) _ B Hh W); [exact Hy|exact Hbn]. }
  cbn [bn_features]. intros y1 Hy1. by apply shaped_ret.
Qed.

Lemma AttentionModule_shaped tr pre m x dim B Hh W :
  AttentionModule_init dim 4 3 = Ret m ->
  tshape x = [B; dim; Hh; W] -> 1 <= Hh -> 1 <= W ->
  tr = false \/ B * Hh * W <> 1 ->
  shaped tr (AttentionModule_forward pre m x) [B; dim; Hh; W].
Proof.
  intros Hm Hx HH HW Hbn. unfold AttentionModule_init in Hm.
  ret_inv Hm. injection Hm as <-.
  unfold AttentionModule_forward.
  cbn [am_channel_att am_spatial_att am_fusion].
  eapply shaped_bind; [by eapply ChannelAttention_shaped|].
  intros c Hc. eapply shaped_bind; [by eapply SpatialAttention_shaped|].
  intros sp Hsp. by eapply FeatureFusion_shaped.
Qed.

(** A bridge built for an [h] by [h] grid keeps the shape of a sequence of
    [h * h] tokens of its width. *)
Lemma FreqTimeBridge_shaped tr pre m x dim B h :
  FreqTimeBridge_init dim h (h / 2 + 1) = Ret m ->
  1 <= h -> tshape x = [B; h * h; dim] ->
  tr = false \/ B * h * h <> 1 ->
  shaped tr (FreqTimeBridge_forward pre m x) [B; h * h; dim].
Proof.
  intros Hm Hh Hx Hbn. unfold FreqTimeBridge_init in Hm.
  ret_inv Hm. injection Hm as <-.
  unfold FreqTimeBridge_forward. rewrite Hx.
  cbn [ftb_spectral ftb_norm ftb_attn_module ftb_proj].
  unfold isqrt. rewrite Nat.sqrt_square.
  eapply shaped_bind.
  { apply (LayerNorm_shaped _ _ (mkLayerNorm dim)). exact Hx. }
  cbn [ln_dim]. intros x_norm Hn. eapply shaped_bind.
  { apply (SpectralGatingNetwork_shaped _ _ (mkSpectralGatingNetwork dim h (h / 2 + 1))
             _ B h); [done|done|exact Hh|exact Hn]. }
  cbn [sgn_dim]. intros x_freq Hf. eapply shaped_bind_lift.
  { apply (transpose_rshape _ 1 2 (h * h) dim); by rewrite Hf. }
  rewrite Hf. cbn [insert list_insert]. intros t Ht. eapply shaped_bind_lift.
  { apply view_rshape. rewrite Ht. unfold numel. simpl. lia. }
  intros x_2d H2d. eapply shaped_bind.
  { by eapply (AttentionModule_shaped _ _ _ _ dim B h h). }
  intros x_attn Hattn. eapply shaped_bind_lift.
  { by apply (flatten2_rshape _ B dim h h). }
  intros f Hfl. eapply shaped_bind_lift.
  { apply (transpose_rshape _ 1 2 dim (h * h)); by rewrite Hfl. }
  rewrite Hfl. cbn [insert list_insert]. intros x_fused Hfu. eapply shaped_bind.
  { apply (Linear_shaped _ _ (mkLinear dim dim)). exact Hfu. }
  cbn [l_out]. intros p Hp. apply shaped_bind_param. intros alpha _.
  apply shaped_lift, add_same; [exact Hx|exact Hp].
Qed.

Lemma Mlp_init_inv dim hidden drop m :
  Mlp_init dim hidden None drop = Ret m ->
  l_in (mlp_fc1 m) = dim /\ l_in (mlp_fc2 m) = l_out (mlp_fc1 m)
  /\ l_out (mlp_fc2 m) = dim.
Proof.
  unfold Mlp_init. destruct hidden as [[| |]|]; try done;
    (destruct (Dropout_init drop); [|done]); by intros [= <-].
Qed.

Lemma Mlp_shaped tr pre m x dim hidden drop B N :
  Mlp_init dim hidden None drop = Ret m ->
  tshape x = [B; N; dim] ->
  shaped tr (Mlp_forward pre m x) [B; N; dim].
Proof.
  intros (H1 & H2 & H3)%Mlp_init_inv Hx. unfold Mlp_forward.
  eapply shaped_bind.
  { apply Linear_shaped. by rewrite H1. }
  intros x1 Hx1. eapply shaped_bind; [apply Dropout_shaped|].
  cbn [unary tshape]. intros x2 Hx2. eapply shaped_bind.
  { apply Linear_shaped. by rewrite Hx2, Hx1, H2. }
  rewrite H3. intros x3 Hx3. rewrite <- Hx3. apply Dropout_shaped.
Qed.

Lemma sr_shaped tr pre x dim B h :
  tshape x = [B; dim; h; h] -> 2 <= h ->
  tr = false \/ B * (h / 2) * (h / 2) <> 1 ->
  shaped tr
    (sr_forward pre
       (Some (mkSrSequential 2 (mkConv2d dim dim 3 1 1 dim false)
                (mkBatchNorm2d dim) (mkConv2d dim dim 1 1 0 dim false)
                (mkBatchNorm2d dim))) x)
    [B; dim; h / 2; h / 2].
Proof.
  intros Hx Hh Hbn.
  assert (Hh2 : 1 <= h / 2) by (apply Nat.div_le_lower_bound; lia).
  unfold sr_forward. cbn [sr_pool sr_conv1 sr_bn1 sr_conv2 sr_bn2].
  eapply shaped_bind_lift; [by apply (AvgPool2d_rshape _ B dim h)|].
  intros y Hy. eapply shaped_bind.
  { apply (Conv2d_shaped_same _ _ _ _ B (h / 2) (h / 2)); [exact Hy|done..]. }
  cbn [c_out]. intros y1 Hy1. eapply shaped_bind.
  { apply (BatchNorm2d_shaped _ _ (mkBatchNorm2d dim) _ B (h / 2) (h / 2));
      [exact Hy1|exact Hbn]. }
  cbn [bn_features]. intros y2 Hy2. eapply shaped_bind.
  { apply (Conv2d_shaped_same _ _ _ (unary "relu" y2) B (h / 2) (h / 2));
      [exact Hy2|done..]. }
  cbn [c_out]. intros y3 Hy3.
  apply (BatchNorm2d_shaped _ _ (mkBatchNorm2d dim) _ B (h / 2) (h / 2));
    [exact Hy3|exact Hbn].
Qed.

Lemma OSRAttention_init_inv dim drop m :
  OSRAttention_init dim 6 None drop 2 = Ret m ->
  exists d6 d,
    dim = 6 * d6 /\ d6 <> 0
    /\ m = mkOSRAttention dim 6 (inr d6) (mkConv2d dim dim 1 1 0 1 true)
             (mkConv2d dim (dim * 2) 1 1 0 1 true) d
             (Some (mkSrSequential 2 (mkConv2d dim dim 3 1 1 dim false)
                      (mkBatchNorm2d dim) (mkConv2d dim dim 1 1 0 dim false)
                      (mkBatchNorm2d dim)))
             (mkConv2d dim dim 3 1 1 dim true).
Proof.
  unfold OSRAttention_init, py_assert. cbn [Nat.eqb rbind Nat.ltb Nat.leb].
  destruct (Nat.eqb_spec (dim mod 6) 0) as [Hmod|]; [|done]. cbn [rbind].
  destruct (Nat.eqb_spec (dim / 6) 0) as [|Hd6]; [done|]. cbn [rbind].
  intros Hm. ret_inv Hm. injection Hm as <-.
  repeat match goal with
  | E : rbind _ _ = Ret _ |- _ => ret_inv E; injection E as <-
  end.
  repeat match goal with
  | E : Conv2d_init _ _ _ _ _ _ _ = Ret _ |- _ =>
      apply Conv2d_init_inv in E as [-> _]
  end.
  eexists (dim / 6), _. split; [|split; [exact Hd6|reflexivity]].
  by apply Nat.Div0.div_exact.
Qed.

Lemma chunk2_even x B C Hh W :
  tshape x = [B; C * 2; Hh; W] -> C <> 0 ->
  exists k v, chunk2 x = Ret (k, v)
              /\ tshape k = [B; C; Hh; W] /\ tshape v = [B; C; Hh; W].
Proof.
  intros Hx HC. unfold chunk2. rewrite Hx.
  destruct (Nat.ltb_spec (C * 2) 2); [lia|].
  assert (Hc : (C * 2 + 1) / 2 = C) by (rewrite Nat.div_add_l by lia; simpl; lia).
  rewrite Hc. eexists _, _. split; [reflexivity|]. cbn [tshape].
  split; [reflexivity|]. do 2 f_equal. lia.
Qed.

(** The reduced attention keeps the shape of a feature map of its width on
    a grid of at least 2 by 2. *)
Lemma OSRAttention_shaped tr pre m x dim drop B h :
  OSRAttention_init dim 6 None drop 2 = Ret m ->
  tshape x = [B; dim; h; h] -> 2 <= h -> 1 <= B ->
  tr = false \/ B * (h / 2) * (h / 2) <> 1 ->
  shaped tr (OSRAttention_forward pre m x None) [B; dim; h; h].
Proof.
  intros (d6 & d & Hdim & Hd6 & ->)%OSRAttention_init_inv Hx Hh HB Hbn.
  assert (Hh2 : 1 <= h / 2) by (apply Nat.div_le_lower_bound; lia).
  assert (Hdiv : dim / 6 = d6) by (subst dim; rewrite Nat.mul_comm, Nat.div_mul; lia).
  unfold OSRAttention_forward. rewrite Hx.
  cbn [osr_num_heads osr_q osr_kv osr_sr osr_local_conv osr_scale osr_attn_drop].
  rewrite Hdiv.
  eapply shaped_bind.
  { apply (Conv2d_shaped_same _ _ _ _ B h h); [exact Hx|done|done|lia|lia]. }
  cbn [c_out]. intros q0 Hq0. eapply shaped_bind_lift.
  { apply (reshape_infer_rshape _ [B; 6; d6] (h * h)).
    - rewrite Hq0. unfold numel. simpl. lia.
    - unfold numel. simpl. lia. }
  cbn [app]. intros q1 Hq1. eapply shaped_bind_lift.
  { apply (transpose_rshape _ 3 2 (h * h) d6); by rewrite Hq1. }
  rewrite Hq1. cbn [insert list_insert]. intros q Hq.
  eapply shaped_bind; [by apply (sr_shaped _ _ _ dim B h)|].
  intros kv0 Hkv0. eapply shaped_bind.
  { apply (Conv2d_shaped_same _ _ _ _ B (h / 2) (h / 2)); [exact Hkv0|done..]. }
  cbn [c_out]. intros lc Hlc. eapply shaped_bind_lift.
  { apply (add_same _ _ [B; dim; h / 2; h / 2]); [exact Hlc|exact Hkv0]. }
  intros kv Hkv. eapply shaped_bind.
  { apply (Conv2d_shaped_same _ _ _ _ B (h / 2) (h / 2)); [exact Hkv|done..]. }
  cbn [c_out]. intros kvp Hkvp.
  destruct (chunk2_even kvp B dim (h / 2) (h / 2) Hkvp ltac:(lia))
    as (k0 & v0 & -> & Hk0 & Hv0).
  rewrite bind_lift_ret. cbn [fst snd].
  eapply shaped_bind_lift.
  { apply (reshape_infer_rshape _ [B; 6; d6] (h / 2 * (h / 2))).
    - rewrite Hk0. unfold numel. simpl. lia.
    - unfold numel. simpl. lia. }
  cbn [app]. intros k Hk. eapply shaped_bind_lift.
  { apply (reshape_infer_rshape _ [B; 6; d6] (h / 2 * (h / 2))).
    - rewrite Hv0. unfold numel. simpl. lia.
    - unfold numel. simpl. lia. }
  cbn [app]. intros v1 Hv1. eapply shaped_bind_lift.
  { apply (transpose_rshape _ 3 2 (h / 2 * (h / 2)) d6); by rewrite Hv1. }
  rewrite Hv1. cbn [insert list_insert]. intros v Hv.
  eapply shaped_bind_lift.
  { apply (matmul_rshape _ _ B 6 (h * h) d6 (h / 2 * (h / 2))); [exact Hq|exact Hk]. }
  intros attn Hattn. rewrite bind_lift_ret.
  eapply shaped_bind_lift.
  { apply softmax_rshape. cbn [mul_scale tshape]. rewrite Hattn. simpl. lia. }
  cbn [mul_scale tshape]. rewrite Hattn. intros attn1 Hattn1.
  eapply shaped_bind; [apply Dropout_shaped|].
  rewrite Hattn1. intros attn2 Hattn2. eapply shaped_bind_lift.
  { apply (matmul_rshape _ _ B 6 (h * h) (h / 2 * (h / 2)) d6); [exact Hattn2|exact Hv]. }
  intros o Ho. eapply shaped_bind_lift.
  { apply (transpose_rshape _ 3 2 d6 (h * h)); by rewrite Ho. }
  rewrite Ho. cbn [insert list_insert]. intros o1 Ho1.
  apply shaped_lift, reshape_rshape. rewrite Ho1. unfold numel. simpl. lia.
Qed.

(** A reduced-attention block keeps the shape of a sequence of [h * h]
    tokens of its width, for [h >= 2]. *)
Lemma Block_attention_shaped tr pre m x dim mlp_ratio drop drop_path h' w' B h :
  Block_attention_init dim mlp_ratio drop drop_path h' w' = Ret m ->
  tshape x = [B; h * h; dim] -> 2 <= h -> 1 <= B ->
  tr = false \/ B * (h / 2) * (h / 2) <> 1 ->
  shaped tr (Block_attention_forward pre m x) [B; h * h; dim].
Proof.
  intros Hm Hx Hh HB Hbn. unfold Block_attention_init in Hm.
  ret_inv Hm. injection Hm as <-.
  unfold Block_attention_forward. rewrite Hx.
  cbn [ba_norm1 ba_drop_path ba_norm2 ba_mlp ba_attn].
  unfold isqrt. rewrite Nat.sqrt_square.
  eapply shaped_bind_lift.
  { apply (transpose_rshape _ 1 2 (h * h) dim); by rewrite Hx. }
  rewrite Hx. cbn [insert list_insert]. intros t Ht. eapply shaped_bind_lift.
  { apply view_rshape. rewrite Ht. unfold numel. simpl. lia. }
  intros x_2d H2d. eapply shaped_bind.
  { by eapply (OSRAttention_shaped _ _ _ _ dim drop B h). }
  intros o0 Ho0. eapply shaped_bind_lift.
  { apply view_rshape. rewrite Ho0. unfold numel. simpl. lia. }
  intros o1 Ho1. eapply shaped_bind_lift.
  { apply (transpose_rshape _ 1 2 dim (h * h)); by rewrite Ho1. }
  rewrite Ho1. cbn [insert list_insert]. intros attn_out Hao.
  eapply shaped_bind; [apply drop_path_shaped|].
  rewrite Hao. intros d Hd. eapply shaped_bind_lift.
  { apply (add_same _ _ [B; h * h; dim]); [exact Hx|exact Hd]. }
  intros x1 Hx1. eapply shaped_bind.
  { apply (LayerNorm_shaped _ _ (mkLayerNorm dim)). exact Hx1. }
  cbn [ln_dim]. intros y Hy. eapply shaped_bind.
  { by eapply Mlp_shaped. }
  intros y1 Hy1. eapply shaped_bind; [apply drop_path_shaped|].
  rewrite Hy1. intros y2 Hy2.
  apply shaped_lift, add_same; [exact Hx1|exact Hy2].
Qed.


(** *** The composition of the bridge (C5) *)



End ShapeCalculus.

Section ShapeRuns.
#[local] Existing Instance run_numerics.



End ShapeRuns.

(** * Further properties of the code *)

(** ** Shapes through a whole model *)

Section ModelShapes.
Context `{Numerics}.

Lemma Block_shaped tr pre m x dim mlp_ratio drop drop_path B h :
  Block_init dim mlp_ratio drop drop_path h (h / 2 + 1) = Ret m ->
  1 <= h -> tshape x = [B; h * h; dim] ->
  shaped tr (Block_forward pre m x) [B; h * h; dim].
Proof.
  intros Hm Hh Hx. unfold Block_init in Hm. ret_inv Hm. injection Hm as <-.
  unfold Block_forward. cbn [b_norm1 b_filter b_drop_path b_norm2 b_mlp].
  eapply shaped_bind.
  { apply (LayerNorm_shaped _ _ (mkLayerNorm dim)). exact Hx. }
  cbn [ln_dim]. intros y Hy. eapply shaped_bind.
  { apply (SpectralGatingNetwork_shaped _ _
             (mkSpectralGatingNetwork dim h (h / 2 + 1)) _ B h);
      [reflexivity|reflexivity|exact Hh|exact Hy]. }
  cbn [sgn_dim]. intros y1 Hy1. eapply shaped_bind.
  { apply (LayerNorm_shaped _ _ (mkLayerNorm dim)). exact Hy1. }
  cbn [ln_dim]. intros y2 Hy2. eapply shaped_bind.
  { eapply Mlp_shaped; [exact E|exact Hy2]. }
  intros y3 Hy3. eapply shaped_bind; [apply drop_path_shaped|].
  rewrite Hy3. intros y4 Hy4.
  apply shaped_lift, add_same; [exact Hx|exact Hy4].
Qed.

Lemma block_shaped tr pre b x dim B h :
  block_built dim h b ->
  tshape x = [B; h * h; dim] -> 2 <= h -> 1 <= B ->
  tr = false \/ 2 <= B ->
  shaped tr (block_forward pre b x) [B; h * h; dim].
Proof.
  intros Hb Hx Hh HB Hmode.
  assert (1 <= h / 2) by (apply Nat.div_le_lower_bound; lia).
  destruct b as [m|m|m]; cbn [block_built block_forward] in *.
  - destruct Hb as (mr & dr & dp & Hm). eapply Block_shaped; [exact Hm|lia|exact Hx].
  - eapply FreqTimeBridge_shaped; [exact Hb|lia|exact Hx|].
    destruct Hmode as [?|?]; [by left|right; nia].
  - destruct Hb as (mr & dr & dp & Hm).
    eapply Block_attention_shaped; [exact Hm|exact Hx|exact Hh|exact HB|].
    destruct Hmode as [?|?]; [by left|right; nia].
Qed.

Lemma blocks_shaped tr pre bs : forall i x dim B h,
  Forall (block_built dim h) bs ->
  tshape x = [B; h * h; dim] -> 2 <= h -> 1 <= B ->
  tr = false \/ 2 <= B ->
  shaped tr (blocks_forward pre i bs x) [B; h * h; dim].
Proof.
  induction bs as [|b bs IH]; intros i x dim B h Hbs Hx Hh HB Hmode;
    cbn [blocks_forward].
  - by apply shaped_ret.
  - apply Forall_cons in Hbs as [Hb Hbs]. eapply shaped_bind.
    + by apply block_shaped.
    + intros x' Hx'. by apply IH.
Qed.

End ModelShapes.
Section Construction.
Context `{Numerics}.

Lemma for_each_Forall {A B : Type} (f : A -> res B) (P : B -> Prop) l bs :
  (forall a b, a ∈ l -> f a = Ret b -> P b) ->
  for_each f l = Ret bs ->
  Forall P bs /\ length bs = length l /\ forall a, a ∈ l -> exists b, f a = Ret b.
Proof.
  revert bs. induction l as [|a l IH]; intros bs Hf; cbn [for_each].
  - intros [= <-]. split; [constructor|]. split; [reflexivity|].
    intros a Ha. by apply elem_of_nil in Ha.
  - destruct (f a) as [b|] eqn:Hb; cbn [rbind]; [|discriminate].
    destruct (for_each f l) as [bs'|] eqn:Hl; cbn [rbind]; [|discriminate].
    intros [= <-].
    destruct (IH bs') as (IH1 & IH2 & IH3); [|reflexivity|].
    { intros a' b' Ha'. apply Hf. by right. }
    split; [constructor; [apply (Hf a); [left|exact Hb]|exact IH1]|].
    split; [cbn; by rewrite IH2|].
    intros a' [->|Ha']%elem_of_cons; [by exists b|by apply IH3].
Qed.

Lemma drop_path_rates_length ud r depth :
  length (drop_path_rates ud r depth) = depth.
Proof.
  unfold drop_path_rates, linspace0. destruct ud.
  - apply length_replicate.
  - by rewrite length_fmap, length_seq.
Qed.

Lemma index_inv {A : Type} (l : list A) i a : index l i = Ret a -> i < length l.
Proof.
  unfold index. destruct (l !! i) eqn:E; [|discriminate].
  intros _. by eapply lookup_lt_Some.
Qed.

Lemma floordiv_inv a b q : floordiv a b = Ret q -> b <> 0 /\ q = a / b.
Proof.
  unfold floordiv. destruct (Nat.eqb_spec b 0); [discriminate|].
  by intros [= <-].
Qed.

Lemma BryoFormer_init_inv img_size patch_size in_chans num_classes embed_dim depth
    mlp_ratio representation_size uniform_drop drop_rate drop_path_rate dropcls m :
  BryoFormer_init img_size patch_size in_chans num_classes embed_dim depth
    mlp_ratio representation_size uniform_drop drop_rate drop_path_rate dropcls
  = Ret m ->
  PatchEmbed_init (Int img_size) (Int patch_size) in_chans embed_dim
  = Ret (bf_patch_embed m)
  /\ bf_embed_dim m = embed_dim /\ bf_num_classes m = num_classes
  /\ bf_norm m = mkLayerNorm embed_dim
  /\ bf_head m = (if 0 <? num_classes then Some (mkLinear embed_dim num_classes)
                  else None)
  /\ patch_size <> 0 /\ 4 <= depth
  /\ Forall (block_built embed_dim (img_size / patch_size)) (bf_blocks m)
  /\ length (bf_blocks m) = 5 + (depth - 5).
Proof.
  intros Hm. unfold BryoFormer_init in Hm. ret_inv Hm. injection Hm as <-.
  cbn [bf_patch_embed bf_embed_dim bf_num_classes bf_norm bf_head bf_blocks].
  match goal with
  | E : floordiv _ _ = Ret _ |- _ => apply floordiv_inv in E as [Hps ->]
  end.
  match goal with
  | E1 : for_each _ (seq 0 4) = Ret _, E3 : for_each _ (seq 5 _) = Ret _ |- _ =>
      eapply (for_each_Forall _ (block_built embed_dim (img_size / patch_size)))
        in E1 as (F1 & L1 & I1);
      [eapply (for_each_Forall _ (block_built embed_dim (img_size / patch_size)))
         in E3 as (F3 & L3 & I3)|]
  end.
  - split_and!; try done.
    + destruct (I1 3) as [b Hb]; [set_solver|]. ret_inv Hb.
      match goal with
      | E : index _ 3 = Ret _ |- _ => apply index_inv in E
      end.
      rewrite drop_path_rates_length in *. lia.
    + rewrite Forall_app. split; [exact F1|].
      apply Forall_cons. split; [cbn; assumption|exact F3].
    + rewrite length_app. cbn [length app]. rewrite L1, L3, !length_seq. lia.
  - intros i b _ Hb. ret_inv Hb. injection Hb as <-. cbn. eauto.
  - intros i b _ Hb. ret_inv Hb. injection Hb as <-. cbn. eauto.
Qed.

End Construction.
Section WholeModel.
Context `{Numerics}.

Lemma PatchEmbed_init_patch16 k in_chans embed_dim pe :
  PatchEmbed_init (Int (16 * k)) (Int 16) in_chans embed_dim = Ret pe ->
  pe = mkPatchEmbed (16 * k, 16 * k) (16, 16) (k * k)
         (mkConv2d in_chans (embed_dim / 8) 3 2 1 1 true)
         (mkConv2d (embed_dim / 8) (embed_dim / 8) 8 8 0 (embed_dim / 8) true)
         (mkConv2d (embed_dim / 8) embed_dim 1 1 0 1 true).
Proof.
  intros Hpe. unfold PatchEmbed_init in Hpe. cbn [to_2tuple fst snd] in Hpe.
  ret_inv Hpe. injection Hpe as <-.
  repeat match goal with
  | E : floordiv _ _ = Ret _ |- _ => apply floordiv_inv in E as [_ ->]
  | E : Conv2d_init _ _ _ _ _ _ _ = Ret _ |- _ =>
      apply Conv2d_init_inv in E as [-> _]
  end.
  replace (16 * k / 16) with k; [reflexivity|].
  rewrite Nat.mul_comm, Nat.div_mul; lia.
Qed.

Lemma PatchEmbed_shaped tr pre k in_chans embed_dim pe x B :
  PatchEmbed_init (Int (16 * k)) (Int 16) in_chans embed_dim = Ret pe ->
  1 <= k -> tshape x = [B; in_chans; 16 * k; 16 * k] ->
  shaped tr (PatchEmbed_forward pre pe x) [B; k * k; embed_dim].
Proof.
  intros Hpe Hk Hx. apply PatchEmbed_init_patch16 in Hpe as ->.
  unfold PatchEmbed_forward. rewrite Hx.
  cbn [pe_img_size pe_stage1 pe_stage2_0 pe_stage2_1 fst snd].
  rewrite !Nat.eqb_refl. cbn [andb py_assert]. rewrite bind_lift_ret.
  eapply shaped_bind.
  { eapply (Conv2d_shaped _ _ (mkConv2d in_chans (embed_dim / 8) 3 2 1 1 true));
      [exact Hx|by apply (conv_out_stage1 _ _ k)..]. }
  cbn [c_out]. intros x1 Hx1. eapply shaped_bind.
  { eapply (Conv2d_shaped _ _
             (mkConv2d (embed_dim / 8) (embed_dim / 8) 8 8 0 (embed_dim / 8) true));
      [exact Hx1|by apply (conv_out_stage2 _ _ k)..]. }
  cbn [c_out]. intros x2 Hx2. eapply shaped_bind.
  { eapply (Conv2d_shaped _ _ (mkConv2d (embed_dim / 8) embed_dim 1 1 0 1 true));
      [exact Hx2|by apply conv_out_pointwise..]. }
  cbn [c_out]. intros x3 Hx3. eapply shaped_bind_lift.
  { by apply (flatten2_rshape _ B embed_dim k k). }
  intros f Hf. apply shaped_lift.
  pose proof (transpose_rshape f 1 2 embed_dim (k * k)) as Ht.
  rewrite Hf in Ht. apply Ht; reflexivity.
Qed.

Lemma broadcast_batch B N C : broadcast [B; N; C] [1; N; C] = Some [B; N; C].
Proof.
  unfold broadcast. cbn [reverse rev_append broadcast_rev].
  rewrite !Nat.eqb_refl. cbn [fmap option_fmap option_map].
  destruct (Nat.eqb_spec B 1) as [->|]; reflexivity.
Qed.

Lemma Linear_shaped2 tr pre l x B :
  tshape x = [B; l_in l] ->
  shaped tr (Linear_forward pre l x) [B; l_out l].
Proof.
  intros Hx. unfold Linear_forward. rewrite Hx. cbn [reverse rev_append].
  rewrite Nat.eqb_refl. cbn [negb].
  apply shaped_bind_param. intros w _. apply shaped_bind_param. intros b _.
  by apply shaped_ret.
Qed.

(** The forward pass of a model whose fields are as a constructor leaves
    them. *)
Lemma BryoFormer_forward_shaped tr pre m k in_chans num_classes embed_dim x B :
  PatchEmbed_init (Int (16 * k)) (Int 16) in_chans embed_dim
  = Ret (bf_patch_embed m) ->
  bf_embed_dim m = embed_dim -> bf_norm m = mkLayerNorm embed_dim ->
  bf_head m = (if 0 <? num_classes then Some (mkLinear embed_dim num_classes)
               else None) ->
  Forall (block_built embed_dim k) (bf_blocks m) ->
  2 <= k -> 1 <= B -> tr = false \/ 2 <= B ->
  tshape x = [B; in_chans; 16 * k; 16 * k] ->
  shaped tr (BryoFormer_forward pre m x) (logits_shape B num_classes embed_dim).
Proof.
  intros Hpe He Hn Hhead Hbs Hk HB Hmode Hx.
  unfold BryoFormer_forward. eapply (shaped_bind _ _ _ [B; embed_dim]).
  - unfold BryoFormer_forward_features. rewrite Hx. eapply shaped_bind.
    { eapply PatchEmbed_shaped; [exact Hpe|lia|exact Hx]. }
    intros x1 Hx1. apply shaped_bind_param. intros pos Hpos.
    rewrite (PatchEmbed_init_patch16 _ _ _ _ Hpe) in Hpos.
    cbn [pe_num_patches] in Hpos. rewrite He in Hpos.
    eapply shaped_bind_lift.
    { apply binop_rshape. rewrite Hx1, Hpos. apply broadcast_batch. }
    intros x2 Hx2. eapply shaped_bind; [apply Dropout_shaped|].
    rewrite Hx2. intros x3 Hx3. eapply shaped_bind.
    { by apply blocks_shaped. }
    intros x4 Hx4. rewrite Hn. eapply shaped_bind.
    { apply (LayerNorm_shaped _ _ (mkLayerNorm embed_dim)). exact Hx4. }
    cbn [ln_dim]. intros x5 Hx5. apply shaped_lift.
    unfold mean1. rewrite Hx5. by eexists.
  - intros y Hy. eapply (shaped_bind _ _ _ [B; embed_dim]).
    + destruct (bf_final_dropout m) as [dr|].
      * rewrite <- Hy. apply Dropout_shaped.
      * by apply shaped_ret.
    + intros z Hz. rewrite Hhead. unfold logits_shape.
      destruct (0 <? num_classes).
      * by apply (Linear_shaped2 _ _ (mkLinear embed_dim num_classes)).
      * by apply shaped_ret.
Qed.

End WholeModel.
Section VariantConstruction.
Context `{Numerics}.

Lemma Block_attention_init_width dim mlp_ratio drop drop_path h w m :
  Block_attention_init dim mlp_ratio drop drop_path h w = Ret m ->
  dim mod 6 = 0 /\ 6 <= dim.
Proof.
  intros Hm. unfold Block_attention_init in Hm. ret_inv Hm.
  match goal with
  | E : OSRAttention_init _ _ _ _ _ = Ret _ |- _ =>
      apply OSRAttention_init_inv in E as (d6 & d & -> & Hd6 & _)
  end.
  split; [|lia]. rewrite Nat.mul_comm. apply Nat.Div0.mod_mul.
Qed.

Section Runs.
Variables (embed_dim depth : nat) (mlp_ratio : Q) (uniform_drop : bool).
Variables (drop_rate drop_path_rate : Q) (h : nat).

Lemma spectral_run_built off n bs :
  spectral_run embed_dim depth mlp_ratio uniform_drop drop_rate drop_path_rate
    h (h / 2 + 1) off n = Ret bs ->
  Forall (block_built embed_dim h) bs /\ length bs = n
  /\ (1 <= n -> off + n <= depth).
Proof.
  intros Hr. unfold spectral_run in Hr.
  eapply (for_each_Forall _ (block_built embed_dim h)) in Hr as (F & L & I).
  - rewrite length_seq in L. split; [exact F|]. split; [exact L|].
    intros Hn. destruct (I (n - 1)) as [b Hb].
    { apply elem_of_seq. lia. }
    ret_inv Hb.
    match goal with
    | E : index _ _ = Ret _ |- _ => apply index_inv in E
    end.
    rewrite drop_path_rates_length in *. lia.
  - intros i b _ Hb. ret_inv Hb. injection Hb as <-. cbn. eauto.
Qed.

Lemma bridge_run_built n bs :
  bridge_run embed_dim h (h / 2 + 1) n = Ret bs ->
  Forall (block_built embed_dim h) bs /\ length bs = n.
Proof.
  intros Hr. unfold bridge_run in Hr.
  eapply (for_each_Forall _ (block_built embed_dim h)) in Hr as (F & L & I).
  - rewrite length_seq in L. by split.
  - intros i b _ Hb. ret_inv Hb. injection Hb as <-. cbn. assumption.
Qed.

Lemma attention_run_built off n bs :
  attention_run embed_dim depth mlp_ratio uniform_drop drop_rate drop_path_rate
    h (h / 2 + 1) off n = Ret bs ->
  Forall (block_built embed_dim h) bs /\ length bs = n
  /\ (1 <= n -> off + n <= depth /\ embed_dim mod 6 = 0).
Proof.
  intros Hr. unfold attention_run in Hr.
  eapply (for_each_Forall _ (block_built embed_dim h)) in Hr as (F & L & I).
  - rewrite length_seq in L. split; [exact F|]. split; [exact L|].
    intros Hn. destruct (I (n - 1)) as [b Hb].
    { apply elem_of_seq. lia. }
    ret_inv Hb.
    match goal with
    | E : index _ _ = Ret _ |- _ => apply index_inv in E
    end.
    match goal with
    | E : Block_attention_init _ _ _ _ _ _ = Ret _ |- _ =>
        apply Block_attention_init_width in E as [Hmod _]
    end.
    rewrite drop_path_rates_length in *. split; [lia|exact Hmod].
  - intros i b _ Hb. ret_inv Hb. injection Hb as <-. cbn. eauto.
Qed.

End Runs.

Lemma PatchEmbed_init_width img_size patch_size in_chans embed_dim pe :
  PatchEmbed_init img_size patch_size in_chans embed_dim = Ret pe ->
  8 <= embed_dim.
Proof.
  intros Hpe. unfold PatchEmbed_init in Hpe. ret_inv Hpe.
  repeat match goal with
  | E : Conv2d_init _ _ _ _ _ _ _ = Ret _ |- _ =>
      apply Conv2d_init_inv in E as [_ ?]
  end.
  destruct (Nat.lt_ge_cases embed_dim 8) as [Hlt|]; [|done].
  apply Nat.div_small in Hlt. congruence.
Qed.

Lemma FreqTimeBridge_init_width dim h w m :
  FreqTimeBridge_init dim h w = Ret m -> dim mod (dim / 4) = 0.
Proof.
  intros Hm. unfold FreqTimeBridge_init in Hm. ret_inv Hm.
  match goal with
  | E : AttentionModule_init _ _ _ = Ret _ |- _ =>
      unfold AttentionModule_init in E; ret_inv E
  end.
  match goal with
  | E : ChannelAttention_init _ _ = Ret _ |- _ =>
      unfold ChannelAttention_init in E; ret_inv E
  end.
  match goal with
  | E : floordiv _ _ = Ret _ |- _ => apply floordiv_inv in E as [_ ->]
  end.
  match goal with
  | E : Conv2d_init dim _ _ _ _ _ _ = Ret _ |- _ =>
      unfold Conv2d_init in E;
      destruct (dim / 4 =? 0); [discriminate E|];
      destruct (Nat.eqb_spec (dim mod (dim / 4)) 0) as [Hd|]; [exact Hd|];
      discriminate E
  end.
Qed.

Section Variants.
Variables (img_size patch_size in_chans num_classes embed_dim depth : nat).
Variables (mlp_ratio : Q) (representation_size : option nat).
Variables (uniform_drop : bool) (drop_rate drop_path_rate dropcls : Q).

Lemma variant_init_inv v m :
  variant_init v img_size patch_size in_chans num_classes embed_dim depth
    mlp_ratio representation_size uniform_drop drop_rate drop_path_rate dropcls
  = Ret m ->
  PatchEmbed_init (Int img_size) (Int patch_size) in_chans embed_dim
  = Ret (bf_patch_embed m)
  /\ bf_embed_dim m = embed_dim /\ bf_norm m = mkLayerNorm embed_dim
  /\ bf_head m = (if 0 <? num_classes then Some (mkLinear embed_dim num_classes)
                  else None)
  /\ patch_size <> 0
  /\ Forall (block_built embed_dim (img_size / patch_size)) (bf_blocks m)
  /\ min_depth v <= depth
  /\ length (bf_blocks m) = block_count v depth
  /\ ((v = V1 -> 6 <= depth) -> embed_dim mod 6 = 0).
Proof.
  destruct v; cbn [variant_init min_depth block_count]; intros Hm.
  - pose proof Hm as Hm'.
    apply BryoFormer_init_inv in Hm
      as (Hpe & He & _ & Hn & Hh & Hps & Hd & Hbs & Hlen).
    split_and!; try done; [lia|]. intros Hd6. specialize (Hd6 eq_refl).
    unfold BryoFormer_init in Hm'. ret_inv Hm'.
    match goal with
    | E : for_each _ (seq 5 _) = Ret _ |- _ =>
        eapply (for_each_Forall _ (fun _ => True)) in E as (_ & _ & I);
        [|done]
    end.
    destruct (I 5) as [b Hb]; [apply elem_of_seq; lia|]. ret_inv Hb.
    match goal with
    | E : Block_attention_init _ _ _ _ _ _ = Ret _ |- _ =>
        by apply Block_attention_init_width in E as [Hmod _]
    end.
  - unfold BryoFormerV2_init in Hm. ret_inv Hm. injection Hm as <-.
    match goal with
    | E : BryoFormer_init _ _ _ _ _ _ _ _ _ _ _ _ = Ret _ |- _ =>
        apply BryoFormer_init_inv in E
          as (Hpe & He & _ & Hn & Hh & Hps & Hd & _ & _)
    end.
    match goal with
    | E : floordiv _ _ = Ret _ |- _ => apply floordiv_inv in E as [_ ->]
    end.
    repeat match goal with
    | E : spectral_run _ _ _ _ _ _ _ _ _ _ = Ret _ |- _ =>
        apply spectral_run_built in E as (? & ? & ?)
    | E : bridge_run _ _ _ _ = Ret _ |- _ =>
        apply bridge_run_built in E as (? & ?)
    | E : attention_run _ _ _ _ _ _ _ _ _ _ = Ret _ |- _ =>
        apply attention_run_built in E as (? & ? & Hatt)
    end.
    destruct Hatt as [Hoff Hmod]; [lia|].
    cbn [with_blocks bf_patch_embed bf_embed_dim bf_norm bf_head bf_blocks].
    split_and!; try done;
      first [ lia | rewrite !length_app; lia
            | rewrite !Forall_app; by split_and! ].
  - unfold BryoFormerV3_init in Hm. ret_inv Hm. injection Hm as <-.
    match goal with
    | E : BryoFormer_init _ _ _ _ _ _ _ _ _ _ _ _ = Ret _ |- _ =>
        apply BryoFormer_init_inv in E
          as (Hpe & He & _ & Hn & Hh & Hps & Hd & _ & _)
    end.
    match goal with
    | E : floordiv _ _ = Ret _ |- _ => apply floordiv_inv in E as [_ ->]
    end.
    repeat match goal with
    | E : spectral_run _ _ _ _ _ _ _ _ _ _ = Ret _ |- _ =>
        apply spectral_run_built in E as (? & ? & ?)
    | E : bridge_run _ _ _ _ = Ret _ |- _ =>
        apply bridge_run_built in E as (? & ?)
    | E : attention_run _ _ _ _ _ _ _ _ _ _ = Ret _ |- _ =>
        apply attention_run_built in E as (? & ? & Hatt)
    end.
    destruct Hatt as [Hoff Hmod]; [lia|].
    cbn [with_blocks bf_patch_embed bf_embed_dim bf_norm bf_head bf_blocks].
    split_and!; try done;
      first [ lia | rewrite !length_app; lia
            | rewrite !Forall_app; by split_and! ].
  - unfold BryoFormerV4_init in Hm. ret_inv Hm. injection Hm as <-.
    match goal with
    | E : BryoFormer_init _ _ _ _ _ _ _ _ _ _ _ _ = Ret _ |- _ =>
        apply BryoFormer_init_inv in E
          as (Hpe & He & _ & Hn & Hh & Hps & Hd & _ & _)
    end.
    match goal with
    | E : floordiv _ _ = Ret _ |- _ => apply floordiv_inv in E as [_ ->]
    end.
    repeat match goal with
    | E : spectral_run _ _ _ _ _ _ _ _ _ _ = Ret _ |- _ =>
        apply spectral_run_built in E as (? & ? & ?)
    | E : attention_run _ _ _ _ _ _ _ _ _ _ = Ret _ |- _ =>
        apply attention_run_built in E as (? & ? & Hatt)
    end.
    destruct Hatt as [Hoff Hmod]; [lia|].
    cbn [with_blocks bf_patch_embed bf_embed_dim bf_norm bf_head bf_blocks].
    split_and!; try done;
      first [ lia | rewrite !length_app; lia
            | rewrite !Forall_app; by split_and! ].
Qed.

End Variants.

End VariantConstruction.
Section ModelTheorems.
Context `{Numerics}.


Section Variants.
Variables (in_chans num_classes embed_dim depth : nat).
Variables (mlp_ratio : Q) (representation_size : option nat).
Variables (uniform_drop : bool) (drop_rate drop_path_rate dropcls : Q).

(** X2.  Whichever variant is built with patches of 16 pixels for images of
    [16 * k] pixels ([k >= 2]), its forward pass on a non-empty batch of such
    images, in evaluation mode or with at least two images, returns one row
    per image: [num_classes] logits, or the [embed_dim] pooled features when
    the model was built with [num_classes = 0]. *)
Theorem variant_forward_logits_shape v k m pre x B (s : St) :
  variant_init v (16 * k) 16 in_chans num_classes embed_dim depth
    mlp_ratio representation_size uniform_drop drop_rate drop_path_rate dropcls
  = Ret m ->
  tshape x = [B; in_chans; 16 * k; 16 * k] ->
  2 <= k -> 1 <= B -> training s = false \/ 2 <= B ->
  exists t s',
    BryoFormer_forward pre m x s = (Ret t, s')
    /\ tshape t = logits_shape B num_classes embed_dim.
Proof.
  intros Hm Hx Hk HB Hmode.
  apply variant_init_inv in Hm as (Hpe & He & Hn & Hh & _ & Hbs & _).
  replace (16 * k / 16) with k in Hbs
    by (rewrite Nat.mul_comm, Nat.div_mul; lia).
  destruct (BryoFormer_forward_shaped (training s) pre m k in_chans num_classes
              embed_dim x B Hpe He Hn Hh Hbs Hk HB Hmode Hx s eq_refl)
    as (t & s' & Hr & Ht & _).
  by exists t, s'.
Qed.

Variables (img_size patch_size : nat).

(** X3.  A constructor returns only when [depth] covers every drop-path rate
    it indexes: 4 for [BryoFormer], 8 for [BryoFormerV2], 12 for V3 and V4
    (otherwise [dpr[i]] raises).  The stack it builds has [max 5 depth] blocks
    for [BryoFormer], and 8, 12 and 12 blocks for the variants whatever
    [depth] is. *)
Theorem variant_init_depth v m :
  variant_init v img_size patch_size in_chans num_classes embed_dim depth
    mlp_ratio representation_size uniform_drop drop_rate drop_path_rate dropcls
  = Ret m ->
  min_depth v <= depth /\ length (bf_blocks m) = block_count v depth.
Proof.
  intros Hm. by apply variant_init_inv in Hm as (_ & _ & _ & _ & _ & _ & ? & ? & _).
Qed.

Lemma variant_init_base v m :
  variant_init v img_size patch_size in_chans num_classes embed_dim depth
    mlp_ratio representation_size uniform_drop drop_rate drop_path_rate dropcls
  = Ret m ->
  exists m0,
    BryoFormer_init img_size patch_size in_chans num_classes embed_dim depth
      mlp_ratio representation_size uniform_drop drop_rate drop_path_rate dropcls
    = Ret m0.
Proof.
  destruct v; cbn [variant_init]; intros Hm; [by exists m|..].
  - unfold BryoFormerV2_init in Hm. ret_inv Hm. by eexists.
  - unfold BryoFormerV3_init in Hm. ret_inv Hm. by eexists.
  - unfold BryoFormerV4_init in Hm. ret_inv Hm. by eexists.
Qed.

(** X4.  A constructor returns only for a positive patch size and a width
    that its grouped convolutions and attention heads accept: [embed_dim] is
    at least 8 and a multiple of [embed_dim // 4], and, as soon as the stack
    holds a reduced-attention block (every variant, and [BryoFormer] with
    [depth >= 6]), a multiple of 6. *)
Theorem variant_init_width v m :
  variant_init v img_size patch_size in_chans num_classes embed_dim depth
    mlp_ratio representation_size uniform_drop drop_rate drop_path_rate dropcls
  = Ret m ->
  patch_size <> 0 /\ 8 <= embed_dim
  /\ embed_dim mod (embed_dim / 4) = 0
  /\ ((v = V1 -> 6 <= depth) -> embed_dim mod 6 = 0).
Proof.
  intros Hm. pose proof (variant_init_base v m Hm) as [m0 Hm0].
  apply variant_init_inv in Hm as (Hpe & _ & _ & _ & Hps & _ & _ & _ & H6).
  split; [exact Hps|]. split; [by eapply PatchEmbed_init_width|].
  split; [|exact H6].
  unfold BryoFormer_init in Hm0. ret_inv Hm0.
  match goal with
  | E : FreqTimeBridge_init _ _ _ = Ret _ |- _ =>
      by apply FreqTimeBridge_init_width in E
  end.
Qed.

End Variants.

End ModelTheorems.

Section ModelRuns.
#[local] Existing Instance run_numerics.


(** The service's model on a batch of two photographs, in training mode. *)
Lemma variant_forward_logits_shape_witness :
  let x := mkTensor [2; 3; 224; 224] [7%Z] in
  let s := mkSt ∅ true 0 in
  exists m t s',
    variant_init V1 (16 * 14) 16 3 44 384 8 2 None false 0 0 0 = Ret m
    /\ BryoFormer_forward "" m x s = (Ret t, s')
    /\ tshape t = [2; 44].
Proof.
  intros x s.
  assert (Hm : exists m,
    variant_init V1 (16 * 14) 16 3 44 384 8 2 None false 0 0 0 = Ret m)
    by (vm_compute; eexists; reflexivity).
  destruct Hm as [m Hm]. exists m.
  destruct (variant_forward_logits_shape 3 44 384 8 2 None false 0 0 0 V1 14 m
              "" x 2 s Hm eq_refl ltac:(lia) ltac:(lia) (or_intror (le_n 2)))
    as (t & s' & Hr & Ht).
  by exists t, s'.
Defined.

End ModelRuns.

(** Every variant at its default arguments. *)
Lemma variant_init_depth_witness :
  exists m,
    variant_init V4 224 16 3 1000 768 12 4 None false 0 0 0 = Ret m
    /\ min_depth V4 <= 12 /\ length (bf_blocks m) = 12.
Proof.
  assert (Hm : exists m,
    variant_init V4 224 16 3 1000 768 12 4 None false 0 0 0 = Ret m).
  { vm_compute. eexists. reflexivity. }
  destruct Hm as [m Hm]. exists m. split; [exact Hm|].
  exact (variant_init_depth 3 1000 768 12 4 None false 0 0 0 224 16 V4 m Hm).
Defined.

Lemma variant_init_width_witness :
  exists m,
    variant_init V2 224 16 3 1000 384 8 4 None false 0 0 0 = Ret m
    /\ 384 mod (384 / 4) = 0 /\ 384 mod 6 = 0.
Proof.
  assert (Hm : exists m,
    variant_init V2 224 16 3 1000 384 8 4 None false 0 0 0 = Ret m).
  { vm_compute. eexists. reflexivity. }
  destruct Hm as [m Hm]. exists m. split; [exact Hm|].
  destruct (variant_init_width 3 1000 384 8 4 None false 0 0 0 224 16 V2 m Hm)
    as (_ & _ & H4 & H6).
  split; [exact H4|]. apply H6. discriminate.
Defined.

(** ** What a forward pass writes, and what it rejects *)

Section Writes.
Context `{Numerics}.

Lemma ends_with_refl s : ends_with s s = true.
Proof. destruct s; unfold ends_with; by rewrite String.eqb_refl. Qed.

Lemma ends_with_app pre suf : ends_with suf (pre +:+ suf) = true.
Proof.
  induction pre as [|c pre IH].
  - apply ends_with_refl.
  - change (ends_with suf (String c (pre +:+ suf)) = true).
    cbn [ends_with]. destruct (String.eqb _ _); [reflexivity|exact IH].
Qed.

Lemma writes_only_ret P {A : Type} (a : A) : writes_only P (ret a).
Proof. intros s. by split. Qed.

Lemma writes_only_raise P {A : Type} (e : exn) : writes_only P (@raise _ A e).
Proof. intros s. by split. Qed.

Lemma writes_only_lift P {A : Type} (r : res A) : writes_only P (lift r).
Proof. intros s. by split. Qed.

Lemma writes_only_param P name sh : writes_only P (param name sh).
Proof. intros s. by split. Qed.

Lemma writes_only_training P : writes_only P get_training.
Proof. intros s. by split. Qed.

Lemma writes_only_draw P name p x : writes_only P (draw name p x).
Proof. intros s. by split. Qed.

Lemma writes_only_set_buffer (P : string -> bool) name d :
  P name = true -> writes_only P (set_buffer name d).
Proof.
  intros HP s. split; [reflexivity|]. intros name' HP'. cbn.
  apply lookup_insert_ne. congruence.
Qed.

Lemma writes_only_bind P {A B : Type} (m : M A) (f : A -> M B) :
  writes_only P m -> (forall a, writes_only P (f a)) -> writes_only P (bind m f).
Proof.
  intros Hm Hf s. unfold bind. destruct (Hm s) as [Ht Hs].
  destruct (m s) as [[a|e] s1]; cbn [snd] in *.
  - destruct (Hf a s1) as [Ht' Hs']. split; [congruence|].
    intros name HP. rewrite Hs', Hs; done.
  - by split.
Qed.

Ltac writes_step :=
  first
    [ apply writes_only_ret | apply writes_only_raise | apply writes_only_lift
    | apply writes_only_param | apply writes_only_training
    | apply writes_only_draw
    | apply writes_only_set_buffer; unfold bn_buffer;
      rewrite ?ends_with_app, ?orb_true_r; reflexivity
    | apply writes_only_bind; [|intros ?]
    | assumption
    | match goal with
      | |- writes_only _ (match ?x with _ => _ end) => destruct x
      | |- writes_only _ (if ?c then _ else _) => destruct c
      end ].

Ltac writes_auto := repeat writes_step.

Lemma writes_Dropout d x : writes_only bn_buffer (Dropout_forward d x).
Proof. unfold Dropout_forward. writes_auto. Qed.

Lemma writes_drop_path p x : writes_only bn_buffer (drop_path_forward p x).
Proof. unfold drop_path_forward. writes_auto. Qed.

Lemma writes_BatchNorm2d pre b x :
  writes_only bn_buffer (BatchNorm2d_forward pre b x).
Proof. unfold BatchNorm2d_forward. writes_auto. Qed.

Lemma writes_Conv2d pre c x : writes_only bn_buffer (Conv2d_forward pre c x).
Proof. unfold Conv2d_forward. writes_auto. Qed.

Lemma writes_Linear pre l x : writes_only bn_buffer (Linear_forward pre l x).
Proof. unfold Linear_forward. writes_auto. Qed.

Lemma writes_LayerNorm pre l x : writes_only bn_buffer (LayerNorm_forward pre l x).
Proof. unfold LayerNorm_forward. writes_auto. Qed.

Create HintDb writes.
#[local] Hint Resolve writes_Dropout writes_drop_path writes_BatchNorm2d
  writes_Conv2d writes_Linear writes_LayerNorm : writes.

Ltac writes_mod := repeat first [ solve [auto with writes] | writes_step ].

Lemma writes_SpectralGatingNetwork pre m x sp :
  writes_only bn_buffer (SpectralGatingNetwork_forward pre m x sp).
Proof. unfold SpectralGatingNetwork_forward. writes_mod. Qed.

Lemma writes_ChannelAttention pre m x :
  writes_only bn_buffer (ChannelAttention_forward pre m x).
Proof. unfold ChannelAttention_forward. writes_mod. Qed.

Lemma writes_SpatialAttention pre m x :
  writes_only bn_buffer (SpatialAttention_forward pre m x).
Proof. unfold SpatialAttention_forward. writes_mod. Qed.

Lemma writes_FeatureFusion pre m x c sp :
  writes_only bn_buffer (FeatureFusion_forward pre m x c sp).
Proof. unfold FeatureFusion_forward. writes_mod. Qed.

#[local] Hint Resolve writes_SpectralGatingNetwork writes_ChannelAttention
  writes_SpatialAttention writes_FeatureFusion : writes.

Lemma writes_AttentionModule pre m x :
  writes_only bn_buffer (AttentionModule_forward pre m x).
Proof. unfold AttentionModule_forward. writes_mod. Qed.

Lemma writes_Mlp pre m x : writes_only bn_buffer (Mlp_forward pre m x).
Proof. unfold Mlp_forward. writes_mod. Qed.

#[local] Hint Resolve writes_AttentionModule writes_Mlp : writes.

Lemma writes_FreqTimeBridge pre m x :
  writes_only bn_buffer (FreqTimeBridge_forward pre m x).
Proof. unfold FreqTimeBridge_forward. writes_mod. Qed.

Lemma writes_Block pre m x : writes_only bn_buffer (Block_forward pre m x).
Proof. unfold Block_forward. writes_mod. Qed.

Lemma writes_sr pre sr x : writes_only bn_buffer (sr_forward pre sr x).
Proof. unfold sr_forward. writes_mod. Qed.

#[local] Hint Resolve writes_sr : writes.

Lemma writes_OSRAttention pre m x rpe :
  writes_only bn_buffer (OSRAttention_forward pre m x rpe).
Proof. unfold OSRAttention_forward. writes_mod. Qed.

#[local] Hint Resolve writes_OSRAttention : writes.

Lemma writes_Block_attention pre m x :
  writes_only bn_buffer (Block_attention_forward pre m x).
Proof. unfold Block_attention_forward. writes_mod. Qed.

Lemma writes_PatchEmbed pre m x :
  writes_only bn_buffer (PatchEmbed_forward pre m x).
Proof. unfold PatchEmbed_forward. writes_mod. Qed.

#[local] Hint Resolve writes_FreqTimeBridge writes_Block writes_Block_attention
  writes_PatchEmbed : writes.

Lemma writes_blocks pre bs : forall i x,
  writes_only bn_buffer (blocks_forward pre i bs x).
Proof.
  induction bs as [|b bs IH]; intros i x; cbn [blocks_forward].
  - apply writes_only_ret.
  - apply writes_only_bind; [|intros ?; apply IH].
    destruct b; cbn [block_forward]; auto with writes.
Qed.

#[local] Hint Resolve writes_blocks : writes.

Lemma writes_BryoFormer pre m x :
  writes_only bn_buffer (BryoFormer_forward pre m x).
Proof.
  unfold BryoFormer_forward, BryoFormer_forward_features. writes_mod.
Qed.

(** X5.  A forward pass, in training or evaluation mode and whether it
    returns or raises, leaves the training flag and every stored value alone
    except the three buffers of the BatchNorm layers ([running_mean],
    [running_var], [num_batches_tracked]): it never writes a weight. *)
Theorem forward_writes_batchnorm_buffers_only pre m x (s : St) name :
  bn_buffer name = false ->
  store (snd (BryoFormer_forward pre m x s)) !! name = store s !! name
  /\ training (snd (BryoFormer_forward pre m x s)) = training s.
Proof.
  intros Hn. destruct (writes_BryoFormer pre m x s) as [Ht Hs].
  split; [by apply Hs|exact Ht].
Qed.

End Writes.

Section Rejections.
Context `{Numerics}.

Lemma view_numel_mismatch x sh :
  numel sh <> numel (tshape x) -> view x sh = Raise RuntimeError.
Proof.
  intros Hne. unfold view. by destruct (Nat.eqb_spec (numel sh) (numel (tshape x))).
Qed.

Lemma grid_numel_mismatch B N C a :
  B <> 0 -> C <> 0 -> a * a <> N -> numel [B; a; a; C] <> numel [B; N; C].
Proof.
  intros HB HC Ha. unfold numel. cbn [foldr]. rewrite !Nat.mul_1_r.
  intros Heq. apply Nat.mul_cancel_l in Heq; [|exact HB].
  rewrite Nat.mul_assoc in Heq. apply Nat.mul_cancel_r in Heq; [|exact HC].
  by apply Ha.
Qed.

Lemma SpectralGatingNetwork_not_square pre m x B N C (s : St) :
  tshape x = [B; N; C] -> B <> 0 -> C <> 0 -> isqrt N * isqrt N <> N ->
  SpectralGatingNetwork_forward pre m x None s = (Raise RuntimeError, s).
Proof.
  intros Hx HB HC HN. unfold SpectralGatingNetwork_forward. rewrite Hx.
  rewrite view_numel_mismatch; [reflexivity|].
  rewrite Hx. by apply grid_numel_mismatch.
Qed.

Lemma LayerNorm_cases pre l x B N C (s : St) :
  tshape x = [B; N; C] ->
  LayerNorm_forward pre l x s = (Raise RuntimeError, s)
  \/ exists y, LayerNorm_forward pre l x s = (Ret y, s) /\ tshape y = [B; N; C].
Proof.
  intros Hx. unfold LayerNorm_forward. rewrite Hx. cbn [reverse rev_append].
  destruct (C =? ln_dim l); cbn [negb]; [right|by left].
  eexists. split; reflexivity.
Qed.

Lemma block_not_square pre b x B N C (s : St) :
  tshape x = [B; N; C] -> B <> 0 -> C <> 0 -> isqrt N * isqrt N <> N ->
  block_forward pre b x s = (Raise RuntimeError, s).
Proof.
  intros Hx HB HC HN. destruct b as [m|m|m]; cbn [block_forward].
  - unfold Block_forward.
    destruct (LayerNorm_cases (pre +:+ "norm1.") (b_norm1 m) x B N C s Hx)
      as [Hr|(y & Hr & Hy)]; unfold bind at 1; rewrite Hr; [reflexivity|].
    unfold bind at 1.
    by rewrite (SpectralGatingNetwork_not_square _ _ y B N C).
  - unfold FreqTimeBridge_forward. rewrite Hx.
    destruct (LayerNorm_cases (pre +:+ "norm.") (ftb_norm m) x B N C s Hx)
      as [Hr|(y & Hr & Hy)]; unfold bind at 1; rewrite Hr; [reflexivity|].
    unfold bind at 1.
    by rewrite (SpectralGatingNetwork_not_square _ _ y B N C).
  - unfold Block_attention_forward. rewrite Hx.
    unfold transpose, swap_dims. rewrite Hx. cbn [lookup list_lookup insert list_insert].
    rewrite bind_lift_ret. rewrite view_numel_mismatch; [reflexivity|].
    cbn [tshape]. unfold numel. cbn [foldr]. rewrite !Nat.mul_1_r.
    intros Heq. apply Nat.mul_cancel_l in Heq; [|exact HB].
    apply Nat.mul_cancel_l in Heq; [|exact HC]. by apply HN.
Qed.

(** X6.  Every block of a stack (spectral, bridge, reduced attention)
    refuses a sequence whose number of tokens is not a perfect square: on a
    non-empty tensor [B, N, C] with [int(sqrt(N)) ** 2 != N] it raises
    [RuntimeError] before anything is written or drawn, and so does a
    non-empty stack. *)
Theorem blocks_reject_non_square pre i b bs x B N C (s : St) :
  tshape x = [B; N; C] -> B <> 0 -> C <> 0 -> isqrt N * isqrt N <> N ->
  block_forward pre b x s = (Raise RuntimeError, s)
  /\ blocks_forward pre i (b :: bs) x s = (Raise RuntimeError, s).
Proof.
  intros Hx HB HC HN.
  pose proof (block_not_square (block_path pre i) b x B N C s Hx HB HC HN) as Hb.
  split; [by apply (block_not_square pre b x B N C)|].
  cbn [blocks_forward]. unfold bind. by rewrite Hb.
Qed.

(** X7.  The model checks its input before it computes anything: a batch
    whose height or width differs from the image size the model was built for
    raises [AssertionError], and a tensor that is not four-dimensional raises
    [ValueError] (or [IndexError] when it has no dimension at all); the state
    is untouched. *)
Theorem forward_rejects_wrong_input pre m x (s : St) :
  (forall B C Hh W,
     tshape x = [B; C; Hh; W] ->
     (Hh, W) <> pe_img_size (bf_patch_embed m) ->
     PatchEmbed_forward (pre +:+ "patch_embed.") (bf_patch_embed m) x s
     = (Raise AssertionError, s)
     /\ BryoFormer_forward pre m x s = (Raise AssertionError, s))
  /\ (length (tshape x) <> 4 ->
      BryoFormer_forward pre m x s
      = (Raise (if decide (tshape x = []) then IndexError else ValueError), s)).
Proof.
  split.
  - intros B C Hh W Hx Hsz.
    assert (Hpe : PatchEmbed_forward (pre +:+ "patch_embed.") (bf_patch_embed m) x s
                  = (Raise AssertionError, s)).
    { unfold PatchEmbed_forward. rewrite Hx.
      destruct (pe_img_size (bf_patch_embed m)) as [ih iw]. cbn [fst snd].
      destruct (Nat.eqb_spec Hh ih) as [->|]; cbn [andb]; [|reflexivity].
      destruct (Nat.eqb_spec W iw) as [->|]; [done|reflexivity]. }
    split; [exact Hpe|].
    unfold BryoFormer_forward, BryoFormer_forward_features. rewrite Hx.
    unfold bind. by rewrite Hpe.
  - intros Hlen. unfold BryoFormer_forward, BryoFormer_forward_features.
    destruct (tshape x) as [|B [|C [|Hh [|W [|? ?]]]]] eqn:Hx;
      cbn [length] in Hlen; try lia; try reflexivity;
      unfold bind, PatchEmbed_forward; rewrite Hx; reflexivity.
Qed.

End Rejections.

Section RejectionRuns.
#[local] Existing Instance run_numerics.

(** Head weights survive a forward pass in training mode. *)
Lemma forward_writes_batchnorm_buffers_only_witness :
  let s := mkSt {[ "head.weight" := [5%Z] ]} true 0 in
  bn_buffer "head.weight" = false
  /\ store (snd (BryoFormer_forward "" (model demo_pipeline)
                   (mkTensor [2; 3; 224; 224] [7%Z]) s)) !! "head.weight"
     = Some [5%Z].
Proof.
  intros s. split; [reflexivity|].
  exact (proj1 (forward_writes_batchnorm_buffers_only "" (model demo_pipeline)
                  (mkTensor [2; 3; 224; 224] [7%Z]) s "head.weight" eq_refl)).
Defined.

(** Five tokens do not make a square grid. *)
Lemma blocks_reject_non_square_witness :
  let x := mkTensor [1; 5; 384] [1%Z] in
  let s := mkSt ∅ false 0 in
  isqrt 5 * isqrt 5 <> 5
  /\ forall b, block_forward "blocks.0." b x s = (Raise RuntimeError, s).
Proof.
  intros x s.
  assert (H5 : isqrt 5 * isqrt 5 <> 5) by (vm_compute; lia).
  split; [exact H5|]. intros b.
  exact (proj1 (blocks_reject_non_square "blocks.0." 0 b [] x 1 5 384 s eq_refl
                  (Nat.neq_succ_0 0) (Nat.neq_succ_0 383) H5)).
Defined.

(** A photograph that was not resized to 224 by 224. *)
Lemma forward_rejects_wrong_input_witness :
  let x := mkTensor [1; 3; 100; 100] [7%Z] in
  let s := mkSt ∅ false 0 in
  (100, 100) <> pe_img_size (bf_patch_embed (model demo_pipeline))
  /\ BryoFormer_forward "" (model demo_pipeline) x s = (Raise AssertionError, s).
Proof.
  intros x s.
  assert (Hsz : (100, 100) <> pe_img_size (bf_patch_embed (model demo_pipeline)))
    by (vm_compute; discriminate).
  split; [exact Hsz|].
  exact (proj2 (proj1 (forward_rejects_wrong_input "" (model demo_pipeline) x s)
                  1 3 100 100 eq_refl Hsz)).
Defined.

End RejectionRuns.

(** ** Checkpoint keys: round trip and collisions *)

Section KeyRoundTrip.
Context `{Numerics}.

Lemma store_all_prefixed p sd acc :
  (forall k, new_key (p +:+ k) = k) ->
  NoDup (fst <$> (acc ++ sd)) ->
  store_all acc (add_prefix p sd) = acc ++ sd.
Proof.
  intros Hp. revert acc.
  induction sd as [|[k v] sd IH]; intros acc Hnd; cbn [add_prefix fmap list_fmap].
  - by rewrite app_nil_r.
  - unfold store_all. cbn [foldl fst snd]. rewrite Hp.
    rewrite fmap_app in Hnd. cbn [fmap list_fmap fst] in Hnd.
    apply NoDup_app in Hnd as (Ha & Hdisj & Hs).
    rewrite dict_set_fresh.
    + change (store_all (acc ++ [(k, v)]) (add_prefix p sd)
              = acc ++ (k, v) :: sd).
      rewrite IH; [by rewrite <- app_assoc|].
      rewrite !fmap_app. cbn [fmap list_fmap fst]. rewrite <- app_assoc.
      apply NoDup_app. split_and!; [done|exact Hdisj|done].
    + intros Hin. apply (Hdisj _ Hin). left.
Qed.

(** X8.  Key normalisation undoes a wrapper: a state dict saved from under
    [nn.DataParallel] (every key prefixed with "module.") or from under an
    attribute [model] (prefixed with "model.") is restored entry for entry,
    in the same order. *)
Theorem normalize_undoes_prefix p (sd : list (string * pyobj)) :
  p = "module." \/ p = "model." ->
  NoDup (fst <$> sd) ->
  normalize_state_dict (add_prefix p sd) = sd.
Proof.
  intros Hp Hnd. unfold normalize_state_dict.
  rewrite strip_loop_strings. cbn [fst].
  apply (store_all_prefixed p sd []); [|exact Hnd].
  intros k. destruct Hp as [->| ->]; destruct k; reflexivity.
Qed.

Lemma dict_get_set (d : list (string * pyobj)) k v k' :
  dict_get (dict_set d k v) k'
  = if decide (k' = k) then Some v else dict_get d k'.
Proof.
  induction d as [|[k0 v0] d IH]; cbn [dict_set dict_get].
  - by destruct (decide (k' = k)).
  - destruct (decide (k = k0)) as [->|Hne]; cbn [dict_get].
    + by destruct (decide (k' = k0)).
    + destruct (decide (k' = k0)) as [->|Hne'].
      * by rewrite decide_False by done.
      * exact IH.
Qed.

Lemma store_all_lookup sd acc k :
  dict_get (store_all acc sd) k
  = match last (entries_for k sd) with
    | Some kv => Some (snd kv)
    | None => dict_get acc k
    end.
Proof.
  induction sd as [|[k0 v0] sd IH] using rev_ind; [reflexivity|].
  unfold store_all, entries_for in *. rewrite foldl_app, filter_app.
  cbn [foldl fst snd]. rewrite dict_get_set.
  rewrite filter_cons, filter_nil. cbn [fst].
  destruct (decide (new_key k0 = k)) as [Heq|Hne].
  - rewrite decide_True by done. by rewrite last_snoc.
  - rewrite decide_False by done. by rewrite app_nil_r.
Qed.

(** X9.  When several keys of a checkpoint normalise to the same name, the
    entry that comes last in the checkpoint wins: the value stored under a
    name is that of the last entry whose key normalises to it, and a name no
    key normalises to is absent. *)
Theorem normalize_last_entry_wins (sd : list (string * pyobj)) k :
  dict_get (normalize_state_dict sd) k = snd <$> last (entries_for k sd).
Proof.
  unfold normalize_state_dict. rewrite strip_loop_strings. cbn [fst].
  rewrite store_all_lookup. by destruct (last (entries_for k sd)).
Qed.

End KeyRoundTrip.

Lemma normalize_undoes_prefix_witness :
  let sd := [("head.weight", @POther run_numerics); ("head.bias", POther)] in
  NoDup (fst <$> sd)
  /\ normalize_state_dict (add_prefix "module." sd) = sd.
Proof.
  intros sd.
  assert (Hnd : NoDup (fst <$> sd)).
  { apply NoDup_cons. split; [|apply NoDup_singleton].
    intros Hin%list_elem_of_singleton. discriminate Hin. }
  split; [exact Hnd|].
  exact (normalize_undoes_prefix "module." sd (or_introl eq_refl) Hnd).
Defined.
(** ** What loading a checkpoint leaves in the model *)

Section LoadingEffect.
Context `{Numerics}.

Lemma St_eta (s : St) : mkSt (store s) (training s) (rng s) = s.
Proof. by destruct s. Qed.

Lemma load_entry_effect sd e :
  exists r (W : gmap string D),
    forall s, load_entry sd e s = (r, mkSt (W ∪ store s) (training s) (rng s)).
Proof.
  destruct e as [name sh]. unfold load_entry.
  destruct (dict_get sd name) as [[t| |]|].
  - destruct (match sh, tshape t with
              | [], [n] => if n =? 0 then Raise IndexError
                           else Ret (mkTensor [] (kernel "select0" [] [t]))
              | _, _ => Ret t
              end) as [t'|e] eqn:Ht.
    + rewrite bind_lift_ret. destruct (shape_eqb (tshape t') sh).
      * exists (Ret true), {[ name := tdata t' ]}. intros s.
        unfold bind, set_buffer, ret. by rewrite insert_union_singleton_l.
      * exists (Ret false), ∅. intros s. unfold ret.
        by rewrite (left_id ∅ (∪)), St_eta.
    + exists (Raise e), ∅. intros s. unfold bind, lift.
      by rewrite (left_id ∅ (∪)), St_eta.
  - exists (Ret false), ∅. intros s. unfold ret.
    by rewrite (left_id ∅ (∪)), St_eta.
  - exists (Ret false), ∅. intros s. unfold ret.
    by rewrite (left_id ∅ (∪)), St_eta.
  - exists (Ret true), ∅. intros s. unfold ret.
    by rewrite (left_id ∅ (∪)), St_eta.
Qed.

Lemma load_entries_effect sd layout :
  exists r (W : gmap string D),
    forall s, load_entries sd layout s
              = (r, mkSt (W ∪ store s) (training s) (rng s)).
Proof.
  induction layout as [|e rest (r2 & W2 & IH)]; cbn [load_entries].
  - exists (Ret true), ∅. intros s. unfold ret.
    by rewrite (left_id ∅ (∪)), St_eta.
  - destruct (load_entry_effect sd e) as (r1 & W1 & H1).
    destruct r1 as [ok|e1].
    + destruct r2 as [ok'|e2].
      * exists (Ret (ok && ok')), (W2 ∪ W1). intros s.
        unfold bind. rewrite H1, IH. cbn [store training rng ret].
        by rewrite (assoc_L (∪)).
      * exists (Raise e2), (W2 ∪ W1). intros s.
        unfold bind. rewrite H1, IH. cbn [store training rng].
        by rewrite (assoc_L (∪)).
    + exists (Raise e1), W1. intros s. unfold bind. by rewrite H1.
Qed.

Lemma load_state_dict_effect layout sd :
  exists r (W : gmap string D),
    forall s, load_state_dict layout sd s
              = (r, mkSt (W ∪ store s) (training s) (rng s)).
Proof.
  destruct (load_entries_effect sd layout) as (r & W & Hr).
  unfold load_state_dict. destruct r as [[|]|e].
  - exists (Ret tt), W. intros s. unfold bind. by rewrite Hr.
  - exists (Raise RuntimeError), W. intros s. unfold bind. by rewrite Hr.
  - exists (Raise e), W. intros s. unfold bind. by rewrite Hr.
Qed.

(** Loading the same dictionary a second time changes nothing. *)
Lemma load_state_dict_idem layout sd s :
  snd (load_state_dict layout sd (snd (load_state_dict layout sd s)))
  = snd (load_state_dict layout sd s).
Proof.
  destruct (load_state_dict_effect layout sd) as (r & W & Hr).
  rewrite !Hr. cbn [snd store training rng].
  by rewrite (assoc_L (∪)), (idemp_L (∪)).
Qed.

Lemma load_state_dict_twice layout sd s :
  fst (load_state_dict layout sd (snd (load_state_dict layout sd s)))
  = fst (load_state_dict layout sd s).
Proof.
  destruct (load_state_dict_effect layout sd) as (r & W & Hr).
  by rewrite !Hr.
Qed.

Lemma retry_load_state layout sd s :
  retry_load layout (Some sd) s = (Ret tt, snd (load_state_dict layout sd s)).
Proof.
  unfold retry_load, try_except.
  by destruct (load_state_dict layout sd s) as [[[]|e] s'].
Qed.

(** X10.  However the [try] block of [load_model] ends, the weights are
    those of one [load_state_dict(new_state_dict, strict=False)] on the
    dictionary the block had built when it ended, or untouched when that
    local was not yet bound; the retry in the handler adds nothing to a load
    that already ran, and nothing is raised. *)
Theorem load_weights_is_one_load w layout model_path (s : St) :
  load_weights w layout model_path s
  = (Ret tt,
     match bound_state_dict w layout model_path s with
     | Some new_state_dict => snd (load_state_dict layout new_state_dict s)
     | None => s
     end).
Proof.
  unfold load_weights, bound_state_dict, load_checkpoint.
  destruct (checkpoint <- torch_load w model_path ;;;
            top <- py_items checkpoint ;;;
            Ret (unwrap_checkpoint checkpoint top)) as [state_dict|e];
    [|reflexivity].
  destruct (py_items state_dict) as [items|e].
  - destruct (strip_loop items []) as [nsd [e|]].
    + cbn [fst]. apply retry_load_state.
    + destruct (load_state_dict layout nsd s) as [[[]|e] s'] eqn:Hl;
        cbn [fst snd]; rewrite ?Hl; cbn [fst snd].
      * reflexivity.
      * rewrite retry_load_state. f_equal.
        pose proof (load_state_dict_idem layout nsd s) as Hi.
        by rewrite Hl in Hi.
  - cbn [fst]. apply retry_load_state.
Qed.

Lemma load_entry_other sd e s name :
  name <> fst e -> store (snd (load_entry sd e s)) !! name = store s !! name.
Proof.
  intros Hne. destruct (load_entry_frame [fst e] sd e s) as (_ & _ & Hf);
    [by left|].
  apply Hf. by intros ->%list_elem_of_singleton.
Qed.

Lemma load_entry_own sd name sh s s0 :
  store s !! name = store s0 !! name ->
  store (snd (load_entry sd (name, sh) s)) !! name
  = store (snd (load_entry sd (name, sh) s0)) !! name.
Proof.
  intros Hs. destruct (load_entry_effect sd (name, sh)) as (r & W & Hr).
  rewrite !Hr. cbn [snd store]. rewrite !lookup_union, Hs. done.
Qed.

Lemma load_entries_lookup sd layout : forall s ok s' name sh,
  NoDup (fst <$> layout) ->
  load_entries sd layout s = (Ret ok, s') ->
  (name, sh) ∈ layout ->
  store s' !! name = store (snd (load_entry sd (name, sh) s)) !! name.
Proof.
  induction layout as [|e rest IH]; intros s ok s' name sh Hnd Hr Hin.
  - by apply elem_of_nil in Hin.
  - cbn [load_entries] in Hr. unfold bind in Hr.
    destruct (load_entry sd e s) as [[ok1|e1] s1] eqn:H1; [|discriminate Hr].
    destruct (load_entries sd rest s1) as [[ok2|e2] s2] eqn:H2;
      [|discriminate Hr].
    injection Hr as _ <-.
    rewrite fmap_cons in Hnd. apply NoDup_cons in Hnd as [Hfresh Hnd].
    apply elem_of_cons in Hin as [<-|Hin].
    + rewrite H1. cbn [snd].
      destruct (load_entries_frame (fst <$> rest) sd rest s1) as (_ & _ & Hf).
      { intros e' He'. by apply list_elem_of_fmap_2. }
      rewrite H2 in Hf. by apply Hf.
    + rewrite (IH s1 ok2 s2 name sh Hnd H2 Hin).
      apply load_entry_own.
      pose proof (load_entry_other sd e s name) as Ho. rewrite H1 in Ho.
      apply Ho. intros ->. apply Hfresh.
      by apply (list_elem_of_fmap_2 fst _ (fst e, sh)).
Qed.

Lemma load_entries_raise sd layout : forall s e s',
  load_entries sd layout s = (Raise e, s') -> e = IndexError.
Proof.
  induction layout as [|[name sh] rest IH]; intros s e s' Hr;
    cbn [load_entries] in Hr.
  - discriminate Hr.
  - unfold bind in Hr.
    destruct (load_entry sd (name, sh) s) as [[ok1|e1] s1] eqn:H1.
    + destruct (load_entries sd rest s1) as [[ok2|e2] s2] eqn:H2.
      * discriminate Hr.
      * injection Hr as <- _. by eapply IH.
    + injection Hr as <- _. unfold load_entry in H1.
      destruct (dict_get sd name) as [[t| |]|]; try discriminate H1.
      destruct sh as [|? ?]; [destruct (tshape t) as [|n [|? ?]]|];
        try (rewrite bind_lift_ret in H1;
             destruct (shape_eqb _ _); discriminate H1).
      destruct (n =? 0).
      * by injection H1 as <- _.
      * rewrite bind_lift_ret in H1. destruct (shape_eqb _ _); discriminate H1.
Qed.


Lemma unwrap_nested top items i k :
  wrapper_keys !! i = Some k ->
  dict_get top (KStr k) = Some (PDict items) ->
  (forall j k', j < i -> wrapper_keys !! j = Some k' ->
     dict_get top (KStr k') = None) ->
  unwrap_checkpoint (PDict top) top = PDict items.
Proof.
  intros Hk Hget Hprio. unfold unwrap_checkpoint, wrapper_keys in *.
  destruct i as [|[|[|i]]]; cbn in Hk; try discriminate Hk;
    injection Hk as <-.
  - by rewrite Hget.
  - rewrite (Hprio 0 "model_state_dict") by (lia || reflexivity).
    by rewrite Hget.
  - rewrite (Hprio 0 "model_state_dict") by (lia || reflexivity).
    rewrite (Hprio 1 "state_dict") by (lia || reflexivity).
    by rewrite Hget.
Qed.

Lemma unwrap_flat items :
  (forall k', k' ∈ wrapper_keys -> dict_get items (KStr k') = None) ->
  unwrap_checkpoint (PDict items) items = PDict items.
Proof.
  intros Hflat. unfold unwrap_checkpoint.
  rewrite !Hflat; [reflexivity|..]; unfold wrapper_keys; set_solver.
Qed.

(** X12.  A state dict nested in a checkpoint under "model_state_dict",
    "state_dict" or "model" (the first of these keys that the checkpoint
    has) is loaded exactly like the same state dict saved on its own: the
    same weights, with the same outcome. *)
Theorem nested_checkpoint_loads_like_flat w1 w2 model_path top items i k
    layout (s : St) num_classes g :
  files w1 !! model_path = Some (FCheckpoint (PDict top)) ->
  files w2 !! model_path = Some (FCheckpoint (PDict items)) ->
  wrapper_keys !! i = Some k ->
  dict_get top (KStr k) = Some (PDict items) ->
  (forall j k', j < i -> wrapper_keys !! j = Some k' ->
     dict_get top (KStr k') = None) ->
  (forall k', k' ∈ wrapper_keys -> dict_get items (KStr k') = None) ->
  load_weights w1 layout model_path s = load_weights w2 layout model_path s
  /\ load_model w1 num_classes (Some model_path) g
     = load_model w2 num_classes (Some model_path) g.
Proof.
  intros Hf1 Hf2 Hk Hget Hprio Hflat.
  assert (Hlw : forall layout s,
    load_weights w1 layout model_path s = load_weights w2 layout model_path s).
  { intros layout' s0. unfold load_weights, load_checkpoint, torch_load.
    rewrite Hf1, Hf2. cbn [rbind py_items].
    rewrite (unwrap_nested top items i k Hk Hget Hprio).
    by rewrite (unwrap_flat items Hflat). }
  split; [apply Hlw|].
  unfold load_model, load_model_weights, path_exists. rewrite Hf1, Hf2.
  destruct (BryoFormer_init 224 16 3 num_classes 384 8 2 None false 0 0 0)
    as [m|e]; [|reflexivity].
  cbn [rbind]. unfold bind.
  destruct (bool_decide (model_path = "")); cbn [negb andb]; [reflexivity|].
  rewrite !bool_decide_eq_true_2 by (by eexists).
  by rewrite Hlw.
Qed.

End LoadingEffect.
Section LoadingRuns.
#[local] Existing Instance run_numerics.


(** The wrapped checkpoint of [demo_world] against the same state dict saved
    flat. *)
Lemma nested_checkpoint_loads_like_flat_witness :
  let items := [(KStr "module.head.bias", PTensor (mkTensor [44] [1%Z]));
                (KStr "module.norm.weight", PTensor (mkTensor [5] [2%Z]));
                (KStr "module.unknown", PTensor (mkTensor [1] [3%Z]))] in
  let flat := mkWorld {[ "weights/wrapped.pth" := FCheckpoint (PDict items) ]} in
  load_model demo_world 44 (Some "weights/wrapped.pth") 0
  = load_model flat 44 (Some "weights/wrapped.pth") 0.
Proof.
  intros items flat.
  refine (proj2 (nested_checkpoint_loads_like_flat demo_world flat
                   "weights/wrapped.pth" [(KStr "model_state_dict", PDict items)]
                   items 0 "model_state_dict" [] (mkSt ∅ true 0) 44 0
                   eq_refl eq_refl eq_refl eq_refl _ _)).
  - intros j k' Hj. inversion Hj.
  - intros k' Hk'. unfold wrapper_keys in Hk'.
    repeat (apply elem_of_cons in Hk' as [->|Hk']; [reflexivity|]).
    by apply elem_of_nil in Hk'.
Defined.

End LoadingRuns.

(** ** The ranked list that [predict] returns *)

Section Ranking.
Context `{Numerics}.

Lemma rank_insert_perm p i l : rank_insert p i l ≡ₚ i :: l.
Proof.
  induction l as [|j l IH]; cbn [rank_insert]; [reflexivity|].
  destruct (F_leb (elem p i) (elem p j)); [|reflexivity].
  rewrite IH. apply Permutation_swap.
Qed.

Lemma ranking_perm p n : ranking p n ≡ₚ seq 0 n.
Proof.
  unfold ranking.
  assert (Hg : forall xs acc,
    foldl (fun l i => rank_insert p i l) acc xs ≡ₚ acc ++ xs).
  { induction xs as [|x xs IH]; intros acc; cbn [foldl].
    - by rewrite app_nil_r.
    - rewrite IH, rank_insert_perm. apply Permutation_middle. }
  apply (Hg (seq 0 n) []).
Qed.

Lemma ranking_NoDup p n : NoDup (ranking p n).
Proof. rewrite ranking_perm. apply NoDup_seq. Qed.

Lemma ranking_bound p n i : i ∈ ranking p n -> i < n.
Proof. rewrite ranking_perm. intros Hi%elem_of_seq. lia. Qed.

Lemma topk_selection x k tp ti :
  topk x k = Ret (tp, ti) ->
  exists n, tshape x = [n] /\ (0 <= k <= Z.of_nat n)%Z
            /\ ti = take (Z.to_nat k) (ranking (tdata x) n)
            /\ tp = elem (tdata x) <$> ti.
Proof.
  unfold topk. destruct (tshape x) as [|n [|? ?]]; try discriminate.
  destruct (Z.ltb_spec k 0); [discriminate|].
  destruct (Z.ltb_spec (Z.of_nat n) k); [discriminate|].
  cbn [orb]. intros [= <- <-]. exists n. by split_and!; [|lia|..].
Qed.

Lemma label_fields cn i c p :
  label cn (i, c) = Some p ->
  exists entry,
    cn !! pretty i = Some entry
    /\ p !! "class_id" = Some (VInt (Z.of_nat i))
    /\ confidence p = Some c
    /\ forall key, key <> "class_id" -> key <> "confidence" ->
         p !! key = entry !! key.
Proof.
  unfold label. cbn [fst snd]. destruct (cn !! pretty i) as [entry|]; [|done].
  cbn. intros [= <-]. exists entry. split; [reflexivity|].
  split; [by rewrite lookup_insert_eq|]. split.
  - unfold confidence. rewrite lookup_insert_ne by done.
    by rewrite lookup_insert_eq.
  - intros key H1 H2. by rewrite !lookup_insert_ne.
Qed.

Lemma labelled_cons cn i ti (c : F) tp :
  labelled cn (i :: ti) (c :: tp)
  = match label cn (i, c) with
    | Some p => p :: labelled cn ti tp
    | None => labelled cn ti tp
    end.
Proof. reflexivity. Qed.

Lemma labelled_origin cn d ti q :
  q ∈ labelled cn ti (elem d <$> ti) ->
  exists j, j ∈ ti /\ label cn (j, elem d j) = Some q.
Proof.
  induction ti as [|i ti IH]; [by intros ?%elem_of_nil|].
  rewrite fmap_cons, labelled_cons.
  destruct (label cn (i, elem d i)) as [p|] eqn:Hp.
  - intros [->|Hq]%elem_of_cons.
    + exists i. split; [left|exact Hp].
    + destruct (IH Hq) as (j & Hj & Hl). exists j. split; [by right|exact Hl].
  - intros Hq. destruct (IH Hq) as (j & Hj & Hl). exists j.
    split; [by right|exact Hl].
Qed.

Lemma labelled_class_ids cn d ti :
  (fun p => p !! "class_id") <$> labelled cn ti (elem d <$> ti)
  = (fun i => Some (VInt (Z.of_nat i)))
    <$> filter (fun i => in_table cn i = true) ti.
Proof.
  induction ti as [|i ti IH]; [reflexivity|].
  rewrite fmap_cons, labelled_cons, filter_cons.
  destruct (label cn (i, elem d i)) as [p|] eqn:Hp.
  - destruct (label_fields _ _ _ _ Hp) as (entry & He & Hid & _).
    rewrite decide_True.
    + by rewrite !fmap_cons, Hid, IH.
    + unfold in_table. apply bool_decide_eq_true_2. by eexists.
  - rewrite decide_False; [exact IH|].
    unfold in_table. rewrite bool_decide_eq_true. intros [entry He].
    unfold label in Hp. cbn [fst] in Hp. by rewrite He in Hp.
Qed.

Lemma predict_cases w self path k :
  (exists x tp ti s,
     topk x k = Ret (tp, ti)
     /\ predict w self path k
        = (Success (labelled (class_names self) ti tp)
             (head (labelled (class_names self) ti tp)), with_state self s))
  \/ exists e s, predict w self path k = (Failure e, with_state self s).
Proof.
  destruct (predict_topk w self path k (model_state self))
    as [[[tp ti]|e] s] eqn:Htop.
  - left. destruct (predict_topk_selection _ _ _ _ _ _ _ _ Htop) as [x Hx].
    exists x, tp, ti, s. split; [exact Hx|]. by apply predict_of_topk.
  - right. exists e, s. unfold predict, predict_body, bind. by rewrite Htop.
Qed.

(** X13.  Whatever the model, the image and [top_k]: the records [predict]
    returns carry pairwise distinct class ids, and each record is the
    taxonomy entry of its class with the two fields [confidence] and
    [class_id] set (an entry's own fields of these names are overwritten). *)
Theorem predictions_are_labelled_entries w self path k :
  let r := fst (predict w self path k) in
  NoDup ((fun p => p !! "class_id") <$> predictions r)
  /\ forall p, p ∈ predictions r ->
       exists i c entry,
         class_names self !! pretty i = Some entry
         /\ p !! "class_id" = Some (VInt (Z.of_nat i))
         /\ p !! "confidence" = Some (VFloat c)
         /\ forall key, key <> "class_id" -> key <> "confidence" ->
              p !! key = entry !! key.
Proof.
  destruct (predict_cases w self path k)
    as [(x & tp & ti & s & Hx & ->)|(e & s & ->)]; cbn [fst predictions].
  - apply topk_selection in Hx as (n & _ & _ & Hti & ->). split.
    + rewrite labelled_class_ids. apply NoDup_fmap_2.
      { intros i j [= Hij]. by apply Nat2Z.inj. }
      apply NoDup_filter. rewrite Hti.
      apply (sublist_NoDup _ (ranking (tdata x) n));
        [apply ranking_NoDup|apply sublist_take].
    + intros p (j & _ & Hl)%labelled_origin.
      destruct (label_fields _ _ _ _ Hl) as (entry & He & Hid & Hc & Hrest).
      exists j, (elem (tdata x) j), entry. split_and!; try done.
      unfold confidence in Hc.
      destruct (p !! "confidence") as [[]|]; congruence.
  - split; [constructor|]. by intros p ?%elem_of_nil.
Qed.

Lemma rank_insert_sorted p i l :
  F_leb_total -> F_leb_trans ->
  StronglySorted (fun a b => F_leb (elem p b) (elem p a) = true) l ->
  StronglySorted (fun a b => F_leb (elem p b) (elem p a) = true)
    (rank_insert p i l).
Proof.
  intros Htot Htr. induction l as [|j l IH]; intros Hs; cbn [rank_insert].
  - by repeat constructor.
  - apply StronglySorted_inv in Hs as [Hs Hj].
    destruct (F_leb (elem p i) (elem p j)) eqn:Hij.
    + constructor; [by apply IH|].
      rewrite rank_insert_perm. by constructor.
    + assert (Hji : F_leb (elem p j) (elem p i) = true).
      { destruct (Htot (elem p i) (elem p j)); congruence. }
      constructor; [by constructor|]. constructor; [exact Hji|].
      eapply Forall_impl; [exact Hj|]. intros a Ha. cbn beta in *.
      by apply (Htr _ (elem p j)).
Qed.

Lemma ranking_sorted p n :
  F_leb_total -> F_leb_trans ->
  StronglySorted (fun a b => F_leb (elem p b) (elem p a) = true) (ranking p n).
Proof.
  intros Htot Htr. unfold ranking.
  assert (Hg : forall xs acc,
    StronglySorted (fun a b => F_leb (elem p b) (elem p a) = true) acc ->
    StronglySorted (fun a b => F_leb (elem p b) (elem p a) = true)
      (foldl (fun l i => rank_insert p i l) acc xs)).
  { induction xs as [|x xs IH]; intros acc Hacc; cbn [foldl]; [exact Hacc|].
    by apply IH, rank_insert_sorted. }
  apply Hg. constructor.
Qed.

Lemma StronglySorted_take {A : Type} (R : A -> A -> Prop) k l :
  StronglySorted R l -> StronglySorted R (take k l).
Proof.
  revert k. induction l as [|a l IH]; intros [|k] Hs; cbn [take];
    try constructor.
  - apply StronglySorted_inv in Hs as [Hs _]. by apply IH.
  - apply StronglySorted_inv in Hs as [_ Ha].
    apply Forall_forall. intros b Hb.
    rewrite Forall_forall in Ha. apply Ha.
    eapply elem_of_sublist; [exact Hb|apply sublist_take].
Qed.

Lemma labelled_sorted cn d ti :
  StronglySorted (fun a b => F_leb (elem d b) (elem d a) = true) ti ->
  StronglySorted ranked_before (labelled cn ti (elem d <$> ti)).
Proof.
  induction ti as [|i ti IH]; intros Hs; [constructor|].
  apply StronglySorted_inv in Hs as [Hs Hi].
  rewrite fmap_cons, labelled_cons.
  destruct (label cn (i, elem d i)) as [p|] eqn:Hp; [|by apply IH].
  constructor; [by apply IH|].
  apply Forall_forall. intros q Hq.
  apply labelled_origin in Hq as (j & Hj & Hl).
  destruct (label_fields _ _ _ _ Hp) as (_ & _ & _ & Hcp & _).
  destruct (label_fields _ _ _ _ Hl) as (_ & _ & _ & Hcq & _).
  exists (elem d i), (elem d j). split; [exact Hcp|]. split; [exact Hcq|].
  rewrite Forall_forall in Hi. by apply Hi.
Qed.

(** X14.  When the order on confidences is total and transitive, the
    records [predict] returns are in order of non-increasing confidence, and
    [top_prediction] is at least as confident as every record of the
    list. *)
Theorem predictions_sorted_by_confidence w self path k :
  F_leb_total -> F_leb_trans ->
  let r := fst (predict w self path k) in
  StronglySorted ranked_before (predictions r)
  /\ forall t p, top_prediction r = Some t -> p ∈ predictions r ->
       p = t \/ ranked_before t p.
Proof.
  intros Htot Htr r.
  assert (Hs : StronglySorted ranked_before (predictions r)).
  { subst r. destruct (predict_cases w self path k)
      as [(x & tp & ti & s & Hx & ->)|(e & s & ->)]; cbn [fst predictions];
      [|constructor].
    apply topk_selection in Hx as (n & _ & _ & -> & ->).
    by apply labelled_sorted, StronglySorted_take, ranking_sorted. }
  split; [exact Hs|]. intros t p Ht Hp.
  assert (Hhd : top_prediction r = head (predictions r)).
  { subst r. by destruct (predict_cases w self path k)
      as [(x & tp & ti & s & Hx & ->)|(e & s & ->)]. }
  rewrite Hhd in Ht. destruct (predictions r) as [|t' ps]; [done|].
  injection Ht as ->. apply StronglySorted_inv in Hs as [_ Hall].
  apply elem_of_cons in Hp as [->|Hp]; [by left|right].
  rewrite Forall_forall in Hall. by apply Hall.
Qed.

Lemma predict_topk_factor w self path s :
  exists (r : res Tensor) s1,
    forall k, predict_topk w self path k s = (rbind r (fun p => topk p k), s1).
Proof.
  unfold predict_topk, bind, lift.
  destruct (Image_open w path) as [image|e]; [|by exists (Raise e), s].
  destruct (BryoFormer_forward "" (model self) (unsqueeze0 (transform image)) s)
    as [[outputs|e] s1]; [|by exists (Raise e), s1].
  destruct (select0 outputs) as [out0|e]; [|by exists (Raise e), s1].
  destruct (softmax out0 0) as [probs|e]; [|by exists (Raise e), s1].
  by exists (Ret probs), s1.
Qed.

Lemma labelled_take cn d ti k :
  labelled cn (take k ti) (elem d <$> take k ti)
  `prefix_of` labelled cn ti (elem d <$> ti).
Proof.
  revert k. induction ti as [|i ti IH]; intros [|k]; cbn [take];
    try apply prefix_nil.
  rewrite !fmap_cons, !labelled_cons.
  destruct (label cn (i, elem d i)); [apply prefix_cons|]; apply IH.
Qed.

Lemma predictions_prefix w self path k k' :
  (k <= k')%Z ->
  success (fst (predict w self path k')) = true ->
  predictions (fst (predict w self path k))
  `prefix_of` predictions (fst (predict w self path k')).
Proof.
  intros Hk Hok.
  destruct (predict_topk_factor w self path (model_state self))
    as (r & s1 & Hr).
  destruct r as [probs|e].
  - pose proof (Hr k) as H1. pose proof (Hr k') as H2. cbn [rbind] in H1, H2.
    destruct (topk probs k') as [[tp' ti']|e'] eqn:Hk'.
    + rewrite (predict_of_topk _ _ _ _ _ _ _ H2). cbn [fst predictions].
      apply topk_selection in Hk' as (n & Hn & Hb' & -> & ->).
      destruct (topk probs k) as [[tp ti]|e] eqn:Hkk.
      * rewrite (predict_of_topk _ _ _ _ _ _ _ H1). cbn [fst predictions].
        apply topk_selection in Hkk as (n0 & Hn0 & Hb & -> & ->).
        assert (n0 = n) as -> by congruence.
        replace (take (Z.to_nat k) (ranking (tdata probs) n))
          with (take (Z.to_nat k)
                  (take (Z.to_nat k') (ranking (tdata probs) n))).
        { apply labelled_take. }
        rewrite take_take. f_equal. lia.
      * unfold predict, predict_body, bind. rewrite H1. apply prefix_nil.
    + unfold predict, predict_body, bind in Hok. rewrite H2 in Hok.
      discriminate Hok.
  - unfold predict, predict_body, bind in Hok. rewrite (Hr k') in Hok.
    discriminate Hok.
Qed.

(** X15.  Asking for more results never changes the earlier ones: when
    [topk] selects for [top_k = k'] and the confidences it selects are
    pairwise distinct (among equal values the order [torch.topk] returns is
    not fixed), the list [predict] returns for any [k <= k'] on the same
    pipeline and image is a prefix of the list for [k']. *)
Theorem predictions_prefix_in_top_k w self path k k' tp' ti' s' :
  (k <= k')%Z ->
  predict_topk w self path k' (model_state self) = (Ret (tp', ti'), s') ->
  NoDup tp' ->
  predictions (fst (predict w self path k))
  `prefix_of` predictions (fst (predict w self path k')).
Proof.
  intros Hk Htop _. apply predictions_prefix; [exact Hk|].
  by rewrite (predict_of_topk _ _ _ _ _ _ _ Htop).
Qed.

(** X16.  A path that does not hold an image makes [predict] return the
    failure dictionary for [OSError], with an empty prediction list, before
    the model is run: the pipeline is left as it was. *)
Theorem predict_unreadable_image w (self : PlantRecognitionModel) path k :
  (forall width height pixels,
     files w !! path <> Some (FImage width height pixels)) ->
  predict w self path k = (Failure OSError, self)
  /\ predictions (fst (predict w self path k)) = [].
Proof.
  intros Hno.
  assert (Hp : predict w self path k = (Failure OSError, self)).
  { unfold predict, predict_body, predict_topk, Image_open, bind, lift.
    destruct self as [nc m st cn]. cbn [model_state].
    destruct (files w !! path) as [[width height pixels| |]|] eqn:Hf;
      try reflexivity.
    by destruct (Hno width height pixels). }
  by rewrite Hp.
Qed.



End Ranking.

Section RankingRuns.
#[local] Existing Instance run_numerics.

Lemma predictions_sorted_by_confidence_witness :
  F_leb_total /\ F_leb_trans
  /\ StronglySorted ranked_before
       (predictions (fst (predict demo_world demo_pipeline "uploads/leaf.jpg" 3))).
Proof.
  assert (Htot : F_leb_total).
  { intros a b. cbn. destruct (Z.leb_spec a b); [by left|right].
    apply Z.leb_le. lia. }
  assert (Htr : F_leb_trans).
  { intros a b c Hab%Z.leb_le Hbc%Z.leb_le. apply Z.leb_le. lia. }
  split; [exact Htot|]. split; [exact Htr|].
  exact (proj1 (predictions_sorted_by_confidence demo_world demo_pipeline
                  "uploads/leaf.jpg" 3 Htot Htr)).
Defined.

Lemma predictions_prefix_in_top_k_witness :
  predict_topk demo_world demo_pipeline "uploads/leaf.jpg" 2
    (model_state demo_pipeline)
  = (Ret ([7; 0]%Z, [0; 1]), model_state demo_pipeline)
  /\ NoDup [7; 0]%Z
  /\ predictions (fst (predict demo_world demo_pipeline "uploads/leaf.jpg" 1))
     `prefix_of`
     predictions (fst (predict demo_world demo_pipeline "uploads/leaf.jpg" 2)).
Proof.
  assert (Htop : predict_topk demo_world demo_pipeline "uploads/leaf.jpg" 2
                   (model_state demo_pipeline)
                 = (Ret ([7; 0]%Z, [0; 1]), model_state demo_pipeline))
    by (vm_compute; reflexivity).
  assert (Hnd : NoDup [7; 0]%Z).
  { apply NoDup_cons. split; [|apply NoDup_singleton].
    intros Hin%list_elem_of_singleton. discriminate Hin. }
  split; [exact Htop|]. split; [exact Hnd|].
  exact (predictions_prefix_in_top_k demo_world demo_pipeline "uploads/leaf.jpg"
           1 2 _ _ _ ltac:(discriminate) Htop Hnd).
Defined.

Lemma predict_unreadable_image_witness :
  (forall width height pixels,
     files demo_world !! "uploads/missing.jpg"
     <> Some (FImage width height pixels))
  /\ predict demo_world demo_pipeline "uploads/missing.jpg" 3
     = (Failure OSError, demo_pipeline).
Proof.
  assert (Hno : forall width height pixels,
            files demo_world !! "uploads/missing.jpg"
            <> Some (FImage width height pixels))
    by (intros; vm_compute; discriminate).
  split; [exact Hno|].
  exact (proj1 (predict_unreadable_image demo_world demo_pipeline
                  "uploads/missing.jpg" 3 Hno)).
Defined.


End RankingRuns.

(** ** Foreign checkpoints: [resize_pos_embed] and [checkpoint_filter_fn] *)

Section Checkpoints.
Context `{Numerics}.

Lemma permute_0312 x B a b C :
  tshape x = [B; a; b; C] -> rshape (permute x [0; 3; 1; 2]) [B; C; a; b].
Proof. intros Hx. unfold permute. rewrite Hx. cbn. by eexists. Qed.

Lemma permute_0231 x B C a b :
  tshape x = [B; C; a; b] -> rshape (permute x [0; 2; 3; 1]) [B; a; b; C].
Proof. intros Hx. unfold permute. rewrite Hx. cbn. by eexists. Qed.

Lemma reshape_infer_inv x sh t :
  reshape_infer x sh = Ret t ->
  numel sh <> 0 /\ numel (tshape x) mod numel sh = 0
  /\ tshape t = sh ++ [numel (tshape x) / numel sh].
Proof.
  unfold reshape_infer.
  destruct (Nat.eqb_spec (numel sh) 0); [discriminate|].
  destruct (Nat.eqb_spec (numel (tshape x) mod numel sh) 0); [|discriminate].
  cbn [orb negb]. by intros [= <-].
Qed.

Lemma resize_pos_embed_inv posemb posemb_new t :
  resize_pos_embed posemb posemb_new = Ret t ->
  exists ntok g C,
    tshape posemb_new !! 1 = Some ntok
    /\ tshape posemb = [1; 1 + g * g; C]
    /\ 1 <= g /\ 1 <= C /\ 1 <= isqrt ntok
    /\ tshape t = [1; 1 + isqrt ntok * isqrt ntok; C].
Proof.
  intros Hr. unfold resize_pos_embed in Hr. ret_inv Hr.
  rename a into ntok, a0 into tok, a1 into grid, a2 into n.
  unfold index in E. destruct (tshape posemb_new !! 1) as [nt|] eqn:Hnt;
    [|discriminate E]. injection E as ->.
  unfold slice_first_token in E0. unfold slice_grid_tokens in E1.
  destruct (tshape posemb) as [|d0 [|d1 rest]] eqn:Hp; try discriminate E0.
  destruct d0 as [|d0]; [discriminate E1|].
  injection E0 as <-. injection E1 as <-.
  cbn [tensor_len tshape] in E2. injection E2 as <-.
  apply reshape_infer_inv in E3 as (Hk & Hmod & Hsh3). cbn [tshape] in *.
  remember (isqrt (d1 - 1)) as g eqn:Hgdef.
  remember (numel (d1 - 1 :: rest) / numel [1; g; g]) as C' eqn:HCdef.
  cbn [app] in Hsh3.
  destruct (permute_0312 a3 1 g g C' Hsh3) as (t4 & Ht4 & Hsh4).
  rewrite Ht4 in E4. injection E4 as <-.
  unfold interpolate_bilinear in E5. rewrite Hsh4 in E5.
  destruct (Nat.eqb_spec C' 0) as [|HC']; [discriminate E5|].
  destruct (Nat.eqb_spec g 0) as [|Hg]; [discriminate E5|].
  destruct (Nat.eqb_spec (isqrt ntok) 0) as [|Hgn]; [discriminate E5|].
  cbn [orb] in E5. injection E5 as <-.
  destruct (permute_0231 (mkTensor [1; C'; isqrt ntok; isqrt ntok]
              (kernel "interpolate_bilinear"
                 [Z.of_nat (isqrt ntok); Z.of_nat (isqrt ntok)] [t4]))
              1 C' (isqrt ntok) (isqrt ntok) eq_refl) as (t6 & Ht6 & Hsh6).
  rewrite Ht6 in E6. injection E6 as <-.
  apply reshape_infer_inv in E7 as (Hk7 & Hmod7 & Hsh7).
  rewrite Hsh6 in Hsh7. cbn [app] in Hsh7.
  assert (Hlast : numel [1; isqrt ntok; isqrt ntok; C']
                  / numel [1; isqrt ntok * isqrt ntok] = C').
  { unfold numel. cbn [foldr]. rewrite !Nat.mul_1_r, ?Nat.mul_1_l.
    rewrite Nat.mul_assoc, Nat.mul_comm, Nat.div_mul; [reflexivity|]. nia. }
  rewrite Hlast in Hsh7.
  unfold cat1 in Hr. cbn [tshape] in Hr. rewrite Hsh7 in Hr.
  destruct (shape_eqb _ _) eqn:Heq; [|discriminate Hr].
  injection Hr as <-. cbn [tshape].
  unfold shape_eqb in Heq. apply bool_decide_eq_true in Heq.
  injection Heq as Hd0 Hrest. subst d0 rest.
  assert (Hsq : d1 - 1 = g * g).
  { unfold numel in Hmod, HCdef. cbn [foldr] in Hmod, HCdef.
    rewrite !Nat.mul_1_r, ?Nat.add_0_r in Hmod, HCdef.
    apply Nat.Div0.div_exact in Hmod. rewrite <- HCdef in Hmod. nia. }
  assert (Hd1 : d1 = 1 + g * g) by nia.
  exists ntok, g, C'. split; [reflexivity|]. split; [by rewrite Hd1|].
  split; [lia|]. split; [lia|]. split; [lia|].
  by rewrite Hd1.
Qed.

(** X18.  [resize_pos_embed] returns only for an embedding of one class
    token and a square grid, [1, 1 + g * g, C], and what it returns has
    [1 + int(sqrt(ntok)) ** 2] tokens, where [ntok] is the token count of the
    target: a class token more than a square grid.  The positional embedding
    of a BryoFormer has [h * h] tokens and no class token, so the result
    never has the shape of the parameter it was resized for. *)
Theorem resize_pos_embed_adds_class_token posemb posemb_new t :
  resize_pos_embed posemb posemb_new = Ret t ->
  (exists ntok g C,
     tshape posemb_new !! 1 = Some ntok
     /\ tshape posemb = [1; 1 + g * g; C] /\ 1 <= g /\ 1 <= C
     /\ tshape t = [1; 1 + isqrt ntok * isqrt ntok; C])
  /\ forall h E, tshape posemb_new = [1; h * h; E] ->
       tshape t <> tshape posemb_new.
Proof.
  intros (ntok & g & C & Hn & Hp & Hg & HC & _ & Ht)%resize_pos_embed_inv.
  split; [by exists ntok, g, C|].
  intros h E Hnew. rewrite Hnew in Hn |- *. injection Hn as <-.
  rewrite Ht. unfold isqrt. rewrite Nat.sqrt_square. intros [= Hbad _]. lia.
Qed.

Lemma dict_set_fresh_key {K V : Type} `{EqDecision K} (d : list (K * V)) k v :
  k ∉ fst <$> d -> dict_set d k v = d ++ [(k, v)].
Proof.
  induction d as [|[k' v'] d IH]; cbn [dict_set]; [done|].
  intros Hn. destruct (decide (k = k')) as [->|Hne].
  - exfalso. apply Hn. left.
  - cbn [app]. rewrite IH; [done|]. intros ?. apply Hn. by right.
Qed.

Lemma filter_entry_state pre m k v s r s' :
  filter_entry pre m k v s = (r, s') -> s' = s.
Proof.
  unfold filter_entry. destruct k as [ks|z]; [|by intros [= _ <-]].
  unfold bind, lift, raise, ret, param.
  destruct (if contains "patch_embed.proj.weight" ks
            then sh <- py_shape v;;; Ret (length sh <? 4)
            else Ret false) as [[|]|e]; try by intros [= _ <-].
  destruct (bool_decide (ks = "pos_embed")); [|by intros [= _ <-]].
  destruct (py_shape v) as [sh|e]; [|by intros [= _ <-]].
  cbn [tshape]. destruct (shape_eqb _ _); [by intros [= _ <-]|].
  destruct v as [t| |]; try by intros [= _ <-].
  destruct (resize_pos_embed _ _); by intros [= _ <-].
Qed.

Lemma filter_loop_inv pre m items : forall acc s out s',
  NoDup ((fst <$> acc) ++ (fst <$> items)) ->
  filter_loop pre m items acc s = (Ret out, s') ->
  s' = s /\ exists new, out = acc ++ new /\ Forall2 (filtered pre m s) items new.
Proof.
  induction items as [|[k v] items IH]; intros acc s out s' Hnd Hr;
    cbn [filter_loop] in Hr.
  - injection Hr as <- <-. split; [done|]. exists []. by rewrite app_nil_r.
  - unfold bind in Hr.
    destruct (filter_entry pre m k v s) as [[v'|e] s1] eqn:He; [|discriminate Hr].
    pose proof (filter_entry_state _ _ _ _ _ _ _ He) as ->.
    cbn [fmap list_fmap fst] in Hnd.
    rewrite dict_set_fresh_key in Hr.
    + apply IH in Hr as (-> & new & -> & Hall).
      * split; [done|]. exists ((k, v') :: new).
        split; [by rewrite <- app_assoc|]. constructor; [|exact Hall].
        by split.
      * rewrite fmap_app. cbn [fmap list_fmap fst]. rewrite <- app_assoc.
        exact Hnd.
    + apply NoDup_app in Hnd as (_ & Hdisj & _). intros Hin.
      apply (Hdisj _ Hin). left.
Qed.

Lemma filter_entry_inv pre m k v s v' :
  filter_entry pre m k v s = (Ret v', s) ->
  exists ks,
    k = KStr ks
    /\ (contains "patch_embed.proj.weight" ks = true ->
        exists t, v = PTensor t /\ 4 <= length (tshape t))
    /\ (ks <> "pos_embed" -> v' = v)
    /\ (ks = "pos_embed" ->
        exists t, v = PTensor t
          /\ (v' = v
              \/ exists t',
                   v' = PTensor t'
                   /\ resize_pos_embed t
                        (mkTensor [1; pe_num_patches (bf_patch_embed m);
                                   bf_embed_dim m]
                           (default (init_data (pre +:+ "pos_embed"))
                              (store s !! (pre +:+ "pos_embed"))))
                      = Ret t')).
Proof.
  unfold filter_entry. destruct k as [ks|z]; [|discriminate].
  intros Hr. exists ks. split; [reflexivity|].
  unfold bind, lift, raise, ret, param in Hr.
  destruct (contains "patch_embed.proj.weight" ks) eqn:Hc.
  - destruct v as [t| |]; cbn [py_shape rbind] in Hr; try discriminate Hr.
    destruct (Nat.ltb_spec (length (tshape t)) 4); [discriminate Hr|].
    split; [intros _; by exists t|].
    destruct (bool_decide_reflect (ks = "pos_embed")) as [->|Hne].
    + split; [done|]. intros _. exists t. split; [reflexivity|].
      cbn [tshape] in Hr. destruct (shape_eqb _ _).
      * left. by injection Hr as <-.
      * right. destruct (resize_pos_embed _ _) as [t'|e] eqn:Hrs;
          [|discriminate Hr].
        exists t'. split; [by injection Hr as <-|reflexivity].
    + split; [intros _; by injection Hr as <-|done].
  - split; [discriminate|].
    destruct (bool_decide_reflect (ks = "pos_embed")) as [->|Hne].
    + split; [done|]. intros _.
      destruct v as [t| |]; cbn [py_shape] in Hr; try discriminate Hr.
      exists t. split; [reflexivity|].
      cbn [tshape] in Hr. destruct (shape_eqb _ _).
      * left. by injection Hr as <-.
      * right. destruct (resize_pos_embed _ _) as [t'|e] eqn:Hrs;
          [|discriminate Hr].
        exists t'. split; [by injection Hr as <-|reflexivity].
    + split; [intros _; by injection Hr as <-|done].
Qed.

(** X19.  When [checkpoint_filter_fn] returns, the dictionary it returns has
    the keys of the state dict it filtered, in the same order, with the same
    values except possibly under "pos_embed"; no key contains
    "patch_embed.proj.weight" with a tensor of fewer than four dimensions
    (that branch reads [model.patch_embed.proj], which [PatchEmbed] does not
    have); and a "pos_embed" that fits a model with a square grid of patches
    in the result was already fitting in the input: the resizing never
    repairs one.  The model is not written. *)
Theorem checkpoint_filter_fn_keeps_entries pre state_dict m items (s : St) out s' :
  state_dict_items state_dict = Ret items ->
  NoDup (fst <$> items) ->
  checkpoint_filter_fn pre state_dict m s = (Ret out, s') ->
  s' = s
  /\ fst <$> out = fst <$> items
  /\ (forall k, k <> KStr "pos_embed" -> dict_get out k = dict_get items k)
  /\ (forall ks v, (KStr ks, v) ∈ items ->
        contains "patch_embed.proj.weight" ks = true ->
        exists t, v = PTensor t /\ 4 <= length (tshape t))
  /\ (forall h t',
        pe_num_patches (bf_patch_embed m) = h * h ->
        dict_get out (KStr "pos_embed") = Some (PTensor t') ->
        tshape t' = [1; h * h; bf_embed_dim m] ->
        dict_get items (KStr "pos_embed") = Some (PTensor t')).
Proof.
  intros Hitems Hnd Hr. unfold checkpoint_filter_fn in Hr.
  rewrite Hitems, bind_lift_ret in Hr.
  apply filter_loop_inv in Hr as (-> & new & -> & Hall); [|exact Hnd].
  cbn [app]. split; [reflexivity|]. clear Hitems Hnd.
  induction Hall as [|[k v] [k' v'] items new [Hk He] Hall IH].
  - split_and!; try done. by intros ks v ?%elem_of_nil.
  - cbn [fst snd] in Hk, He. subst k'.
    destruct IH as (IH1 & IH2 & IH3 & IH4).
    destruct (filter_entry_inv _ _ _ _ _ _ He) as (ks & -> & Hproj & Hother & Hpos).
    split_and!.
    + cbn [fmap list_fmap fst]. by rewrite IH1.
    + intros k Hk. cbn [dict_get].
      destruct (decide (k = KStr ks)) as [->|Hne]; [|by apply IH2].
      f_equal. apply Hother. congruence.
    + intros ks0 v0 [[= -> ->]|Hin]%elem_of_cons Hc; [by apply Hproj|].
      by eapply IH3.
    + intros h t' Hh. cbn [dict_get].
      destruct (decide (KStr "pos_embed" = KStr ks)) as [[= <-]|Hne];
        [|by apply IH4].
      intros [= ->] Hsh.
      destruct (Hpos eq_refl) as (t & -> & [[= ->]|(t'' & [= <-] & Hrs)]);
        [reflexivity|].
      exfalso.
      destruct (resize_pos_embed_inv _ _ _ Hrs) as (ntok & g & C & Hn & _ & _ & _ & _ & Ht).
      cbn [tshape lookup list_lookup] in Hn. injection Hn as <-.
      rewrite Hh in Ht. unfold isqrt in Ht. rewrite Nat.sqrt_square in Ht.
      rewrite Ht in Hsh. injection Hsh as Hbad _. lia.
Qed.

End Checkpoints.

Section CheckpointRuns.
#[local] Existing Instance run_numerics.

(** A 2 by 2 grid with its class token, resized for a 3 by 3 grid. *)
Lemma resize_pos_embed_adds_class_token_witness :
  let posemb := mkTensor [1; 5; 8] [1%Z] in
  let posemb_new := mkTensor [1; 3 * 3; 8] [2%Z] in
  exists t,
    resize_pos_embed posemb posemb_new = Ret t
    /\ tshape t <> tshape posemb_new.
Proof.
  intros posemb posemb_new.
  assert (Ht : exists t, resize_pos_embed posemb posemb_new = Ret t)
    by (vm_compute; eexists; reflexivity).
  destruct Ht as [t Ht]. exists t. split; [exact Ht|].
  exact (proj2 (resize_pos_embed_adds_class_token posemb posemb_new t Ht)
           3 8 eq_refl).
Defined.

(** A checkpoint nested under "model" whose positional embedding has a
    class token: it comes back with 197 tokens for a model of 196. *)
Lemma checkpoint_filter_fn_keeps_entries_witness :
  let items := [(KStr "head.bias", PTensor (mkTensor [44] [1%Z]));
                (KStr "pos_embed", PTensor (mkTensor [1; 5; 384] [2%Z]))] in
  let state_dict := [(KStr "model", PDict items)] in
  let s := mkSt ∅ false 0 in
  exists out,
    checkpoint_filter_fn "" state_dict (model demo_pipeline) s = (Ret out, s)
    /\ fst <$> out = fst <$> items
    /\ dict_get out (KStr "head.bias") = dict_get items (KStr "head.bias").
Proof.
  intros items state_dict s.
  assert (Hout : exists out,
    checkpoint_filter_fn "" state_dict (model demo_pipeline) s = (Ret out, s))
    by (vm_compute; eexists; reflexivity).
  destruct Hout as [out Hout]. exists out. split; [exact Hout|].
  assert (Hnd : NoDup (fst <$> items)).
  { apply NoDup_cons. split; [|apply NoDup_singleton].
    intros Hin%list_elem_of_singleton. discriminate Hin. }
  destruct (checkpoint_filter_fn_keeps_entries "" state_dict
              (model demo_pipeline) items s out s eq_refl Hnd Hout)
    as (_ & Hkeys & Hvals & _).
  split; [exact Hkeys|]. apply Hvals. discriminate.
Defined.

End CheckpointRuns.

(** ** The identification endpoint *)

Section ServiceProperties.
Context `{Numerics}.
Variable splitext_ext : string -> string.

Lemma path_exists_write w path f : path_exists (write_file w path f) path = true.
Proof.
  unfold path_exists, write_file. cbn [files].
  apply bool_decide_eq_true_2. rewrite lookup_insert_eq. by eexists.
Qed.

Lemma os_remove_written w path f :
  os_remove (write_file w path f) path = Ret (mkWorld (delete path (files w))).
Proof.
  unfold os_remove. rewrite path_exists_write. unfold write_file. cbn [files].
  by rewrite delete_insert_eq.
Qed.

Lemma path_exists_removed m path :
  path_exists (mkWorld (delete path m)) path = false.
Proof.
  unfold path_exists. cbn [files]. apply bool_decide_eq_false_2.
  rewrite lookup_delete_eq. by intros [? ?].
Qed.

Lemma identify_with_model_files ai_mode self w timestamp file :
  files (identify_with_model splitext_ext ai_mode self w timestamp file).1.2
  = match filename file with
    | Some name => delete (temp_path splitext_ext timestamp name) (files w)
    | None => files w
    end.
Proof.
  unfold identify_with_model. destruct (filename file) as [name|]; [|reflexivity].
  destruct (predict _ _ _ _) as [result self'].
  rewrite os_remove_written.
  destruct (respond ai_mode result); [reflexivity|].
  unfold cleanup. by rewrite path_exists_removed.
Qed.

(** X20.  main.py: whatever the outcome of a request (an answer, a failure
    report, an HTTP error), the upload does not survive it: when the
    handler got as far as writing the temporary file, that path is gone
    afterwards, and no other file of the server is ever touched. *)
Theorem identify_plant_leaves_no_upload plant_model w timestamp file :
  files (identify_plant splitext_ext plant_model w timestamp file).1.2
  = match plant_model, is_image file, filename file with
    | Some _, Ret true, Some name =>
        delete (temp_path splitext_ext timestamp name) (files w)
    | _, _, _ => files w
    end.
Proof.
  unfold identify_plant. destruct plant_model as [self|]; [|reflexivity].
  destruct (is_image file) as [[|]|e]; try reflexivity.
  pose proof (identify_with_model_files false self w timestamp file) as Hf.
  destruct (identify_with_model _ _ _ _ _ _) as [[r w'] self'].
  cbn [fst snd] in *. rewrite Hf. by destruct (filename file).
Qed.

Lemma identify_with_model_response ai_mode self w timestamp file name :
  filename file = Some name ->
  (identify_with_model splitext_ext ai_mode self w timestamp file).1.1
  = match respond ai_mode
            (fst (predict (write_file w (temp_path splitext_ext timestamp name)
                             (content file))
                    self (temp_path splitext_ext timestamp name) 3)) with
    | Some r => r
    | None => HTTPException 500
    end.
Proof.
  intros Hn. unfold identify_with_model. rewrite Hn.
  destruct (predict _ _ _ _) as [result self'].
  rewrite os_remove_written. cbn [fst]. by destruct (respond ai_mode result).
Qed.

(** X21.  main.py, for a loaded model and an upload declared as an image:
    the answer is built from the result of [predict] on the uploaded
    content.  A content that is not a readable image is reported as a
    failure with the [OSError]; a ranking none of whose classes is in the
    taxonomy is reported as a failure with the error "未知错误"; and a
    success carries the list [predict] returned, which is then not empty,
    with its first record as top prediction.  No exception leaves the
    handler. *)
Theorem identify_plant_response self w timestamp file name :
  is_image file = Ret true ->
  filename file = Some name ->
  let path := temp_path splitext_ext timestamp name in
  let result := fst (predict (write_file w path (content file)) self path 3) in
  let r := (identify_plant splitext_ext (Some self) w timestamp file).1.1 in
  ((forall width height pixels, content file <> FImage width height pixels) ->
     r = NotIdentified (Some OSError))
  /\ (success result = true -> predictions result = [] -> r = NotIdentified None)
  /\ (forall top all ai_mode, r = Identified top all ai_mode ->
        success result = true /\ predictions result = all
        /\ head all = Some top /\ ai_mode = false)
  /\ (forall e, r <> Unhandled e) /\ r <> HTTPException 503.
Proof.
  intros Himg Hname path result r.
  assert (Hr : r = match respond false result with
                   | Some r => r
                   | None => HTTPException 500
                   end).
  { subst r. unfold identify_plant. rewrite Himg.
    pose proof (identify_with_model_response false self w timestamp file name
                  Hname) as Hresp.
    destruct (identify_with_model _ _ _ _ _ _) as [[r0 w'] self'].
    exact Hresp. }
  assert (Htop : top_prediction result = head (predictions result)).
  { subst result. unfold predict.
    by destruct (predict_body _ _ _ _ _) as [[results|e] s]. }
  split; [|split; [|split; [|split]]].
  - intros Hno. rewrite Hr. subst result.
    unfold predict, predict_body, predict_topk, Image_open, bind, lift.
    unfold write_file at 1. cbn [files]. rewrite lookup_insert_eq.
    destruct (content file) as [wd ht px| |]; [by destruct (Hno wd ht px)|..];
      reflexivity.
  - intros Hok Hnil. rewrite Hr.
    destruct result as [ps top|e]; [|discriminate Hok].
    cbn [predictions] in Hnil. by subst ps.
  - intros top all ai_mode Hid. rewrite Hr in Hid.
    destruct result as [[|p ps] top'|e]; cbn [respond] in Hid;
      try discriminate Hid.
    cbn [top_prediction predictions] in Htop.
    destruct top' as [tp|]; cbn [mbind option_bind] in Hid; [|discriminate Hid].
    destruct (tp !! "name"); cbn [mbind option_bind] in Hid; [|discriminate Hid].
    destruct (tp !! "confidence") as [[| |]|]; try discriminate Hid.
    all: injection Hid as <- <- <-; cbn [success predictions];
      by rewrite <- Htop.
  - intros e. rewrite Hr. destruct (respond false result) as [r0|] eqn:Hresp;
      [|discriminate].
    destruct result as [[|p ps] top'|e0]; cbn [respond] in Hresp.
    + by injection Hresp as <-.
    + destruct top' as [tp|]; cbn [mbind option_bind] in Hresp;
        [|discriminate Hresp].
      destruct (tp !! "name"); cbn [mbind option_bind] in Hresp;
        [|discriminate Hresp].
      destruct (tp !! "confidence") as [[| |]|]; try discriminate Hresp;
        by injection Hresp as <-.
    + by injection Hresp as <-.
  - rewrite Hr. destruct (respond false result) as [r0|] eqn:Hresp;
      [|discriminate].
    destruct result as [[|p ps] top'|e0]; cbn [respond] in Hresp.
    + by injection Hresp as <-.
    + destruct top' as [tp|]; cbn [mbind option_bind] in Hresp;
        [|discriminate Hresp].
      destruct (tp !! "name"); cbn [mbind option_bind] in Hresp;
        [|discriminate Hresp].
      destruct (tp !! "confidence") as [[| |]|]; try discriminate Hresp;
        by injection Hresp as <-.
    + by injection Hresp as <-.
Qed.

(** X22.  main.py: [startup_event] always ends with a loaded model, since
    constructing the pipeline cannot raise; so after start-up the endpoint
    never answers 503, whatever the weights file and the class file hold. *)
Theorem startup_event_loads_model w0 class_file g :
  exists self,
    startup_event w0 class_file g = Some self
    /\ num_classes self = 44
    /\ training (model_state self) = false
    /\ forall w timestamp file,
         (identify_plant splitext_ext (startup_event w0 class_file g) w
            timestamp file).1.1
         <> HTTPException 503.
Proof.
  destruct (load_model_returns w0 44
              (Some "models/weights/best_plant_model.pth") g)
    as (m & s & Hl & _ & Ht & _).
  exists (mkPlantRecognitionModel 44 m s (load_class_names class_file)).
  assert (Hs : startup_event w0 class_file g
               = Some (mkPlantRecognitionModel 44 m s
                         (load_class_names class_file))).
  { unfold startup_event, PlantRecognitionModel_init. by rewrite Hl. }
  split; [exact Hs|]. split; [reflexivity|]. split; [exact Ht|].
  intros w timestamp file. rewrite Hs. unfold identify_plant.
  destruct (is_image file) as [[|]|e]; try discriminate.
  pose proof (identify_with_model_response false
                (mkPlantRecognitionModel 44 m s (load_class_names class_file))
                w timestamp file) as Hresp.
  unfold identify_with_model in *.
  destruct (filename file) as [name|]; [|discriminate].
  specialize (Hresp name eq_refl).
  destruct (predict _ _ _ _) as [result self'].
  rewrite os_remove_written in *. cbn [fst] in Hresp.
  destruct (respond false result) as [r0|] eqn:Hr0; [|discriminate].
  cbn [fst]. intros ->.
  destruct result as [[|p ps] top'|e0]; cbn [respond] in Hr0;
    try discriminate Hr0.
  destruct top' as [tp|]; cbn [mbind option_bind] in Hr0; [|discriminate Hr0].
  destruct (tp !! "name"); cbn [mbind option_bind] in Hr0; [|discriminate Hr0].
  destruct (tp !! "confidence") as [[| |]|]; discriminate Hr0.
Qed.

(** X23.  main_fixed.py: with a loaded model the endpoint never answers with
    a result.  The call of [predict] is not awaited, so the model does not
    run; the temporary file is removed, building the answer fails on the
    coroutine object, the demonstration mode takes over and fails to remove
    the file a second time: every upload declared as an image ends in HTTP
    500.  Without a model the demonstration list is returned.  Either way
    the temporary file is gone afterwards. *)
Theorem identify_plant_fixed_never_identifies plant_model w timestamp file name :
  is_image file = Ret true ->
  filename file = Some name ->
  identify_plant_fixed splitext_ext plant_model w timestamp file
  = (match plant_model with
     | Some _ => HTTPException 500
     | None => DemoIdentified
                 (mkDemoPlant "龟背竹" "Monstera deliciosa" "天南星科" (85 # 100) 0)
                 demo_plants
     end,
     mkWorld (delete (temp_path splitext_ext timestamp name) (files w)),
     plant_model).
Proof.
  intros Himg Hname. unfold identify_plant_fixed. rewrite Himg, Hname.
  destruct plant_model as [self|]; cbn [try_model top_prediction_name].
  - rewrite os_remove_written. unfold demo_mode, os_remove.
    rewrite path_exists_removed. unfold cleanup.
    by rewrite path_exists_removed.
  - unfold demo_mode. by rewrite os_remove_written.
Qed.

(** X24.  main_fixed_v2.py: the endpoint never runs the model.  It asks the
    pipeline object for an attribute [model_loaded] that the class never
    sets, so every request is answered by [demo_identify_plant]: the
    demonstration list for an upload declared as an image, HTTP 400
    otherwise; nothing is written and the pipeline is not used. *)
Theorem identify_plant_v2_is_demo plant_model w timestamp file :
  identify_plant_v2 splitext_ext plant_model w timestamp file
  = (demo_identify_plant file, w, plant_model)
  /\ (is_image file = Ret true ->
      demo_identify_plant file
      = DemoIdentified
          (mkDemoPlant "龟背竹" "Monstera deliciosa" "天南星科" (85 # 100) 0)
          demo_plants)
  /\ (is_image file = Ret false -> demo_identify_plant file = HTTPException 400).
Proof.
  split; [|split].
  - unfold identify_plant_v2. by destruct plant_model.
  - intros Himg. unfold demo_identify_plant. by rewrite Himg.
  - intros Himg. unfold demo_identify_plant. by rewrite Himg.
Qed.

End ServiceProperties.

Section ServiceRuns.
#[local] Existing Instance run_numerics.

(** An upload that says it is a JPEG and is not an image. *)
Lemma identify_plant_response_witness :
  let file := mkUpload (Some "image/jpeg") (Some "leaf.jpg") FOther in
  is_image file = Ret true
  /\ (identify_plant (fun _ => ".jpg") (Some demo_pipeline) demo_world
        "20250101_120000" file).1.1
     = NotIdentified (Some OSError).
Proof.
  intros file. split; [reflexivity|].
  refine (proj1 (identify_plant_response (fun _ => ".jpg") demo_pipeline
                   demo_world "20250101_120000" file "leaf.jpg"
                   eq_refl eq_refl) _).
  intros width height pixels. discriminate.
Defined.

(** A photograph sent to main_fixed.py while its model is loaded. *)
Lemma identify_plant_fixed_never_identifies_witness :
  let file := mkUpload (Some "image/jpeg") (Some "leaf.jpg")
                (FImage 640 480 [7%Z]) in
  is_image file = Ret true
  /\ (identify_plant_fixed (fun _ => ".jpg") (Some demo_pipeline) demo_world
        "20250101_120000" file).1.1
     = HTTPException 500.
Proof.
  intros file. split; [reflexivity|].
  exact (f_equal (fun x => x.1.1)
           (identify_plant_fixed_never_identifies (fun _ => ".jpg")
              (Some demo_pipeline) demo_world "20250101_120000" file "leaf.jpg"
              eq_refl eq_refl)).
Defined.

(** The same photograph sent to main_fixed_v2.py. *)
Lemma identify_plant_v2_is_demo_witness :
  let file := mkUpload (Some "image/jpeg") (Some "leaf.jpg")
                (FImage 640 480 [7%Z]) in
  is_image file = Ret true
  /\ demo_identify_plant file
     = DemoIdentified
         (mkDemoPlant "龟背竹" "Monstera deliciosa" "天南星科" (85 # 100) 0)
         demo_plants.
Proof.
  intros file. split; [reflexivity|].
  exact (proj1 (proj2 (identify_plant_v2_is_demo (fun _ => ".jpg")
                         (Some demo_pipeline) demo_world "20250101_120000" file))
           eq_refl).
Defined.

(** main.py on the same photograph: the model's ranking comes back. *)
Example identify_plant_photograph :
  let file := mkUpload (Some "image/jpeg") (Some "leaf.jpg")
                (FImage 640 480 [7%Z]) in
  exists top all,
    (identify_plant (fun _ => ".jpg") (Some demo_pipeline) demo_world
       "20250101_120000" file).1.1
    = Identified top all false
    /\ length all = 3.
Proof. intros file. vm_compute. eexists _, _. split; reflexivity. Qed.

End ServiceRuns.

(** ** What the service's model holds after loading *)

Section ServiceWeights.
Context `{Numerics}.

Lemma service_names_NoDup nc m :
  BryoFormer_init 224 16 3 nc 384 8 2 None false 0 0 0 = Ret m ->
  NoDup (fst <$> BryoFormer_params "" m).
Proof.
  intros Hm. destruct nc as [|n]; vm_compute in Hm; injection Hm as <-;
    match goal with
    | |- NoDup ?l =>
        let l' := eval vm_compute in l in
        replace l with l' by (vm_compute; reflexivity)
    end;
    apply (bool_decide_unpack _); vm_compute; reflexivity.
Qed.

Lemma load_weights_flat w layout path (s : St) sd :
  files w !! path
  = Some (FCheckpoint (PDict ((fun kv => (KStr (fst kv), snd kv)) <$> sd))) ->
  (forall k, k ∈ wrapper_keys ->
     dict_get ((fun kv => (KStr (fst kv), snd kv)) <$> sd) (KStr k) = None) ->
  load_weights w layout path s
  = (Ret tt, snd (load_state_dict layout (normalize_state_dict sd) s)).
Proof.
  intros Hf Hflat. unfold load_weights, load_checkpoint, torch_load.
  rewrite Hf. cbn [rbind py_items]. rewrite (unwrap_flat _ Hflat).
  cbn [py_items]. unfold normalize_state_dict.
  destruct (strip_loop _ []) as [nsd [e|]] eqn:Hs;
    rewrite strip_loop_strings in Hs; injection Hs as <-; [discriminate|].
  cbn [fst].
  destruct (load_state_dict layout (store_all [] sd) s) as [[[]|e] s'] eqn:Hl;
    cbn [fst snd]; [reflexivity|].
  rewrite retry_load_state. f_equal.
  pose proof (load_state_dict_idem layout (store_all [] sd) s) as Hi.
  by rewrite Hl in Hi.
Qed.

Lemma load_state_dict_copy layout sd (s : St) name sh t :
  NoDup (fst <$> layout) ->
  (name, sh) ∈ layout ->
  fst (load_state_dict layout sd s) <> Raise IndexError ->
  dict_get sd name = Some (PTensor t) -> tshape t = sh ->
  store (snd (load_state_dict layout sd s)) !! name = Some (tdata t).
Proof.
  intros Hnd Hin Hne Ht Hsh.
  assert (Hs' : store (snd (load_state_dict layout sd s)) !! name
                = store (snd (load_entry sd (name, sh) s)) !! name).
  { unfold load_state_dict in *. unfold bind in *.
    destruct (load_entries sd layout s) as [[ok|e] s1] eqn:Hl.
    - rewrite <- (load_entries_lookup sd layout s ok s1 name sh Hnd Hl Hin).
      by destruct ok.
    - apply load_entries_raise in Hl as ->. by destruct Hne. }
  rewrite Hs'. unfold load_entry. rewrite Ht.
  assert (Hadj : match sh, tshape t with
                 | [], [n] => if n =? 0 then Raise IndexError
                              else Ret (mkTensor [] (kernel "select0" [] [t]))
                 | _, _ => Ret t
                 end = Ret t).
  { rewrite Hsh. by destruct sh as [|? [|? ?]]. }
  rewrite Hadj, bind_lift_ret. unfold shape_eqb.
  rewrite bool_decide_eq_true_2 by exact Hsh.
  unfold bind, set_buffer, ret. cbn [snd store]. apply lookup_insert_eq.
Qed.

(** X25.  The service's [load_model] on a flat checkpoint with string keys:
    the model is returned in evaluation mode, and, unless loading met an
    empty vector for a scalar entry, every parameter and buffer for which
    the checkpoint holds, under a key that normalises to its name, a tensor
    of its shape has that tensor's value, whether or not other entries of
    the checkpoint were refused. *)
Theorem load_model_loads_matching_entries w nc path g sd m :
  BryoFormer_init 224 16 3 nc 384 8 2 None false 0 0 0 = Ret m ->
  path <> "" ->
  files w !! path
  = Some (FCheckpoint (PDict ((fun kv => (KStr (fst kv), snd kv)) <$> sd))) ->
  (forall k, k ∈ wrapper_keys ->
     dict_get ((fun kv => (KStr (fst kv), snd kv)) <$> sd) (KStr k) = None) ->
  exists s,
    load_model w nc (Some path) g = Ret (m, s)
    /\ training s = false
    /\ (fst (load_state_dict (BryoFormer_params "" m) (normalize_state_dict sd)
               (fresh_state g)) <> Raise IndexError ->
        forall name sh t,
          (name, sh) ∈ BryoFormer_params "" m ->
          dict_get (normalize_state_dict sd) name = Some (PTensor t) ->
          tshape t = sh ->
          store s !! name = Some (tdata t)).
Proof.
  intros Hm Hpath Hf Hflat. unfold load_model. rewrite Hm. cbn [rbind].
  unfold load_model_weights, path_exists. rewrite Hf.
  rewrite bool_decide_eq_false_2 by exact Hpath.
  rewrite bool_decide_eq_true_2 by (by eexists). cbn [negb andb].
  unfold bind. rewrite (load_weights_flat _ _ _ _ sd Hf Hflat).
  unfold eval_mode. eexists. split; [reflexivity|]. split; [reflexivity|].
  intros Hne name sh t Hin Ht Hsh. cbn [store].
  apply (load_state_dict_copy _ _ _ name sh t); try done.
  by eapply service_names_NoDup.
Qed.

End ServiceWeights.

Section ServiceWeightsRuns.
#[local] Existing Instance run_numerics.

(** A checkpoint saved from under [nn.DataParallel] whose second entry does
    not fit: the first is loaded all the same. *)
Lemma load_model_loads_matching_entries_witness :
  let sd := [("module.head.bias", PTensor (mkTensor [44] [1%Z]));
             ("module.norm.weight", PTensor (mkTensor [5] [2%Z]))] in
  let w := mkWorld {[ "weights/flat.pth" :=
             FCheckpoint (PDict ((fun kv => (KStr (fst kv), snd kv)) <$> sd)) ]} in
  exists s,
    load_model w 44 (Some "weights/flat.pth") 0 = Ret (model demo_pipeline, s)
    /\ store s !! "head.bias" = Some [1%Z].
Proof.
  intros sd w.
  assert (Hm : BryoFormer_init 224 16 3 44 384 8 2 None false 0 0 0
               = Ret (model demo_pipeline)) by (vm_compute; reflexivity).
  assert (Hflat : forall k, k ∈ wrapper_keys ->
            dict_get ((fun kv => (KStr (fst kv), snd kv)) <$> sd) (KStr k) = None).
  { intros k Hk. unfold wrapper_keys in Hk.
    repeat (apply elem_of_cons in Hk as [->|Hk]; [reflexivity|]).
    by apply elem_of_nil in Hk. }
  destruct (load_model_loads_matching_entries w 44 "weights/flat.pth" 0 sd
              (model demo_pipeline) Hm ltac:(discriminate) eq_refl Hflat)
    as (s & Hl & _ & Hcopy).
  exists s. split; [exact Hl|].
  apply (Hcopy ltac:(vm_compute; discriminate) "head.bias" [44]
           (@mkTensor run_numerics [44] [1%Z])); [|reflexivity..].
  apply (bool_decide_unpack _). vm_compute. reflexivity.
Defined.

End ServiceWeightsRuns.

(** ** Two more corners: an explicit grid, and the built-in table *)

Section Corners.
Context `{Numerics}.


Lemma default_table_keys i :
  is_Some (default_class_names !! pretty i) -> i < 5.
Proof.
  intros Hs. destruct (Nat.lt_ge_cases i 5) as [|Hge]; [done|]. exfalso.
  assert (Hne : forall j, j < 5 -> pretty i <> pretty j).
  { intros j Hj Heq. apply (inj pretty) in Heq. lia. }
  unfold default_class_names, Taxonomy in Hs.
  rewrite lookup_insert_ne in Hs by (apply not_eq_sym, (Hne 0); lia).
  rewrite lookup_insert_ne in Hs by (apply not_eq_sym, (Hne 1); lia).
  rewrite lookup_insert_ne in Hs by (apply not_eq_sym, (Hne 2); lia).
  rewrite lookup_insert_ne in Hs by (apply not_eq_sym, (Hne 3); lia).
  rewrite lookup_singleton_ne in Hs by (apply not_eq_sym, (Hne 4); lia).
  by destruct Hs.
Qed.

Lemma NoDup_bounded_length (l : list nat) n :
  NoDup l -> (forall i, i ∈ l -> i < n) -> length l <= n.
Proof.
  intros Hnd Hb. rewrite <- (length_seq n 0).
  apply submseteq_length, NoDup_submseteq; [exact Hnd|].
  intros i Hi. apply elem_of_seq. specialize (Hb i Hi). lia.
Qed.

(** X27.  With the built-in taxonomy (no class file, or an unreadable one)
    [predict] can only report the classes 0 to 4: whatever the model, the
    image and [top_k], the list has at most five records and every
    [class_id] in it is below 5; the other classes a model predicts are
    dropped. *)
Theorem predict_default_table_at_most_five w self path k :
  class_names self = default_class_names ->
  let r := fst (predict w self path k) in
  length (predictions r) <= 5
  /\ forall p, p ∈ predictions r ->
       exists i, i < 5 /\ p !! "class_id" = Some (VInt (Z.of_nat i)).
Proof.
  intros Hcn.
  destruct (predict_cases w self path k)
    as [(x & tp & ti & s & Hx & ->)|(e & s & ->)]; cbn [fst predictions].
  - apply topk_selection in Hx as (n & _ & _ & Hti & ->). rewrite Hcn. split.
    + rewrite <- (length_fmap (fun p => p !! "class_id")), labelled_class_ids.
      rewrite length_fmap. apply NoDup_bounded_length.
      * apply NoDup_filter. rewrite Hti.
        apply (sublist_NoDup _ (ranking (tdata x) n));
          [apply ranking_NoDup|apply sublist_take].
      * intros i [Hi _]%list_elem_of_filter. apply default_table_keys.
        unfold in_table in Hi. by apply bool_decide_eq_true in Hi.
    + intros p (j & _ & Hl)%labelled_origin.
      destruct (label_fields _ _ _ _ Hl) as (entry & He & Hid & _).
      exists j. split; [|exact Hid]. apply default_table_keys. by eexists.
  - split; [cbn; lia|]. by intros p ?%elem_of_nil.
Qed.

End Corners.

Section CornerRuns.
#[local] Existing Instance run_numerics.


(** The pipeline the service starts with asks for seven results and gets
    five. *)
Lemma predict_default_table_at_most_five_witness :
  class_names demo_pipeline = default_class_names
  /\ length (predictions (fst (predict demo_world demo_pipeline
                                 "uploads/leaf.jpg" 7))) <= 5.
Proof.
  assert (Hcn : class_names demo_pipeline = default_class_names)
    by (vm_compute; reflexivity).
  split; [exact Hcn|].
  exact (proj1 (predict_default_table_at_most_five demo_world demo_pipeline
                  "uploads/leaf.jpg" 7 Hcn)).
Defined.

End CornerRuns.
